(** * e13ocrbot: the token refresher and the vision relay

    A shallow embedding of [refresh_qwen_token.py] and of the message
    handlers of [bot.py].  Python values are modelled with their
    run-time types (a JSON document is a value of [json]), exceptions by
    their class, and every function that touches the outside world (the
    credential file, the clock, the OAuth endpoint, the chat transport,
    the vision endpoint) by a computation over an explicit environment
    and an explicit state. *)

From Stdlib Require Import String Ascii DecimalString.
From Stdlib Require Import ZArith NArith QArith Qabs List Bool Lia.
From Stdlib Require SpecFloat.
Import ListNotations.

Set Implicit Arguments.
Set Warnings "-register-all".

(* ===================================================================== *)
(** * Python values *)
(* ===================================================================== *)

Module Py.

(** A [str] is a sequence of Unicode code points: [len], slicing and
    [in] all count code points. *)
Definition pystr := list N.

Fixpoint bytes_of (s : string) : list N :=
  match s with
  | EmptyString => []
  | String c r => N_of_ascii c :: bytes_of r
  end.

Definition cont (b : N) : N := N.land b 63.

(** The literals of the source are written as in the source; this file
    is UTF-8, so a literal is decoded to its code points. *)
Fixpoint utf8_decode (bs : list N) : pystr :=
  match bs with
  | [] => []
  | b0 :: r0 =>
    if (b0 <? 128)%N then b0 :: utf8_decode r0
    else if (b0 <? 224)%N then
      match r0 with
      | b1 :: r1 => (N.land b0 31 * 64 + cont b1)%N :: utf8_decode r1
      | [] => [b0]
      end
    else if (b0 <? 240)%N then
      match r0 with
      | b1 :: b2 :: r2 =>
          (N.land b0 15 * 4096 + cont b1 * 64 + cont b2)%N :: utf8_decode r2
      | _ => b0 :: r0
      end
    else
      match r0 with
      | b1 :: b2 :: b3 :: r3 =>
          (N.land b0 7 * 262144 + cont b1 * 4096 + cont b2 * 64 + cont b3)%N
            :: utf8_decode r3
      | _ => b0 :: r0
      end
  end.

Definition u (s : string) : pystr := utf8_decode (bytes_of s).
Arguments u s%_string.

Fixpoint str_eqb (a b : pystr) : bool :=
  match a, b with
  | [], [] => true
  | x :: a', y :: b' => (x =? y)%N && str_eqb a' b'
  | _, _ => false
  end.

(** [s.startswith(p)] *)
Fixpoint startswith (s p : pystr) : bool :=
  match p, s with
  | [], _ => true
  | x :: p', y :: s' => (x =? y)%N && startswith s' p'
  | _ :: _, [] => false
  end.

(** [p in s] *)
Fixpoint contains (p s : pystr) : bool :=
  startswith s p ||
  match s with
  | [] => false
  | _ :: s' => contains p s'
  end.

(** [str.isspace] of one code point: the code points CPython's
    [_PyUnicode_IsWhitespace] accepts. *)
Definition isspace (c : N) : bool :=
  ((9 <=? c) && (c <=? 13) || (28 <=? c) && (c <=? 32) || (c =? 133) || (c =? 160)
   || (c =? 5760) || (8192 <=? c) && (c <=? 8202) || (c =? 8232) || (c =? 8233)
   || (c =? 8239) || (c =? 8287) || (c =? 12288))%N.

Fixpoint lstrip (s : pystr) : pystr :=
  match s with
  | c :: s' => if isspace c then lstrip s' else s
  | [] => []
  end.

(** [s.strip()] *)
Definition strip (s : pystr) : pystr := rev (lstrip (rev (lstrip s))).

(** [s[i:j]] for [0 <= i <= j] *)
Definition slice (A : Type) (s : list A) (i j : nat) : list A :=
  firstn (j - i) (skipn i s).

(** [range(0, n, step)] for [step > 0]; [n] bounds the number of rounds. *)
Fixpoint range_from (fuel i n step : nat) : list nat :=
  match fuel with
  | O => []
  | S fuel' => if i <? n then i :: range_from fuel' (i + step) n step else []
  end.

Definition range (n step : nat) : list nat := range_from n 0 n step.

(** [str(n)] of an [int] *)
Definition str_of_int (z : Z) : pystr :=
  bytes_of (NilZero.string_of_int (Z.to_int z)).

(** A lone surrogate (U+D800 to U+DFFF): the UTF-8 codec refuses it. *)
Definition is_surrogate (c : N) : bool := ((55296 <=? c) && (c <=? 57343))%N.

(** Whether [s.encode("utf-8")] returns; it raises [UnicodeEncodeError]
    otherwise. *)
Definition encodable (s : pystr) : bool := forallb (fun c => negb (is_surrogate c)) s.

(** [base64.b64encode(bs).decode("utf-8")]: the standard alphabet, padded. *)
Definition b64char (i : N) : N :=
  (if i <? 26 then 65 + i
   else if i <? 52 then 97 + (i - 26)
   else if i <? 62 then 48 + (i - 52)
   else if i =? 62 then 43 else 47)%N.

Fixpoint b64encode (bs : list N) : pystr :=
  match bs with
  | [] => []
  | [a] => [b64char (a / 4); b64char (a mod 4 * 16); 61; 61]%N
  | [a; b] =>
      [b64char (a / 4); b64char (a mod 4 * 16 + b / 16); b64char (b mod 16 * 4); 61]%N
  | a :: b :: c :: r =>
      [b64char (a / 4); b64char (a mod 4 * 16 + b / 16);
       b64char (b mod 16 * 4 + c / 64); b64char (c mod 64)]%N ++ b64encode r
  end.

(** A [float] is a binary64 of IEEE 754: 53 bits of precision, results
    rounded to nearest, ties to even.  Its operations are those of the
    Standard Library's specification of floating-point arithmetic. *)
Definition float : Type := SpecFloat.spec_float.

Definition float_add : float -> float -> float := SpecFloat.SFadd 53 1024.

Definition float_sub : float -> float -> float := SpecFloat.SFsub 53 1024.

Definition float_mul : float -> float -> float := SpecFloat.SFmul 53 1024.

Definition float_div : float -> float -> float := SpecFloat.SFdiv 53 1024.

(** A value as [json.loads] builds it: a number of the document with a
    fraction or an exponent (and [NaN], [Infinity]) is a [float], any
    other number an [int]. *)
Inductive json :=
| JNull
| JBool (b : bool)
| JInt (z : Z)
| JFloat (x : float)
| JStr (s : pystr)
| JList (l : list json)
| JDict (d : list (pystr * json)).

(** [bool(v)] *)
Definition truthy (v : json) : bool :=
  match v with
  | JNull => false
  | JBool b => b
  | JInt z => negb (z =? 0)%Z
  | JFloat x => match x with SpecFloat.S754_zero _ => false | _ => true end
  | JStr s => match s with [] => false | _ => true end
  | JList l => match l with [] => false | _ => true end
  | JDict d => match d with [] => false | _ => true end
  end.

Fixpoint lookup (k : pystr) (d : list (pystr * json)) : option json :=
  match d with
  | [] => None
  | (k', v) :: d' => if str_eqb k k' then Some v else lookup k d'
  end.

(** The exception classes the two programs raise, catch or let through. *)
Inductive exn :=
| SystemExit (code : Z)
| HTTPError (code : Z) (body : pystr)      (* urllib.error.HTTPError, decoded body *)
| URLError (reason : pystr)                (* urllib.error.URLError *)
| JSONDecodeError (doc : pystr)            (* json.JSONDecodeError, a ValueError *)
| UnicodeDecodeError                       (* a ValueError *)
| UnicodeEncodeError                       (* a ValueError *)
| ValueError
| FileNotFoundError                        (* an OSError *)
| OSError
| KeyError
| IndexError
| TypeError
| AttributeError
| OverflowError
| TimeoutException                         (* httpx.TimeoutException *)
| HTTPStatusError (status_code : Z) (text : pystr)   (* httpx.HTTPStatusError *)
| OtherError.                              (* any other subclass of Exception *)

(** [isinstance(e, ValueError)] *)
Definition is_ValueError (e : exn) : bool :=
  match e with
  | ValueError | JSONDecodeError _ | UnicodeDecodeError | UnicodeEncodeError => true
  | _ => false
  end.

(** [isinstance(e, Exception)]: [SystemExit] derives from
    [BaseException] only. *)
Definition is_Exception (e : exn) : bool :=
  match e with
  | SystemExit _ => false
  | _ => true
  end.

Inductive result (A : Type) :=
| Ok (a : A)
| Raise (e : exn).
Arguments Raise {A} e.

(** [v.get(k, default)] *)
Definition get (v : json) (k : pystr) (default : json) : result json :=
  match v with
  | JDict d => Ok (match lookup k d with Some x => x | None => default end)
  | _ => Raise AttributeError
  end.

(** [v[k]] with a [str] key *)
Definition getitem (v : json) (k : pystr) : result json :=
  match v with
  | JDict d => match lookup k d with Some x => Ok x | None => Raise KeyError end
  | _ => Raise TypeError
  end.

(** [v[0]] *)
Definition getitem0 (v : json) : result json :=
  match v with
  | JList l => match l with x :: _ => Ok x | [] => Raise IndexError end
  | JStr s => match s with c :: _ => Ok (JStr [c]) | [] => Raise IndexError end
  | JDict _ => Raise KeyError      (* the keys of a JSON object are strings *)
  | _ => Raise TypeError
  end.

(** [len(v)] *)
Definition len (v : json) : result nat :=
  match v with
  | JStr s => Ok (length s)
  | JList l => Ok (length l)
  | JDict d => Ok (length d)
  | _ => Raise TypeError
  end.

(** [v[i:j]] for [0 <= i <= j].  A [dict] has no slices: [TypeError]
    (unhashable slice; from Python 3.12 on a [KeyError], which the
    programs catch in the same clause). *)
Definition getslice (v : json) (i j : nat) : result json :=
  match v with
  | JStr s => Ok (JStr (slice s i j))
  | JList l => Ok (JList (slice l i j))
  | _ => Raise TypeError
  end.

(** A number: an [int] (a [bool] is an [int]) or a [float]. *)
Inductive number :=
| Int (z : Z)
| Float (x : float).

Definition as_number (v : json) : option number :=
  match v with
  | JInt z => Some (Int z)
  | JBool b => Some (Int (Z.b2z b))
  | JFloat x => Some (Float x)
  | _ => None
  end.

(** [float(n)] of an [int], as the arithmetic converts an [int] operand:
    the nearest binary64, and [OverflowError] when that is beyond the
    largest one. *)
Definition float_of_int (n : Z) : result float :=
  match SpecFloat.binary_normalize 53 1024 n 0 false with
  | SpecFloat.S754_infinity _ => Raise OverflowError
  | x => Ok x
  end.

(** [v - n] with [n] an [int] *)
Definition sub_int (v : json) (n : Z) : result number :=
  match as_number v with
  | Some (Int z) => Ok (Int (z - n))
  | Some (Float x) =>
      match float_of_int n with
      | Ok y => Ok (Float (float_sub x y))
      | Raise e => Raise e
      end
  | None => Raise TypeError
  end.

(** [v * n] with [n] a positive [int]: a sequence is repeated. *)
Definition mul_int (v : json) (n : Z) : result json :=
  match v with
  | JInt z => Ok (JInt (z * n))
  | JBool b => Ok (JInt (Z.b2z b * n))
  | JFloat x =>
      match float_of_int n with
      | Ok y => Ok (JFloat (float_mul x y))
      | Raise e => Raise e
      end
  | JStr s => Ok (JStr (concat (repeat s (Z.to_nat n))))
  | JList l => Ok (JList (concat (repeat l (Z.to_nat n))))
  | JNull | JDict _ => Raise TypeError
  end.

(** [n + v] with [n] an [int] *)
Definition int_add (n : Z) (v : json) : result json :=
  match as_number v with
  | Some (Int z) => Ok (JInt (n + z))
  | Some (Float x) =>
      match float_of_int n with
      | Ok y => Ok (JFloat (float_add y x))
      | Raise e => Raise e
      end
  | None => Raise TypeError
  end.

(** The least magnitude that rounds (to nearest, ties to even) beyond
    the largest binary64: [2^1024 - 2^970]. *)
Definition FLOAT_OVERFLOW_Z : Z := 2 ^ 1024 - 2 ^ 970.

Definition FLOAT_OVERFLOW : Q := inject_Z FLOAT_OVERFLOW_Z.

(** [a / b] of two [int]s, [b] a non-zero constant of the source.  The
    result is the [float] nearest to the quotient; the model keeps the
    exact quotient, which compares with a constant that is a binary64
    (7200) as the rounded one does, and raises where Python does. *)
Definition truediv (a b : Z) : result Q :=
  let q := (inject_Z a / inject_Z b)%Q in
  if Qle_bool FLOAT_OVERFLOW (Qabs q) then Raise OverflowError else Ok q.

(** The [float] a true division gives. *)
Inductive quotient :=
| Exact (q : Q)           (* of two ints: the float nearest to [q], see [truediv] *)
| Binary64 (x : float).   (* of a float by an int *)

(** [a / b] of a number by an [int], [b] a non-zero constant of the
    source. *)
Definition number_truediv (a : number) (b : Z) : result quotient :=
  match a with
  | Int z =>
      match truediv z b with
      | Ok q => Ok (Exact q)
      | Raise e => Raise e
      end
  | Float x =>
      match float_of_int b with
      | Ok y => Ok (Binary64 (float_div x y))
      | Raise e => Raise e
      end
  end.

(** [v / b] *)
Definition json_truediv (v : json) (b : Z) : result quotient :=
  match as_number v with
  | Some a => number_truediv a b
  | None => Raise TypeError
  end.

(** [x <= n] of a [float] and an [int]: Python compares the two values
    exactly; a NaN compares false. *)
Definition float_le_int (x : float) (n : Z) : bool :=
  match x with
  | SpecFloat.S754_nan => false
  | SpecFloat.S754_infinity s => s
  | SpecFloat.S754_zero _ => (0 <=? n)%Z
  | SpecFloat.S754_finite s m e =>
      let v := if s then Z.neg m else Z.pos m in
      if (0 <=? e)%Z then (v * 2 ^ e <=? n)%Z else (v <=? n * 2 ^ (- e))%Z
  end.

(** [r <= n] with [n] an [int] *)
Definition quotient_le_int (r : quotient) (n : Z) : bool :=
  match r with
  | Exact q => Qle_bool q (inject_Z n)
  | Binary64 x => float_le_int x n
  end.

(** Computations: an environment that is read, a state that is
    threaded, and a value or a raised exception. *)
Definition M (E S A : Type) : Type := E -> S -> result A * S.

Definition ret {E S A} (a : A) : M E S A := fun _ s => (Ok a, s).

Definition bind {E S A B} (m : M E S A) (f : A -> M E S B) : M E S B :=
  fun e s =>
    match m e s with
    | (Ok a, s') => f a e s'
    | (Raise x, s') => (Raise x, s')
    end.

Definition raise {E S A} (x : exn) : M E S A := fun _ s => (Raise x, s).

Definition lift {E S A} (r : result A) : M E S A := fun _ s => (r, s).

Definition ask {E S A} (f : E -> A) : M E S A := fun e s => (Ok (f e), s).

Definition modify {E S} (f : S -> S) : M E S unit := fun _ s => (Ok tt, f s).

(** [try: m  except ...: h]: [h] gives the handler of the first clause
    the exception matches, [None] when no clause does. *)
Definition try_except {E S A} (m : M E S A) (h : exn -> option (M E S A)) : M E S A :=
  fun e s =>
    match m e s with
    | (Ok a, s') => (Ok a, s')
    | (Raise x, s') =>
        match h x with
        | Some k => k e s'
        | None => (Raise x, s')
        end
    end.

(** [sys.exit(code)] *)
Definition sys_exit {E S A} (code : Z) : M E S A := raise (SystemExit code).

End Py.

Import Py.

Declare Scope py_scope.
Delimit Scope py_scope with py.
Notation "x <- m ;; k" := (bind m (fun x => k))
  (at level 61, m at next level, right associativity) : py_scope.
Notation "m ;; k" := (bind m (fun _ => k))
  (at level 61, right associativity) : py_scope.
Open Scope py_scope.

(* ===================================================================== *)
(** * refresh_qwen_token.py *)
(* ===================================================================== *)

Module RefreshQwenToken.

(** The credential store [CREDS_PATH]: its decoded text and its
    permission bits. *)
Record file := { text : pystr; mode : Z }.

(** What [urlopen(req, timeout=30)] and the [with] block see. *)
Inductive urlopen_result :=
| UrlRaises (e : exn)
    (* urlopen raises: HTTPError for an error status, URLError, ... *)
| UrlResponse (body : option pystr) (content_type : option pystr).
    (* resp.read().decode("utf-8"), None when it raises UnicodeDecodeError;
       the Content-Type header, None when the response has none *)

(** The lines [log] prints, by message; the time stamp and the layout
    of the numbers are left out. *)
Inductive log_msg :=
| LogCheck                       (* "=== Проверка токена Qwen ===" *)
| LogFileNotFound                (* "ОШИБКА: Файл ... не найден" *)
| LogFileUpdated                 (* "Файл ... обновлён" *)
| LogNoExpiry                    (* "Поле expiry_date отсутствует — обновляем токен" *)
| LogExpiresSoon (remaining_sec : quotient)   (* "Токен истекает через ... — обновляем" *)
| LogStillValid (remaining_sec : quotient)
    (* "Токен действителен ещё ... — обновление не требуется" *)
| LogHtml                        (* "ОШИБКА: API вернул HTML вместо JSON (вероятно WAF-блокировка)" *)
| LogHtmlDetail (content_type : pystr) (len : nat)
| LogEmpty                       (* "ОШИБКА: API вернул пустой ответ" *)
| LogEmptyHint                   (* "refresh_token, вероятно, недействителен. Выполните: qwen" *)
| LogHTTP (code : Z) (error_body : pystr)   (* "ОШИБКА HTTP {code}: {error_body}" *)
| LogReauthorize                 (* "refresh_token недействителен. Выполните: qwen" *)
| LogNetwork (reason : pystr)    (* "ОШИБКА сети: {reason}" *)
| LogJSON                        (* "ОШИБКА JSON: {e}" *)
| LogJSONExcerpt (excerpt : pystr)    (* "Ответ (первые 300 символов): {raw[:300]}" *)
| LogUnexpected (body : json)    (* "ОШИБКА: неожиданный ответ API: ..." *)
| LogNoRefreshToken              (* "ОШИБКА: refresh_token отсутствует в файле. ..." *)
| LogSending                     (* "Отправляем запрос на обновление токена..." *)
| LogRefreshed (hours : quotient).   (* "Токен обновлён! Действителен ... ч" *)

(** What the process does to the outside world, in order. *)
Inductive event :=
| Urlopen (refresh_token_value : json)   (* the POST to QWEN_OAUTH_TOKEN_URL *)
| JsonLoads (raw : pystr)                (* json.loads(raw) on the response body *)
| FileWrite (written : pystr)
    (* open(CREDS_PATH, "w") and json.dump: what reached the file *)
| Chmod (new_mode : Z).                  (* os.chmod(CREDS_PATH, ...) *)

Record env := {
  clock : nat -> Z;            (* the successive values of int(time.time() * 1000) *)
  endpoint : urlopen_result    (* what the token endpoint answers *)
}.

Record state := {
  creds_file : option file;    (* None: CREDS_PATH does not exist *)
  ticks : nat;                 (* readings of the clock so far *)
  stdout : list log_msg;
  trace : list event
}.

Definition REFRESH_THRESHOLD_SEC : Z := 7200.

Definition log (msg : log_msg) : M env state unit :=
  modify (fun s => {| creds_file := creds_file s; ticks := ticks s;
                      stdout := stdout s ++ [msg]; trace := trace s |}).

Definition emit (ev : event) : M env state unit :=
  modify (fun s => {| creds_file := creds_file s; ticks := ticks s;
                      stdout := stdout s; trace := trace s ++ [ev] |}).

(** [int(time.time() * 1000)] *)
Definition time_ms : M env state Z :=
  fun e s => (Ok (clock e (ticks s)),
              {| creds_file := creds_file s; ticks := S (ticks s);
                 stdout := stdout s; trace := trace s |}).

(** [with open(CREDS_PATH, "w") as f: json.dump(..., f, ...)].  The
    process can write the file (it is run by cron as its owner).  [open]
    truncates the file: an existing file keeps its permission bits, a new
    one gets 0o644 (0o666 under the umask 0o022).  [dumped] is what
    [json.dump] wrote to [f] and the exception that interrupted it, if
    any: the file is closed with what was written so far, and the
    exception goes on. *)
Definition write_file (dumped : pystr * option exn) : M env state unit :=
  modify (fun s => {| creds_file :=
                        Some {| text := fst dumped;
                                mode := match creds_file s with
                                        | Some f => mode f
                                        | None => 420
                                        end |};
                      ticks := ticks s; stdout := stdout s; trace := trace s |});;
  emit (FileWrite (fst dumped));;
  match snd dumped with
  | Some x => raise x
  | None => ret tt
  end.

Definition chmod (new_mode : Z) : M env state unit :=
  modify (fun s => {| creds_file :=
                        match creds_file s with
                        | Some f => Some {| text := text f; mode := new_mode |}
                        | None => None
                        end;
                      ticks := ticks s; stdout := stdout s; trace := trace s |});;
  emit (Chmod new_mode).

(** [v != lit] for a [str] literal *)
Definition ne_str (v : json) (lit : pystr) : bool :=
  match v with
  | JStr s => negb (str_eqb s lit)
  | _ => true
  end.

(** [urllib.parse.urlencode({...})] of lines 84-88.  The keys and the
    two other values are ASCII literals.  A refresh token that is a
    [str] is quoted from its UTF-8 encoding, which raises on a lone
    surrogate; any other value is quoted from [str(v)], where [repr] has
    escaped such characters. *)
Definition urlencode (refresh_token_value : json) : result unit :=
  match refresh_token_value with
  | JStr s => if encodable s then Ok tt else Raise UnicodeEncodeError
  | _ => Ok tt
  end.

Section Program.

(** [json.loads]: [None] when it raises [JSONDecodeError]; and
    [json.dump(_, f, indent=2, ensure_ascii=False)]: the text it writes
    to [f], chunk after chunk, and the exception that interrupts it
    ([UnicodeEncodeError] when a chunk holds a lone surrogate,
    [ValueError] for an [int] of more than 4300 digits), [None] when it
    returns. *)
Variable json_loads : pystr -> option json.
Variable json_dump : json -> pystr * option exn.

Definition load_creds : M env state json :=
  f <- (fun _ s => (Ok (creds_file s), s));;
  match f with
  | None => log LogFileNotFound;; sys_exit 1
  | Some f =>
      match json_loads (text f) with
      | Some v => ret v
      | None => raise (JSONDecodeError (text f))
      end
  end.

Definition save_creds (creds : json) : M env state unit :=
  write_file (json_dump creds);;
  chmod 384;;                                   (* 0o600 *)
  log LogFileUpdated.

Definition token_needs_refresh (creds : json) : M env state bool :=
  expiry_date <- lift (get creds (u "expiry_date") JNull);;
  if negb (truthy expiry_date) then
    log LogNoExpiry;;
    ret true
  else
    now_ms <- time_ms;;
    d <- lift (sub_int expiry_date now_ms);;
    remaining_sec <- lift (number_truediv d 1000);;
    if quotient_le_int remaining_sec REFRESH_THRESHOLD_SEC then
      log (LogExpiresSoon remaining_sec);;
      ret true
    else
      log (LogStillValid remaining_sec);;
      ret false.

Definition refresh_token (refresh_token_value : json) : M env state json :=
  lift (urlencode refresh_token_value);;
  emit (Urlopen refresh_token_value);;
  body <- try_except
    (r <- ask endpoint;;
     match r with
     | UrlRaises e => raise e
     | UrlResponse body content_type =>
         raw <- lift (match body with Some t => Ok t | None => Raise UnicodeDecodeError end);;
         let content_type := match content_type with Some c => c | None => [] end in
         (if contains (u "text/html") content_type then
            log LogHtml;;
            log (LogHtmlDetail content_type (length raw));;
            sys_exit 1
          else ret tt);;
         (if negb (truthy (JStr (strip raw))) then
            log LogEmpty;;
            log LogEmptyHint;;
            sys_exit 1
          else ret tt);;
         emit (JsonLoads raw);;
         match json_loads raw with
         | Some body => ret body
         | None => raise (JSONDecodeError raw)
         end
     end)
    (fun e =>
       match e with
       | HTTPError code error_body => Some (
           log (LogHTTP code error_body);;
           (if (code =? 400)%Z || (code =? 401)%Z then log LogReauthorize else ret tt);;
           sys_exit 1)
       | URLError reason => Some (
           log (LogNetwork reason);;
           sys_exit 1)
       | JSONDecodeError raw => Some (
           log LogJSON;;
           log (LogJSONExcerpt (slice raw 0 300));;
           sys_exit 1)
       | _ => None
       end);;
  status <- lift (get body (u "status") JNull);;
  if ne_str status (u "success") then
    log (LogUnexpected body);;
    sys_exit 1
  else
    ret body.

Definition main : M env state unit :=
  log LogCheck;;
  creds <- load_creds;;
  needs <- token_needs_refresh creds;;
  if negb needs then
    ret tt
  else
    rt <- lift (get creds (u "refresh_token") JNull);;
    if negb (truthy rt) then
      log LogNoRefreshToken;;
      sys_exit 1
    else
      log LogSending;;
      result <- refresh_token rt;;
      access_token <- lift (getitem result (u "access_token"));;
      token_type <- lift (get result (u "token_type") (JStr (u "Bearer")));;
      refresh_token' <- lift (getitem result (u "refresh_token"));;
      resource_url <- lift (get result (u "resource_url") (JStr (u "portal.qwen.ai")));;
      now_ms <- time_ms;;
      expires_in <- lift (getitem result (u "expires_in"));;
      ms <- lift (mul_int expires_in 1000);;
      expiry_date <- lift (int_add now_ms ms);;
      let new_creds := JDict [
        (u "access_token", access_token);
        (u "token_type", token_type);
        (u "refresh_token", refresh_token');
        (u "resource_url", resource_url);
        (u "expiry_date", expiry_date)
      ] in
      save_creds new_creds;;
      expires_in <- lift (getitem result (u "expires_in"));;
      hours <- lift (json_truediv expires_in 3600);;
      log (LogRefreshed hours).

(** The process: its exit status (an exception that reaches the top
    ends it with status 1), the store it leaves, what it printed and
    what it did. *)
Record outcome := {
  status : Z;
  store : option file;
  printed : list log_msg;
  events : list event
}.

Definition exit_status (r : result unit) : Z :=
  match r with
  | Ok _ => 0
  | Raise (SystemExit code) => code
  | Raise _ => 1
  end.

Definition start (f : option file) : state :=
  {| creds_file := f; ticks := 0; stdout := []; trace := [] |}.

Definition run (e : env) (f : option file) : outcome :=
  let (r, s) := main e (start f) in
  {| status := exit_status r; store := creds_file s;
     printed := stdout s; events := trace s |}.

End Program.

End RefreshQwenToken.

(* ===================================================================== *)
(** * bot.py *)
(* ===================================================================== *)

Module Bot.

(** What a handler does to the outside world, in order.  The chat
    transport is an outbound sink: [reply_text] and [edit_text] are
    recorded and return.  The calls of [logger] are left out. *)
Inductive action :=
| ReplyText (text : pystr) (parse_mode : option pystr)   (* update.message.reply_text *)
| ReplyValue (text : json)
    (* update.message.reply_text with a text that is no [str] *)
| EditText (text : pystr) (parse_mode : option pystr)    (* processing_msg.edit_text *)
| GetFile (file_id : pystr)                              (* context.bot.get_file *)
| DownloadToMemory                                       (* tg_file.download_to_memory *)
| Sync                                                   (* os.sync() *)
| Post (token : json) (image_base64 : pystr).            (* client.post(QWEN_API_URL, ...) *)

(** A [PhotoSize] or a [Document]. *)
Record file_obj := { file_id : pystr; mime_type : option pystr }.

Record env := {
  get_file : result unit;           (* context.bot.get_file returns or raises *)
  download : result (list N);       (* the bytes of the file, or what raises *)
  creds_text : result pystr;
    (* open(QWEN_OAUTH_CREDS_PATH) and the read: the text, or FileNotFoundError / OSError *)
  post : result (Z * pystr)
    (* client.post: the status code and the body of the response, or what raises *)
}.

Definition state := list action.

Definition emit (a : action) : M env state unit := modify (fun t => t ++ [a]).

Fixpoint for_each (A : Type) (l : list A) (body : A -> M env state unit) : M env state unit :=
  match l with
  | [] => ret tt
  | x :: l' => body x;; for_each l' body
  end.

Definition LF : pystr := [10%N].

Definition MARKDOWN : option pystr := Some (u "Markdown").

Definition MSG_PROCESSING : pystr := u "⏳ Обрабатываю...".

Definition HEADER : pystr := u "📝 *Текст:*" ++ LF ++ LF.

Definition MSG_SPLIT : pystr := u "📝 *Текст (разбит на части из-за длины):*".

Definition MSG_NOT_IMAGE : pystr :=
  u "⚠️ Пожалуйста, отправьте изображение (JPEG, PNG, WebP, GIF).".

Definition MSG_TIMEOUT : pystr :=
  u "⏱ Превышено время ожидания ответа от сервера. " ++ u "Попробуйте ещё раз позже.".

Definition MSG_401 : pystr := u "🔑 Ошибка авторизации. Проверьте токен API.".

Definition MSG_429 : pystr := u "🚦 Превышен лимит запросов. Попробуйте позже.".

Definition MSG_5XX : pystr := u "🔧 Сервер временно недоступен. Попробуйте позже.".

Definition MSG_STATUS (status_code : Z) : pystr :=
  u "❌ Ошибка сервера (код " ++ str_of_int status_code ++ u "). Попробуйте позже.".

Definition MSG_PARSE : pystr :=
  u "❌ Не удалось обработать ответ от сервера. Попробуйте ещё раз.".

Definition MSG_UNEXPECTED : pystr :=
  u "❌ Произошла непредвиденная ошибка. Попробуйте позже.".

(** The message of the [except httpx.HTTPStatusError] clause. *)
Definition error_msg (status_code : Z) : pystr :=
  if (status_code =? 401)%Z then MSG_401
  else if (status_code =? 429)%Z then MSG_429
  else if (status_code >=? 500)%Z then MSG_5XX
  else MSG_STATUS status_code.

(** [response.raise_for_status()]: httpx raises unless the status is 2xx. *)
Definition raise_for_status (status_code : Z) (text : pystr) : M env state unit :=
  if (200 <=? status_code)%Z && (status_code <=? 299)%Z then ret tt
  else raise (HTTPStatusError status_code text).

(** [await update.message.reply_text(chunk)] *)
Definition reply_text (chunk : json) : M env state unit :=
  match chunk with
  | JStr text => emit (ReplyText text None)
  | _ => emit (ReplyValue chunk)
  end.

Section Program.

(** [json.loads], and [str(v)] for a value that is no [str] (what an
    f-string puts for it). *)
Variable json_loads : pystr -> option json.
Variable str_of : json -> pystr.

(** [f"{v}"] *)
Definition format (v : json) : pystr :=
  match v with
  | JStr s => s
  | _ => str_of v
  end.

Definition get_qwen_token : M env state json :=
  try_except
    (emit Sync;;
     r <- ask creds_text;;
     text <- lift r;;
     creds <- match json_loads text with
              | Some v => ret v
              | None => raise (JSONDecodeError text)
              end;;
     token <- lift (get creds (u "access_token") (JStr []));;
     if truthy token then ret token
     else raise ValueError)
    (fun e =>
       match e with
       | FileNotFoundError => Some (raise e)
       | JSONDecodeError _ | OSError => Some (raise e)
       | _ => None
       end).

Definition call_vision_api (image_base64 : pystr) : M env state json :=
  token <- get_qwen_token;;
  emit (Post token image_base64);;
  r <- ask post;;
  response <- lift r;;
  raise_for_status (fst response) (snd response);;
  data <- match json_loads (snd response) with
          | Some v => ret v
          | None => raise (JSONDecodeError (snd response))
          end;;
  try_except
    (choices <- lift (getitem data (u "choices"));;
     choice <- lift (getitem0 choices);;
     message <- lift (getitem choice (u "message"));;
     lift (getitem message (u "content")))
    (fun e =>
       match e with
       | KeyError | IndexError => Some (raise ValueError)
       | _ => None
       end).

Definition download_and_encode (f : file_obj) : M env state pystr :=
  emit (GetFile (file_id f));;
  r <- ask get_file;;
  lift r;;
  emit DownloadToMemory;;
  r <- ask download;;
  buf <- lift r;;
  ret (b64encode buf).

Definition _process_image (f : file_obj) : M env state unit :=
  emit (ReplyText MSG_PROCESSING None);;
  try_except
    (image_b64 <- download_and_encode f;;
     result_text <- call_vision_api image_b64;;
     let reply := HEADER ++ format result_text in
     if length reply <=? 4096 then
       emit (EditText reply MARKDOWN)
     else
       emit (EditText MSG_SPLIT MARKDOWN);;
       n <- lift (len result_text);;
       for_each (range n 4000) (fun i =>
         chunk <- lift (getslice result_text i (i + 4000));;
         reply_text chunk))
    (fun e =>
       match e with
       | TimeoutException => Some (emit (EditText MSG_TIMEOUT None))
       | HTTPStatusError status_code _ => Some (emit (EditText (error_msg status_code) None))
       | _ =>
           if is_ValueError e then Some (emit (EditText MSG_PARSE None))
           else if is_Exception e then Some (emit (EditText MSG_UNEXPECTED None))
           else None
       end).

(** [photo = update.message.photo[-1]] *)
Definition handle_photo (photo : list file_obj) : M env state unit :=
  match rev photo with
  | f :: _ => _process_image f
  | [] => raise IndexError
  end.

Definition handle_document (document : file_obj) : M env state unit :=
  let mime := mime_type document in
  if match mime with
     | None => true
     | Some m => negb (truthy (JStr m)) || negb (startswith m (u "image/"))
     end
  then
    emit (ReplyText MSG_NOT_IMAGE None);;
    ret tt
  else
    _process_image document.

Definition WELCOME_TEXT : pystr :=
  u "👋 *Привет!*" ++ LF ++ LF
  ++ u "Я бот для распознавания текста с изображений." ++ LF ++ LF
  ++ u "📸 *Как пользоваться:*" ++ LF
  ++ u "1. Отправь мне фотографию или изображение-документ" ++ LF
  ++ u "2. Подожди несколько секунд" ++ LF
  ++ u "3. Получи распознанный текст в формате Markdown" ++ LF ++ LF
  ++ u "💡 *Совет:* Для лучшего качества отправляй изображение "
  ++ u "как документ (без сжатия)." ++ LF ++ LF
  ++ u "Поддерживаемые форматы: JPEG, PNG, WebP, GIF.".

Definition cmd_start : M env state unit :=
  emit (ReplyText WELCOME_TEXT MARKDOWN).

(** [main], from its first line to the check of the token:
    [TELEGRAM_TOKEN] is the value of the environment variable (empty
    when it is not set) and [creds_exists] is
    [os.path.exists(QWEN_OAUTH_CREDS_PATH)].  When it returns, the
    application is built, the handlers are registered and the polling
    starts. *)
Definition main (TELEGRAM_TOKEN : pystr) (creds_exists : bool) : M env state unit :=
  if negb (truthy (JStr TELEGRAM_TOKEN)) then
    sys_exit 1
  else if negb creds_exists then
    sys_exit 1
  else
    try_except
      (get_qwen_token;;
       ret tt)
      (fun e => if is_Exception e then Some (sys_exit 1) else None).

End Program.

End Bot.

(* ===================================================================== *)
(** * Concrete documents *)
(* ===================================================================== *)

(** The runs below need a [json.loads], a [json.dump] and a [str].
    [json_text] writes a JSON text with apostrophes for its double
    quotes; [loads_table] is [json.loads] on the documents it lists (any
    other text is taken as malformed); [dumps] prints as
    [json.dumps(_, indent=2, ensure_ascii=False)] does, and [dump] writes
    the same text chunk after chunk, as [json.dump] does to a file that
    encodes in UTF-8 (CPython 3.11); [str_of] is [str] on a value that
    is not a [str]. *)
Module Doc.

Definition json_text (s : string) : pystr :=
  map (fun c => if (c =? 39)%N then 34%N else c) (u s).
Arguments json_text s%_string.

Definition loads_table (t : list (pystr * json)) (s : pystr) : option json :=
  lookup s t.

(** [repr(x)] of a [float]: the shortest digits that read back as [x]
    (the nearest to [x] when two do), laid out with an exponent when the
    decimal point would be more than 16 digits to the right or more than
    3 zeros to the left. *)

(** The binary64 nearest to [n / d], for [0 <= n] and [0 < d]. *)
Definition nearest (n d : Z) : float :=
  match n with
  | Z0 => SpecFloat.S754_zero false
  | _ =>
      let '(q, e, l) := SpecFloat.SFdiv_core_binary 53 1024 n 0 d 0 in
      SpecFloat.binary_round_aux 53 1024 false q e l
  end.

Definition float_eqb (x y : float) : bool :=
  match x, y with
  | SpecFloat.S754_zero s, SpecFloat.S754_zero s' => Bool.eqb s s'
  | SpecFloat.S754_infinity s, SpecFloat.S754_infinity s' => Bool.eqb s s'
  | SpecFloat.S754_nan, SpecFloat.S754_nan => true
  | SpecFloat.S754_finite s m e, SpecFloat.S754_finite s' m' e' =>
      Bool.eqb s s' && (m =? m')%positive && (e =? e')%Z
  | _, _ => false
  end.

(** Whether [10 ^ p <= n / d]. *)
Definition pow10_le (p n d : Z) : bool :=
  (if 0 <=? p then 10 ^ p * d <=? n else d <=? n * 10 ^ (- p))%Z.

Fixpoint adjust (fuel : nat) (p n d : Z) : Z :=
  match fuel with
  | O => p
  | S fuel' =>
      if negb (pow10_le p n d) then adjust fuel' (p - 1) n d
      else if pow10_le (p + 1) n d then adjust fuel' (p + 1) n d
      else p
  end.

(** [floor(log10(n / d))] *)
Definition log10_floor (n d : Z) : Z :=
  adjust 8 ((Z.log2 n - Z.log2 d) * 30103 / 100000) n d.

(** The digits [c] and the exponent [q] of the shortest decimal
    [c * 10 ^ q], of [k] digits or more, that reads back as [x = n / d];
    [l] is [floor(log10(x))]. *)
Fixpoint shortest (fuel : nat) (k : Z) (x : float) (n d l : Z) : Z * Z :=
  match fuel with
  | O => (0, 0)%Z
  | S fuel' =>
      let q := (l - (k - 1))%Z in
      let sn := (if 0 <=? q then n else n * 10 ^ (- q))%Z in
      let sd := (if 0 <=? q then d * 10 ^ q else d)%Z in
      let lo := (sn / sd)%Z in
      let hi := (lo + 1)%Z in
      let reads_back c :=
        float_eqb (nearest (if 0 <=? q then c * 10 ^ q else c)
                           (if 0 <=? q then 1 else 10 ^ (- q)))%Z x in
      let lower :=
        ((2 * sn <? (2 * lo + 1) * sd)
         || ((2 * sn =? (2 * lo + 1) * sd) && Z.even lo))%Z in
      match reads_back lo, reads_back hi with
      | true, true => if lower then (lo, q) else (hi, q)
      | true, false => (lo, q)
      | false, true => (hi, q)
      | false, false => shortest fuel' (k + 1)%Z x n d l
      end
  end.

Fixpoint strip_zeros (fuel : nat) (c q : Z) : Z * Z :=
  match fuel with
  | O => (c, q)
  | S fuel' =>
      if ((c mod 10 =? 0) && negb (c =? 0))%Z then strip_zeros fuel' (c / 10)%Z (q + 1)%Z
      else (c, q)
  end.

Definition repr_positive (m : positive) (e : Z) : pystr :=
  let n := (if 0 <=? e then Z.pos m * 2 ^ e else Z.pos m)%Z in
  let d := (if 0 <=? e then 1 else 2 ^ (- e))%Z in
  let '(c0, q0) := shortest 17 1 (SpecFloat.S754_finite false m e) n d (log10_floor n d) in
  let '(c, q) := strip_zeros 400 c0 q0 in
  let ds := str_of_int c in
  let nd := Z.of_nat (length ds) in
  let decpt := (nd + q)%Z in
  if ((decpt <=? -4) || (16 <? decpt))%Z then
    firstn 1 ds
    ++ match skipn 1 ds with [] => [] | r => 46%N :: r end
    ++ [101%N; if (decpt - 1 <? 0)%Z then 45%N else 43%N]
    ++ (if (Z.abs (decpt - 1) <? 10)%Z then [48%N] else [])
    ++ str_of_int (Z.abs (decpt - 1))
  else if (decpt <=? 0)%Z then
    [48%N; 46%N] ++ repeat 48%N (Z.to_nat (- decpt)) ++ ds
  else if (nd <=? decpt)%Z then
    ds ++ repeat 48%N (Z.to_nat (decpt - nd)) ++ [46%N; 48%N]
  else
    firstn (Z.to_nat decpt) ds ++ [46%N] ++ skipn (Z.to_nat decpt) ds.

Definition float_repr (x : float) : pystr :=
  match x with
  | SpecFloat.S754_nan => u "nan"
  | SpecFloat.S754_infinity s => (if s then [45%N] else []) ++ u "inf"
  | SpecFloat.S754_zero s => (if s then [45%N] else []) ++ u "0.0"
  | SpecFloat.S754_finite s m e => (if s then [45%N] else []) ++ repr_positive m e
  end.

(** The [float] of a JSON document: [NaN], [Infinity] and [-Infinity],
    and [repr] for the others. *)
Definition floatstr (x : float) : pystr :=
  match x with
  | SpecFloat.S754_nan => u "NaN"
  | SpecFloat.S754_infinity s => (if s then [45%N] else []) ++ u "Infinity"
  | _ => float_repr x
  end.

Definition hexdigit (n : N) : N := (if n <? 10 then 48 + n else 87 + n)%N.

Definition escape_char (c : N) : pystr :=
  (if c =? 34 then [92; 34]
   else if c =? 92 then [92; 92]
   else if c =? 10 then [92; 110]
   else if c =? 13 then [92; 114]
   else if c =? 9 then [92; 116]
   else if c =? 8 then [92; 98]
   else if c =? 12 then [92; 102]
   else if c <? 32 then [92; 117; 48; 48; hexdigit (c / 16); hexdigit (c mod 16)]
   else [c])%N.

Definition quote (s : pystr) : pystr := [34%N] ++ flat_map escape_char s ++ [34%N].

Definition indent (level : nat) : pystr := concat (repeat (u "  ") level).

Fixpoint join (sep : pystr) (items : list pystr) : pystr :=
  match items with
  | [] => []
  | [x] => x
  | x :: rest => x ++ sep ++ join sep rest
  end.

Fixpoint dumps_at (level : nat) (v : json) : pystr :=
  match v with
  | JNull => u "null"
  | JBool b => if b then u "true" else u "false"
  | JInt z => str_of_int z
  | JFloat x => floatstr x
  | JStr s => quote s
  | JList [] => u "[]"
  | JList l =>
      u "[" ++ [10%N]
      ++ join (u "," ++ [10%N])
           (map (fun x => indent (S level) ++ dumps_at (S level) x) l)
      ++ [10%N] ++ indent level ++ u "]"
  | JDict [] => u "{}"
  | JDict d =>
      u "{" ++ [10%N]
      ++ join (u "," ++ [10%N])
           (map (fun kv => let '(k, x) := kv in
                           indent (S level) ++ quote k ++ u ": " ++ dumps_at (S level) x) d)
      ++ [10%N] ++ indent level ++ u "}"
  end.

Definition dumps (v : json) : pystr := dumps_at 0 v.

(** What interrupts [json.dump]: a chunk with a lone surrogate, which
    the file cannot encode ([UnicodeEncodeError]), and an [int] of more
    than 4300 digits, which [int.__repr__] refuses ([ValueError]). *)
Inductive failure :=
| LoneSurrogate
| TooManyDigits.

Definition exn_of (x : failure) : exn :=
  match x with
  | LoneSurrogate => UnicodeEncodeError
  | TooManyDigits => ValueError
  end.

(** The text that has reached the file, and what stopped the dump. *)
Definition writer : Type := pystr * option failure.

(** [fp.write(chunk)] *)
Definition write (chunk : pystr) (w : writer) : writer :=
  match snd w with
  | Some _ => w
  | None => if encodable chunk then (fst w ++ chunk, None) else (fst w, Some LoneSurrogate)
  end.

Definition stop (x : failure) (w : writer) : writer :=
  match snd w with
  | Some _ => w
  | None => (fst w, Some x)
  end.

(** The chunk of a value that is neither a list nor an object, after
    [prefix]. *)
Definition write_scalar (prefix : pystr) (v : json) (w : writer) : option writer :=
  match v with
  | JNull => Some (write (prefix ++ u "null") w)
  | JBool b => Some (write (prefix ++ if b then u "true" else u "false") w)
  | JInt z =>
      Some (if (10 ^ 4300 <=? Z.abs z)%Z then stop TooManyDigits w
            else write (prefix ++ str_of_int z) w)
  | JFloat x => Some (write (prefix ++ floatstr x) w)
  | JStr s => Some (write (prefix ++ quote s) w)
  | JList _ | JDict _ => None
  end.

(** The chunks of [_iterencode_list] and [_iterencode_dict]: an element
    of a list comes in one chunk with what precedes it, a key and a
    value of an object each in a chunk of their own. *)
Fixpoint dump_at (level : nat) (v : json) (w : writer) : writer :=
  match v with
  | JList [] => write (u "[]") w
  | JList l =>
      let newline_indent := [10%N] ++ indent (S level) in
      let element (acc : pystr * writer) (x : json) : pystr * writer :=
        (u "," ++ newline_indent,
         match write_scalar (fst acc) x (snd acc) with
         | Some w' => w'
         | None => dump_at (S level) x (write (fst acc) (snd acc))
         end) in
      write (u "]")
        (write ([10%N] ++ indent level)
           (snd (fold_left element l (u "[" ++ newline_indent, w))))
  | JDict [] => write (u "{}") w
  | JDict d =>
      let newline_indent := [10%N] ++ indent (S level) in
      let item (acc : bool * writer) (kv : pystr * json) : bool * writer :=
        let w1 := if fst acc then snd acc else write (u "," ++ newline_indent) (snd acc) in
        let w2 := write (u ": ") (write (quote (fst kv)) w1) in
        (false,
         match write_scalar [] (snd kv) w2 with
         | Some w' => w'
         | None => dump_at (S level) (snd kv) w2
         end) in
      write (u "}")
        (write ([10%N] ++ indent level)
           (snd (fold_left item d (true, write newline_indent (write (u "{") w)))))
  | _ =>
      match write_scalar [] v w with
      | Some w' => w'
      | None => w
      end
  end.

Definition dump (v : json) : pystr * option exn :=
  let w := dump_at 0 v ([], None) in
  (fst w, option_map exn_of (snd w)).

(** [repr(s)] of a [str] of printable ASCII characters. *)
Definition repr_str (s : pystr) : pystr :=
  let q := (if existsb (N.eqb 39) s && negb (existsb (N.eqb 34) s) then 34 else 39)%N in
  [q] ++ flat_map (fun c => if (c =? 92)%N || (c =? q)%N then [92%N; c] else [c]) s ++ [q].

Fixpoint join_repr (items : list pystr) : pystr :=
  match items with
  | [] => []
  | [x] => x
  | x :: rest => x ++ u ", " ++ join_repr rest
  end.

(** [repr(v)]; the strings in [v] are of printable ASCII characters. *)
Fixpoint repr (v : json) : pystr :=
  match v with
  | JNull => u "None"
  | JBool b => if b then u "True" else u "False"
  | JInt z => str_of_int z
  | JFloat x => float_repr x
  | JStr s => repr_str s
  | JList l => u "[" ++ join_repr (map repr l) ++ u "]"
  | JDict d =>
      u "{"
      ++ join_repr (map (fun kv => let '(k, x) := kv in repr_str k ++ u ": " ++ repr x) d)
      ++ u "}"
  end.

Definition str_of (v : json) : pystr := repr v.

(** *** Documents of the relay *)

Definition creds_doc : pystr := json_text "{'access_token': 'tok'}".

Definition creds_val : json := JDict [(u "access_token", JStr (u "tok"))].

Definition no_token_doc : pystr := json_text "{'access_token': ''}".

Definition no_token_val : json := JDict [(u "access_token", JStr [])].

Definition answer_doc : pystr :=
  json_text "{'choices': [{'message': {'content': 'Hello'}}]}".

Definition answer_val : json :=
  JDict [(u "choices",
          JList [JDict [(u "message", JDict [(u "content", JStr (u "Hello"))])]])].

Definition relay_loads : pystr -> option json :=
  loads_table [(creds_doc, creds_val); (no_token_doc, no_token_val);
               (answer_doc, answer_val); (u "[]", JList [])].

Definition png : Bot.file_obj :=
  {| Bot.file_id := u "BQACAgIAAxkBAAIB"; Bot.mime_type := Some (u "image/png") |}.

Definition pdf : Bot.file_obj :=
  {| Bot.file_id := u "BQACAgIAAxkBAAIC"; Bot.mime_type := Some (u "application/pdf") |}.

(** The file is the three bytes of "Man"; the endpoint answers
    [status_code] with the body [body]. *)
Definition relay (store : pystr) (status_code : Z) (body : pystr) : Bot.env :=
  {| Bot.get_file := Ok tt;
     Bot.download := Ok [77; 97; 110]%N;
     Bot.creds_text := Ok store;
     Bot.post := Ok (status_code, body) |}.

(** *** Documents of the refresher *)

Definition stale_doc : pystr :=
  json_text "{'access_token': 'old', 'refresh_token': 'r1', 'expiry_date': 1000, 'scope': 'openid'}".

Definition stale_val : json :=
  JDict [(u "access_token", JStr (u "old")); (u "refresh_token", JStr (u "r1"));
         (u "expiry_date", JInt 1000); (u "scope", JStr (u "openid"))].

Definition fresh_doc : pystr :=
  json_text "{'access_token': 'old', 'refresh_token': 'r1', 'expiry_date': 1700010000000}".

Definition fresh_val : json :=
  JDict [(u "access_token", JStr (u "old")); (u "refresh_token", JStr (u "r1"));
         (u "expiry_date", JInt 1700010000000)].

Definition no_refresh_token_doc : pystr :=
  json_text "{'access_token': 'old', 'expiry_date': 1000}".

Definition no_refresh_token_val : json :=
  JDict [(u "access_token", JStr (u "old")); (u "expiry_date", JInt 1000)].

Definition no_expiry_doc : pystr :=
  json_text "{'access_token': 'old', 'refresh_token': 'r1'}".

Definition no_expiry_val : json :=
  JDict [(u "access_token", JStr (u "old")); (u "refresh_token", JStr (u "r1"))].

(** An expiry date of 401 digits: [10 ** 400]. *)
Definition far_doc : pystr :=
  json_text "{'refresh_token': 'r1', 'expiry_date': 1" ++ repeat 48%N 400 ++ u "}".

Definition far_val : json :=
  JDict [(u "refresh_token", JStr (u "r1")); (u "expiry_date", JInt (10 ^ 400))].

Definition success_doc : pystr :=
  json_text "{'status': 'success', 'access_token': 'new', 'refresh_token': 'r2', 'expires_in': 21600, 'scope': 'openid'}".

Definition success_val : json :=
  JDict [(u "status", JStr (u "success")); (u "access_token", JStr (u "new"));
         (u "refresh_token", JStr (u "r2")); (u "expires_in", JInt 21600);
         (u "scope", JStr (u "openid"))].

Definition error_doc : pystr := json_text "{'status': 'error'}".

Definition error_val : json := JDict [(u "status", JStr (u "error"))].

(** A credential with neither [expiry_date] nor [refresh_token]. *)
Definition bare_doc : pystr := json_text "{'access_token': 'old'}".

Definition bare_val : json := JDict [(u "access_token", JStr (u "old"))].

(** A refresh token that is one lone surrogate, U+D800. *)
Definition surrogate_token_doc : pystr :=
  json_text "{'refresh_token': '\ud800', 'expiry_date': 1000}".

Definition surrogate_token_val : json :=
  JDict [(u "refresh_token", JStr [55296%N]); (u "expiry_date", JInt 1000)].

(** An expiry date that is a [float]: [2.0 ** 60]. *)
Definition float_expiry_doc : pystr :=
  json_text "{'refresh_token': 'r1', 'expiry_date': 1152921504606846976.0}".

Definition float_expiry_val : json :=
  JDict [(u "refresh_token", JStr (u "r1"));
         (u "expiry_date", JFloat (SpecFloat.S754_finite false 4503599627370496 8))].

(** An accepted answer without [refresh_token] and [expires_in]. *)
Definition incomplete_doc : pystr := json_text "{'status': 'success', 'access_token': 'new'}".

Definition incomplete_val : json :=
  JDict [(u "status", JStr (u "success")); (u "access_token", JStr (u "new"))].

(** An accepted answer whose [access_token] is one lone surrogate. *)
Definition surrogate_answer_doc : pystr :=
  json_text "{'status': 'success', 'access_token': '\ud800', 'refresh_token': 'r2', 'expires_in': 21600}".

Definition surrogate_answer_val : json :=
  JDict [(u "status", JStr (u "success")); (u "access_token", JStr [55296%N]);
         (u "refresh_token", JStr (u "r2")); (u "expires_in", JInt 21600)].

(** An accepted answer whose [expires_in] is a [float], 21600.5. *)
Definition float_answer_doc : pystr :=
  json_text "{'status': 'success', 'access_token': 'new', 'refresh_token': 'r2', 'expires_in': 21600.5}".

Definition float_answer_val : json :=
  JDict [(u "status", JStr (u "success")); (u "access_token", JStr (u "new"));
         (u "refresh_token", JStr (u "r2"));
         (u "expires_in", JFloat (SpecFloat.S754_finite false 5937500228943872 (-38)))].

Definition loads : pystr -> option json :=
  loads_table [(stale_doc, stale_val); (fresh_doc, fresh_val);
               (no_refresh_token_doc, no_refresh_token_val);
               (no_expiry_doc, no_expiry_val); (far_doc, far_val);
               (success_doc, success_val); (error_doc, error_val);
               (bare_doc, bare_val); (surrogate_token_doc, surrogate_token_val);
               (float_expiry_doc, float_expiry_val); (incomplete_doc, incomplete_val);
               (surrogate_answer_doc, surrogate_answer_val);
               (float_answer_doc, float_answer_val)].

(** The clock reads [now_ms], then one more at each reading; the
    endpoint gives [answer]. *)
Definition refresher_at (now_ms : Z) (answer : RefreshQwenToken.urlopen_result)
  : RefreshQwenToken.env :=
  {| RefreshQwenToken.clock := fun n => (now_ms + Z.of_nat n)%Z;
     RefreshQwenToken.endpoint := answer |}.

(** The clock starts at 1700000000000 ms. *)
Definition refresher (answer : RefreshQwenToken.urlopen_result) : RefreshQwenToken.env :=
  refresher_at 1700000000000 answer.

(** The store with the text [t], readable by all (0o644). *)
Definition stored (t : pystr) : option RefreshQwenToken.file :=
  Some {| RefreshQwenToken.text := t; RefreshQwenToken.mode := 420 |}.

(** *** The store after a refresh *)

Definition success_fields : list (pystr * json) :=
  [(u "status", JStr (u "success")); (u "access_token", JStr (u "new"));
   (u "refresh_token", JStr (u "r2")); (u "expires_in", JInt 21600);
   (u "scope", JStr (u "openid"))].

(** The credential saved for [success_doc] when the clock reads
    [now_ms]. *)
Definition refreshed_val (now_ms : Z) : json :=
  JDict [(u "access_token", JStr (u "new"));
         (u "token_type", JStr (u "Bearer"));
         (u "refresh_token", JStr (u "r2"));
         (u "resource_url", JStr (u "portal.qwen.ai"));
         (u "expiry_date", JInt (now_ms + 21600 * 1000))].

(** [json.loads] on the documents above and on the dumps of the
    refreshed credential. *)
Definition loads_back : pystr -> option json :=
  loads_table [(stale_doc, stale_val); (success_doc, success_val);
               (dumps (refreshed_val 1700000000000), refreshed_val 1700000000000);
               (dumps (refreshed_val 1700000000001), refreshed_val 1700000000001);
               (creds_doc, creds_val)].

(** One hour later. *)
Definition an_hour_later : RefreshQwenToken.env :=
  refresher_at 1700003600000 (RefreshQwenToken.UrlRaises (URLError [])).

End Doc.

(* ===================================================================== *)
(** * The programs as functions of their inputs *)
(* ===================================================================== *)

(** What the helpers of the two programs answer, written as functions
    of the environment; the lemmas below show that the programs compute
    exactly these. *)

Section RelayAnswers.

Import Bot.

Variable json_loads : pystr -> option json.
Variable str_of : json -> pystr.

(** The body of the [try] of [_process_image] up to the API's answer. *)
Definition recognise (f : file_obj) : M env state json :=
  image_b64 <- download_and_encode f;; call_vision_api json_loads image_b64.

Definition read_token (e : env) : result json :=
  match creds_text e with
  | Raise x => Raise x
  | Ok text =>
      match json_loads text with
      | None => Raise (JSONDecodeError text)
      | Some creds =>
          match get creds (u "access_token") (JStr []) with
          | Raise x => Raise x
          | Ok token => if truthy token then Ok token else Raise ValueError
          end
      end
  end.

Definition content_of (data : json) : result json :=
  match getitem data (u "choices") with
  | Raise x => Raise x
  | Ok choices =>
      match getitem0 choices with
      | Raise x => Raise x
      | Ok choice =>
          match getitem choice (u "message") with
          | Raise x => Raise x
          | Ok message => getitem message (u "content")
          end
      end
  end.

Definition read_content (e : env) : result json :=
  match post e with
  | Raise x => Raise x
  | Ok (status_code, text) =>
      if (200 <=? status_code)%Z && (status_code <=? 299)%Z then
        match json_loads text with
        | None => Raise (JSONDecodeError text)
        | Some data =>
            match content_of data with
            | Raise KeyError | Raise IndexError => Raise ValueError
            | r => r
            end
        end
      else Raise (HTTPStatusError status_code text)
  end.

(** The message of the [except] clause of [_process_image] that
    catches [x]. *)
Definition message_for (x : exn) : pystr :=
  match x with
  | TimeoutException => MSG_TIMEOUT
  | HTTPStatusError status_code _ => error_msg status_code
  | _ => if is_ValueError x then MSG_PARSE else MSG_UNEXPECTED
  end.

(** What an outside call gives is a value or an [Exception] (not a
    [SystemExit]). *)
Definition ordinary (A : Type) (r : result A) : bool :=
  match r with
  | Ok _ => true
  | Raise x => is_Exception x
  end.

(** What [_process_image] does with the content [v] of the API's
    answer, lines 268-281 and the [except] clause that ends them.  A
    content that is no [str] is formatted all the same; when the reply is
    too long, [len] raises a [TypeError] unless the content is a list or
    an object, and so does the slice of an object. *)
Definition replies (v : json) : list action :=
  let reply := HEADER ++ format str_of v in
  if length reply <=? 4096 then [EditText reply MARKDOWN]
  else
    EditText MSG_SPLIT MARKDOWN
      :: match v with
         | JStr s =>
             map (fun i => ReplyText (slice s i (i + 4000)) None) (range (length s) 4000)
         | JList l =>
             map (fun i => ReplyValue (JList (slice l i (i + 4000))))
               (range (length l) 4000)
         | JDict [] => []
         | _ => [EditText MSG_UNEXPECTED None]
         end.

(** The calls of the chat transport. *)
Definition is_message (a : action) : bool :=
  match a with
  | ReplyText _ _ | ReplyValue _ | EditText _ _ => true
  | _ => false
  end.

End RelayAnswers.

Section RefresherAnswers.

Import RefreshQwenToken.

Variable json_loads : pystr -> option json.
Variable json_dump : json -> pystr * option exn.

(** The state after printing [logs] and doing [evs]. *)
Definition adds (s : state) (logs : list log_msg) (evs : list event)
  : state :=
  {| creds_file := creds_file s; ticks := ticks s;
     stdout := stdout s ++ logs; trace := trace s ++ evs |}.

(** [json.dump] raises nothing but [Exception]s (no [SystemExit]). *)
Definition dump_raises_exceptions : Prop :=
  forall v x, snd (json_dump v) = Some x -> is_Exception x = true.

(** [(expiry_date - now_ms) / 1000] of line 65 for a [float]
    [expiry_date]. *)
Definition remaining_sec_of (expiry_date : float) (now_ms : Z) : Py.result float :=
  match float_of_int now_ms with
  | Raise x => Raise x
  | Ok now =>
      match float_of_int 1000 with
      | Raise x => Raise x
      | Ok thousand => Ok (float_div (float_sub expiry_date now) thousand)
      end
  end.

(** What [token_needs_refresh] returns and prints when the clock reads
    [now_ms], and whether it read the clock. *)
Definition needs_refresh (creds : json) (now_ms : Z) : result bool * list log_msg * bool :=
  match get creds (u "expiry_date") JNull with
  | Raise x => (Raise x, [], false)
  | Ok expiry_date =>
      if negb (truthy expiry_date) then (Ok true, [LogNoExpiry], false)
      else
        match sub_int expiry_date now_ms with
        | Raise x => (Raise x, [], true)
        | Ok d =>
            match number_truediv d 1000 with
            | Raise x => (Raise x, [], true)
            | Ok remaining_sec =>
                if quotient_le_int remaining_sec REFRESH_THRESHOLD_SEC
                then (Ok true, [LogExpiresSoon remaining_sec], true)
                else (Ok false, [LogStillValid remaining_sec], true)
            end
        end
  end.

(** What [refresh_token] returns, prints and does after the request,
    by the answer of the endpoint. *)
Definition validate (r : urlopen_result) : result json * list log_msg * list event :=
  match r with
  | UrlRaises (HTTPError code error_body) =>
      (Raise (SystemExit 1),
       LogHTTP code error_body
         :: (if (code =? 400)%Z || (code =? 401)%Z then [LogReauthorize] else []),
       [])
  | UrlRaises (URLError reason) => (Raise (SystemExit 1), [LogNetwork reason], [])
  | UrlRaises (JSONDecodeError raw) =>
      (Raise (SystemExit 1), [LogJSON; LogJSONExcerpt (slice raw 0 300)], [])
  | UrlRaises x => (Raise x, [], [])
  | UrlResponse None _ => (Raise UnicodeDecodeError, [], [])
  | UrlResponse (Some raw) content_type =>
      let content_type := match content_type with Some c => c | None => [] end in
      if contains (u "text/html") content_type then
        (Raise (SystemExit 1), [LogHtml; LogHtmlDetail content_type (length raw)], [])
      else if negb (truthy (JStr (strip raw))) then
        (Raise (SystemExit 1), [LogEmpty; LogEmptyHint], [])
      else
        match json_loads raw with
        | None =>
            (Raise (SystemExit 1), [LogJSON; LogJSONExcerpt (slice raw 0 300)],
             [JsonLoads raw])
        | Some body =>
            match get body (u "status") JNull with
            | Raise x => (Raise x, [], [JsonLoads raw])
            | Ok status =>
                if ne_str status (u "success")
                then (Raise (SystemExit 1), [LogUnexpected body], [JsonLoads raw])
                else (Ok body, [], [JsonLoads raw])
            end
        end
  end.

Inductive gate_result :=
| Fresh
| Stale (rt : json)
| Stop (x : exn).

(** [main] up to the request, the encoding of its form included: what
    it decides and prints, and how many times it read the clock. *)
Definition gate (f : option file) (now_ms : Z) : gate_result * list log_msg * nat :=
  match f with
  | None => (Stop (SystemExit 1), [LogCheck; LogFileNotFound], 0%nat)
  | Some file =>
      match json_loads (text file) with
      | None => (Stop (JSONDecodeError (text file)), [LogCheck], 0%nat)
      | Some creds =>
          let '(r, logs, read) := needs_refresh creds now_ms in
          let n := if read then 1%nat else 0%nat in
          match r with
          | Raise x => (Stop x, LogCheck :: logs, n)
          | Ok false => (Fresh, LogCheck :: logs, n)
          | Ok true =>
              match get creds (u "refresh_token") JNull with
              | Raise x => (Stop x, LogCheck :: logs, n)
              | Ok rt =>
                  if negb (truthy rt)
                  then (Stop (SystemExit 1), LogCheck :: logs ++ [LogNoRefreshToken], n)
                  else
                    match urlencode rt with
                    | Raise x => (Stop x, LogCheck :: logs ++ [LogSending], n)
                    | Ok _ => (Stale rt, LogCheck :: logs ++ [LogSending], n)
                    end
              end
          end
      end
  end.

(** [int(time.time() * 1000) + result["expires_in"] * 1000] of line
    163, when the clock reads [now_ms]. *)
Definition expiry_of (now_ms : Z) (expires_in : json) : Py.result json :=
  match mul_int expires_in 1000 with
  | Raise x => Raise x
  | Ok ms => int_add now_ms ms
  end.

(** The [new_creds] of lines 157-164 for the accepted answer [d]. *)
Definition credential (d : list (pystr * json))
    (access_token refresh_token' expiry_date : json) : json :=
  JDict [(u "access_token", access_token);
         (u "token_type",
          match lookup (u "token_type") d with Some x => x | None => JStr (u "Bearer") end);
         (u "refresh_token", refresh_token');
         (u "resource_url",
          match lookup (u "resource_url") d with
          | Some x => x
          | None => JStr (u "portal.qwen.ai")
          end);
         (u "expiry_date", expiry_date)].

(** The [new_creds] of [main], built from the validated answer when
    the clock reads [now_ms]. *)
Definition build (result : json) (now_ms : Z) : Py.result json :=
  match getitem result (u "access_token") with
  | Raise x => Raise x
  | Ok access_token =>
  match get result (u "token_type") (JStr (u "Bearer")) with
  | Raise x => Raise x
  | Ok token_type =>
  match getitem result (u "refresh_token") with
  | Raise x => Raise x
  | Ok refresh_token' =>
  match get result (u "resource_url") (JStr (u "portal.qwen.ai")) with
  | Raise x => Raise x
  | Ok resource_url =>
  match getitem result (u "expires_in") with
  | Raise x => Raise x
  | Ok expires_in =>
  match expiry_of now_ms expires_in with
  | Raise x => Raise x
  | Ok expiry_date =>
      Ok (JDict [(u "access_token", access_token);
                 (u "token_type", token_type);
                 (u "refresh_token", refresh_token');
                 (u "resource_url", resource_url);
                 (u "expiry_date", expiry_date)])
  end end end end end end.

(** The hours of the last line [main] prints. *)
Definition hours_of (result : json) : Py.result quotient :=
  match getitem result (u "expires_in") with
  | Raise x => Raise x
  | Ok expires_in => json_truediv expires_in 3600
  end.

Definition finish (f : option file) (logs : list log_msg) (evs : list event)
    (result : json) (now_ms : Z) : outcome :=
  match build result now_ms with
  | Raise x =>
      {| status := exit_status (Raise x); store := f; printed := logs; events := evs |}
  | Ok new_creds =>
      match snd (json_dump new_creds) with
      | Some x =>
          {| status := exit_status (Raise x);
             store := Some {| text := fst (json_dump new_creds);
                              mode := match f with Some old => mode old | None => 420 end |};
             printed := logs;
             events := evs ++ [FileWrite (fst (json_dump new_creds))] |}
      | None =>
          let written := Some {| text := fst (json_dump new_creds); mode := 384 |} in
          let evs' := evs ++ [FileWrite (fst (json_dump new_creds)); Chmod 384] in
          match hours_of result with
          | Raise x =>
              {| status := exit_status (Raise x); store := written;
                 printed := logs ++ [LogFileUpdated]; events := evs' |}
          | Ok hours =>
              {| status := 0; store := written;
                 printed := logs ++ [LogFileUpdated; LogRefreshed hours]; events := evs' |}
          end
      end
  end.

Definition perform (e : env) (f : option file) : outcome :=
  match gate f (clock e 0) with
  | (Fresh, logs, _) => {| status := 0; store := f; printed := logs; events := [] |}
  | (Stop x, logs, _) =>
      {| status := exit_status (Raise x); store := f; printed := logs; events := [] |}
  | (Stale rt, logs, n) =>
      let '(r, logs', evs) := validate (endpoint e) in
      match r with
      | Raise x =>
          {| status := exit_status (Raise x); store := f;
             printed := logs ++ logs'; events := Urlopen rt :: evs |}
      | Ok result => finish f (logs ++ logs') (Urlopen rt :: evs) result (clock e n)
      end
  end.

(** The run stops at the freshness check: nothing is sent, nothing is
    written, and the exit status is 0. *)
Definition stays_fresh (out : outcome) (file : file) : Prop :=
  status out = 0%Z /\ store out = Some file /\ events out = [].

(** The run goes on to the refresh exchange of lines 147-154, for the
    credential [d] of the store [file]: the request leaves with a
    [refresh_token] that is truthy and that [urlencode] accepts; with an
    absent or falsy one, and with one that [urlencode] refuses, the run
    ends with status 1 before any request. *)
Definition goes_on_to_refresh (out : outcome) (file : file) (d : list (pystr * json))
  : Prop :=
  (forall rt,
     lookup (u "refresh_token") d = Some rt -> truthy rt = true -> urlencode rt = Ok tt ->
     exists evs, events out = Urlopen rt :: evs)
  /\ (match lookup (u "refresh_token") d with Some rt => truthy rt | None => false end
      = false ->
      status out = 1%Z /\ store out = Some file /\ events out = [])
  /\ (forall rt x,
        lookup (u "refresh_token") d = Some rt -> truthy rt = true ->
        urlencode rt = Raise x ->
        status out = 1%Z /\ store out = Some file /\ events out = []).

(** The answers of the endpoint that the refresher must refuse: an
    HTTP error status, an HTML content type, an empty (blank) body, a
    body that is not JSON, a JSON object whose status is not "success". *)
Inductive failing_response : urlopen_result -> Prop :=
| FailStatus code error_body :
    failing_response (UrlRaises (HTTPError code error_body))
| FailHtml raw content_type :
    contains (u "text/html") content_type = true ->
    failing_response (UrlResponse (Some raw) (Some content_type))
| FailEmpty raw content_type :
    strip raw = [] ->
    failing_response (UrlResponse (Some raw) content_type)
| FailMalformed raw content_type :
    json_loads raw = None ->
    failing_response (UrlResponse (Some raw) content_type)
| FailNotSuccess raw content_type d :
    json_loads raw = Some (JDict d) ->
    lookup (u "status") d <> Some (JStr (u "success")) ->
    failing_response (UrlResponse (Some raw) content_type).

(** How a run of the refresher ends: before the request, on a refused
    answer, on an answer it cannot turn into a credential, on a dump
    that is interrupted, or with the store rewritten. *)
Inductive ran (e : env) (f : option file) (out : outcome) : Prop :=
| RanNoRequest :
    events out = [] -> store out = f -> ran e f out
| RanRefused rt x logs evs :
    validate (endpoint e) = (Raise x, logs, evs) ->
    events out = Urlopen rt :: evs -> store out = f ->
    status out = exit_status (Raise x) ->
    (exists before, printed out = before ++ logs) ->
    ran e f out
| RanUnusable rt result logs evs n x :
    validate (endpoint e) = (Ok result, logs, evs) ->
    build result (clock e n) = Raise x ->
    events out = Urlopen rt :: evs -> store out = f ->
    status out = exit_status (Raise x) ->
    ran e f out
| RanTruncated rt result logs evs n new_creds x :
    validate (endpoint e) = (Ok result, logs, evs) ->
    (n = 0 \/ n = 1)%nat ->
    build result (clock e n) = Ok new_creds ->
    snd (json_dump new_creds) = Some x ->
    events out = Urlopen rt :: evs ++ [FileWrite (fst (json_dump new_creds))] ->
    store out = Some {| text := fst (json_dump new_creds);
                        mode := match f with Some old => mode old | None => 420 end |} ->
    status out = exit_status (Raise x) ->
    ran e f out
| RanSaved rt result logs evs n new_creds :
    validate (endpoint e) = (Ok result, logs, evs) ->
    (n = 0 \/ n = 1)%nat ->
    build result (clock e n) = Ok new_creds ->
    snd (json_dump new_creds) = None ->
    events out = Urlopen rt :: evs ++ [FileWrite (fst (json_dump new_creds)); Chmod 384] ->
    store out = Some {| text := fst (json_dump new_creds); mode := 384 |} ->
    ran e f out.

End RefresherAnswers.

(* ===================================================================== *)
(** * Properties *)
(* ===================================================================== *)

Arguments u : simpl never.
Arguments contains : simpl never.
Arguments startswith : simpl never.
Arguments strip : simpl never.
Arguments lookup : simpl never.
Arguments truediv : simpl never.
Arguments float_of_int : simpl never.
Arguments float_add : simpl never.
Arguments float_sub : simpl never.
Arguments float_mul : simpl never.
Arguments float_div : simpl never.
Arguments float_le_int : simpl never.
Arguments encodable : simpl never.
Arguments slice : simpl never.
Arguments range : simpl never.
Arguments str_of_int : simpl never.
Arguments b64encode : simpl never.

(** Normalises the states of the refresher after a step. *)
Ltac simpl_state :=
  cbv beta iota;
  repeat (progress (cbn [RefreshQwenToken.creds_file RefreshQwenToken.ticks
                         RefreshQwenToken.stdout RefreshQwenToken.trace app];
                    rewrite ?app_nil_r, <- ?app_assoc)).

(** ** Slices of a text *)

Section Slices.

Variable A : Type.
Variable step : nat.
Hypothesis step_pos : (0 < step)%nat.

Lemma slice_step (s : list A) (i : nat) :
  slice s i (i + step) = firstn step (skipn i s).
Proof. unfold slice. f_equal. lia. Qed.

Lemma concat_range_from (s : list A) :
  forall fuel i, (length s - i <= fuel)%nat ->
    concat (map (fun k => slice s k (k + step)) (range_from fuel i (length s) step))
    = skipn i s.
Proof.
  induction fuel as [|fuel IH]; intros i Hfuel; cbn [range_from].
  - cbn. symmetry. apply skipn_all2. lia.
  - destruct (Nat.ltb_spec i (length s)) as [Hlt|Hge].
    + cbn [map concat]. rewrite IH by lia.
      rewrite slice_step, (Nat.add_comm i step), <- skipn_skipn.
      apply firstn_skipn.
    + cbn. symmetry. apply skipn_all2. lia.
Qed.

Lemma concat_chunks (s : list A) :
  concat (map (fun i => slice s i (i + step)) (range (length s) step)) = s.
Proof.
  unfold range. rewrite concat_range_from by lia. reflexivity.
Qed.

Lemma range_from_bounds (n : nat) :
  forall fuel i, Forall (fun k => (k < n)%nat) (range_from fuel i n step).
Proof.
  induction fuel as [|fuel IH]; intros i; cbn [range_from]; [constructor|].
  destruct (Nat.ltb_spec i n); constructor; auto.
Qed.

Lemma chunks_length (s : list A) :
  Forall (fun c => (1 <= length c <= step)%nat)
    (map (fun i => slice s i (i + step)) (range (length s) step)).
Proof.
  unfold range. apply Forall_map.
  eapply Forall_impl; [|apply range_from_bounds].
  cbn beta. intros k Hk. rewrite slice_step, length_firstn, length_skipn. lia.
Qed.

End Slices.


Import Bot.

Section RelayHandlers.

Variable json_loads : pystr -> option json.
Variable str_of : json -> pystr.

Lemma for_each_emit (B : Type) (body : B -> M env state unit) (g : B -> action)
    (l : list B) (e : env) :
  (forall x t, body x e t = (Ok tt, t ++ [g x])) ->
  forall t, for_each l body e t = (Ok tt, t ++ map g l).
Proof.
  intros Hbody. induction l as [|x l IH]; intros t; cbn [for_each map].
  - unfold ret. now rewrite app_nil_r.
  - unfold bind. rewrite Hbody, IH, <- app_assoc. reflexivity.
Qed.

Lemma process_image_cases (f : file_obj) (e : env) (t0 : state) :
  _process_image json_loads str_of f e t0 =
  match recognise json_loads f e (t0 ++ [ReplyText MSG_PROCESSING None]) with
  | (Ok v, t) => (Ok tt, t ++ replies str_of v)
  | (Raise TimeoutException, t) => (Ok tt, t ++ [EditText MSG_TIMEOUT None])
  | (Raise (HTTPStatusError status_code _), t) =>
      (Ok tt, t ++ [EditText (error_msg status_code) None])
  | (Raise x, t) =>
      if is_ValueError x then (Ok tt, t ++ [EditText MSG_PARSE None])
      else if is_Exception x then (Ok tt, t ++ [EditText MSG_UNEXPECTED None])
      else (Raise x, t)
  end.
Proof.
  unfold _process_image, recognise, try_except, bind.
  change (emit (ReplyText MSG_PROCESSING None) e t0)
    with (Ok tt, t0 ++ [ReplyText MSG_PROCESSING None]).
  cbv iota beta.
  destruct (download_and_encode f e _) as [[image_b64|x] t1]; [|destruct x; reflexivity].
  destruct (call_vision_api json_loads image_b64 e t1) as [[v|x] t2];
    [|destruct x; reflexivity].
  unfold replies.
  destruct (length (HEADER ++ format str_of v) <=? 4096); [reflexivity|].
  change (emit (EditText MSG_SPLIT MARKDOWN) e t2)
    with (Ok tt, t2 ++ [EditText MSG_SPLIT MARKDOWN]).
  cbv iota beta. unfold lift at 1.
  assert (Hlast : forall (a : action) (rest : list action),
            (t2 ++ [a]) ++ rest = t2 ++ a :: rest)
    by (intros; now rewrite <- app_assoc).
  destruct v as [|b|z|x|s|l|d]; cbn [len is_ValueError is_Exception];
    try (unfold emit, modify; rewrite Hlast; reflexivity).
  - rewrite for_each_emit with (g := fun i => ReplyText (slice s i (i + 4000)) None);
      [now rewrite Hlast|].
    intros i t. reflexivity.
  - rewrite for_each_emit with (g := fun i => ReplyValue (JList (slice l i (i + 4000))));
      [now rewrite Hlast|].
    intros i t. reflexivity.
  - unfold range. destruct d as [|kv d]; [reflexivity|].
    cbn [length range_from Nat.ltb Nat.leb for_each].
    unfold bind, lift. cbn [getslice is_ValueError is_Exception].
    unfold emit, modify. now rewrite Hlast.
Qed.

End RelayHandlers.

(** ** The helpers of [bot.py] compute their answers *)

Section RelaySteps.

Variable json_loads : pystr -> option json.

Lemma download_and_encode_eq (f : file_obj) (e : env) (t0 : state) :
  download_and_encode f e t0 =
  match get_file e with
  | Raise x => (Raise x, t0 ++ [GetFile (file_id f)])
  | Ok _ =>
      (match download e with
       | Raise x => Raise x
       | Ok buf => Ok (b64encode buf)
       end, t0 ++ [GetFile (file_id f); DownloadToMemory])
  end.
Proof.
  unfold download_and_encode, bind, emit, modify, ask, lift, ret.
  destruct (get_file e); [|reflexivity].
  rewrite <- app_assoc. destruct (download e); reflexivity.
Qed.

Lemma get_qwen_token_eq (e : env) (t0 : state) :
  get_qwen_token json_loads e t0 = (read_token json_loads e, t0 ++ [Sync]).
Proof.
  unfold get_qwen_token, read_token, try_except, bind, emit, modify, ask, lift, ret, raise.
  destruct (creds_text e) as [text|x]; [|destruct x; reflexivity].
  destruct (json_loads text) as [creds|]; [|reflexivity].
  destruct (get creds (u "access_token") (JStr [])) as [token|x]; [|destruct x; reflexivity].
  destruct (truthy token); reflexivity.
Qed.

Lemma call_vision_api_eq (image_base64 : pystr) (e : env) (t0 : state) :
  call_vision_api json_loads image_base64 e t0 =
  match read_token json_loads e with
  | Raise x => (Raise x, t0 ++ [Sync])
  | Ok token => (read_content json_loads e, t0 ++ [Sync; Post token image_base64])
  end.
Proof.
  unfold call_vision_api. unfold bind at 1. rewrite get_qwen_token_eq.
  destruct (read_token json_loads e) as [token|x]; [|reflexivity].
  unfold read_content, content_of, raise_for_status, try_except, bind, emit, modify,
    ask, lift, ret, raise.
  rewrite <- app_assoc. cbn [app fst snd].
  destruct (post e) as [[status_code text]|x]; [|reflexivity].
  cbn [fst snd].
  destruct ((200 <=? status_code)%Z && (status_code <=? 299)%Z); [|reflexivity].
  destruct (json_loads text) as [data|]; [|reflexivity].
  destruct (getitem data (u "choices")) as [choices|x]; [|destruct x; reflexivity].
  destruct (getitem0 choices) as [choice|x]; [|destruct x; reflexivity].
  destruct (getitem choice (u "message")) as [message|x]; [|destruct x; reflexivity].
  destruct (getitem message (u "content")) as [content|x]; [|destruct x; reflexivity].
  reflexivity.
Qed.

Lemma recognise_eq (f : file_obj) (e : env) (t0 : state) :
  recognise json_loads f e t0 =
  match get_file e with
  | Raise x => (Raise x, t0 ++ [GetFile (file_id f)])
  | Ok _ =>
      match download e with
      | Raise x => (Raise x, t0 ++ [GetFile (file_id f); DownloadToMemory])
      | Ok buf =>
          match read_token json_loads e with
          | Raise x => (Raise x, t0 ++ [GetFile (file_id f); DownloadToMemory; Sync])
          | Ok token =>
              (read_content json_loads e,
               t0 ++ [GetFile (file_id f); DownloadToMemory; Sync;
                      Post token (b64encode buf)])
          end
      end
  end.
Proof.
  unfold recognise, bind. rewrite download_and_encode_eq.
  destruct (get_file e); [|reflexivity].
  destruct (download e); [|reflexivity].
  rewrite call_vision_api_eq.
  destruct (read_token json_loads e); rewrite <- app_assoc; reflexivity.
Qed.

Lemma recognise_trace (f : file_obj) (e : env) (t0 t : state) (v : json) :
  recognise json_loads f e t0 = (Ok v, t) ->
  exists token buf,
    t = t0 ++ [GetFile (file_id f); DownloadToMemory; Sync; Post token (b64encode buf)].
Proof.
  rewrite recognise_eq.
  destruct (get_file e); [|discriminate].
  destruct (download e) as [buf|]; [|discriminate].
  destruct (read_token json_loads e) as [token|]; [|discriminate].
  intros H. inversion H. eauto.
Qed.

Lemma recognise_steps (f : file_obj) (e : env) (t : state) :
  exists steps,
    snd (recognise json_loads f e t) = t ++ steps
    /\ (steps = [GetFile (file_id f)]
        \/ steps = [GetFile (file_id f); DownloadToMemory]
        \/ steps = [GetFile (file_id f); DownloadToMemory; Sync]
        \/ exists token buf,
             steps = [GetFile (file_id f); DownloadToMemory; Sync;
                      Post token (b64encode buf)]).
Proof.
  rewrite recognise_eq.
  destruct (get_file e); [|eexists; split; [reflexivity|now left]].
  destruct (download e) as [buf|]; [|eexists; split; [reflexivity|now right; left]].
  destruct (read_token json_loads e) as [token|];
    [|eexists; split; [reflexivity|now right; right; left]].
  eexists. split; [reflexivity|]. do 3 right. now exists token, buf.
Qed.

End RelaySteps.

Section RelayReplies.

Variable str_of : json -> pystr.

Lemma replies_text (result_text : pystr) :
  replies str_of (JStr result_text) =
  if length (HEADER ++ result_text) <=? 4096
  then [EditText (HEADER ++ result_text) MARKDOWN]
  else EditText MSG_SPLIT MARKDOWN
         :: map (fun i => ReplyText (slice result_text i (i + 4000)) None)
              (range (length result_text) 4000).
Proof. reflexivity. Qed.

Lemma forallb_is_message (B : Type) (g : B -> action) (l : list B) :
  (forall i, is_message (g i) = true) -> forallb is_message (map g l) = true.
Proof.
  intros Hg. induction l as [|i l IH]; [reflexivity|].
  cbn [map forallb]. now rewrite Hg, IH.
Qed.

Lemma replies_are_messages (v : json) : forallb is_message (replies str_of v) = true.
Proof.
  unfold replies. destruct (length _ <=? 4096); [reflexivity|].
  cbn [forallb is_message andb].
  destruct v as [|b|z|x|s|l|[|kv d]]; try reflexivity; now apply forallb_is_message.
Qed.

Lemma replies_last (v : json) : exists before final, replies str_of v = before ++ [final].
Proof.
  destruct (@exists_last _ (replies str_of v)) as (before & final & Hlast).
  - unfold replies. destruct (length _ <=? 4096); discriminate.
  - now exists before, final.
Qed.

End RelayReplies.
Section RelayRuns.

Variable json_loads : pystr -> option json.
Variable str_of : json -> pystr.

Lemma process_image_handled (f : file_obj) (e : env) (t0 t : state) (x : exn) :
  recognise json_loads f e (t0 ++ [ReplyText MSG_PROCESSING None]) = (Raise x, t) ->
  is_Exception x = true ->
  _process_image json_loads str_of f e t0 = (Ok tt, t ++ [EditText (message_for x) None]).
Proof.
  intros Hrec Hx. rewrite process_image_cases, Hrec.
  destruct x; cbn [message_for is_ValueError is_Exception] in *;
    solve [discriminate Hx | reflexivity].
Qed.

Lemma read_token_ordinary (e : env) :
  ordinary (creds_text e) = true -> ordinary (read_token json_loads e) = true.
Proof.
  unfold read_token. destruct (creds_text e) as [text|x]; [intros _|exact (fun H => H)].
  destruct (json_loads text) as [creds|]; [|reflexivity].
  destruct creds; try reflexivity. cbn [get].
  destruct (truthy _); reflexivity.
Qed.

Lemma getitem_ordinary (v : json) (k : pystr) : ordinary (getitem v k) = true.
Proof.
  destruct v; try reflexivity. cbn [getitem]. destruct (lookup k d); reflexivity.
Qed.

Lemma getitem0_ordinary (v : json) : ordinary (getitem0 v) = true.
Proof. destruct v as [| | | |[|c s]|[|x l]|d]; reflexivity. Qed.

Lemma content_of_ordinary (data : json) : ordinary (content_of data) = true.
Proof.
  unfold content_of.
  pose proof (getitem_ordinary data (u "choices")) as H1.
  destruct (getitem data (u "choices")) as [choices|]; [|exact H1].
  pose proof (getitem0_ordinary choices) as H2.
  destruct (getitem0 choices) as [choice|]; [|exact H2].
  pose proof (getitem_ordinary choice (u "message")) as H3.
  destruct (getitem choice (u "message")) as [message|]; [|exact H3].
  apply getitem_ordinary.
Qed.

Lemma read_content_ordinary (e : env) :
  ordinary (post e) = true -> ordinary (read_content json_loads e) = true.
Proof.
  unfold read_content.
  destruct (post e) as [[status_code text]|x]; [intros _|exact (fun H => H)].
  destruct (_ && _); [|reflexivity].
  destruct (json_loads text) as [data|]; [|reflexivity].
  pose proof (content_of_ordinary data) as Hx.
  destruct (content_of data) as [v|x]; [reflexivity|].
  destruct x; cbn [ordinary is_Exception] in *; solve [discriminate Hx | reflexivity].
Qed.

Lemma recognise_ordinary (f : file_obj) (e : env) (t : state) :
  ordinary (get_file e) = true ->
  ordinary (download e) = true ->
  ordinary (creds_text e) = true ->
  ordinary (post e) = true ->
  ordinary (fst (recognise json_loads f e t)) = true.
Proof.
  intros Hfile Hbuf Hcreds Hpost. rewrite recognise_eq.
  destruct (get_file e); [|exact Hfile].
  destruct (download e); [|exact Hbuf].
  pose proof (read_token_ordinary e Hcreds) as Htoken.
  destruct (read_token json_loads e); [|exact Htoken].
  apply read_content_ordinary, Hpost.
Qed.

Lemma process_image_messages (f : file_obj) (e : env) (t0 : state) :
  exists msgs,
    snd (_process_image json_loads str_of f e t0)
    = snd (recognise json_loads f e (t0 ++ [ReplyText MSG_PROCESSING None])) ++ msgs
    /\ forallb is_message msgs = true
    /\ (ordinary (fst (recognise json_loads f e (t0 ++ [ReplyText MSG_PROCESSING None])))
        = true ->
        fst (_process_image json_loads str_of f e t0) = Ok tt
        /\ exists before final, msgs = before ++ [final]).
Proof.
  rewrite process_image_cases.
  destruct (recognise json_loads f e _) as [[v|x] t]; cbn [fst snd ordinary].
  - exists (replies str_of v). split; [reflexivity|].
    split; [apply replies_are_messages|].
    intros _. split; [reflexivity|apply replies_last].
  - destruct (is_Exception x) eqn:Hx.
    + exists [EditText (message_for x) None].
      destruct x; cbn [message_for is_ValueError is_Exception fst snd] in *;
        try discriminate Hx;
        (split; [reflexivity|]; split; [reflexivity|]; intros _; split; [reflexivity|];
         eexists [], _; reflexivity).
    + destruct x; try discriminate Hx. exists []. cbn [is_ValueError is_Exception fst snd].
      rewrite app_nil_r. split; [reflexivity|]. split; [reflexivity|]. discriminate.
Qed.

Lemma process_image_trace (f : file_obj) (e : env) (t0 : state) :
  exists steps msgs,
    snd (_process_image json_loads str_of f e t0)
    = t0 ++ ReplyText MSG_PROCESSING None :: steps ++ msgs
    /\ forallb is_message msgs = true
    /\ (steps = [GetFile (file_id f)]
        \/ steps = [GetFile (file_id f); DownloadToMemory]
        \/ steps = [GetFile (file_id f); DownloadToMemory; Sync]
        \/ exists token buf,
             steps = [GetFile (file_id f); DownloadToMemory; Sync;
                      Post token (b64encode buf)]).
Proof.
  destruct (process_image_messages f e t0) as (msgs & Htrace & Hmsgs & _).
  destruct (recognise_steps json_loads f e (t0 ++ [ReplyText MSG_PROCESSING None]))
    as (steps & Hsteps & Hshape).
  exists steps, msgs. split; [|split; assumption].
  rewrite Htrace, Hsteps, <- !app_assoc. reflexivity.
Qed.

End RelayRuns.

(** ** The vision relay *)

(** C2: whenever the vision call recognises a text [result_text], the
    handler has sent the placeholder, downloaded the file and posted it
    once; if the reply (the header followed by [result_text]) has at most
    4096 characters, it then edits the placeholder once, to the whole
    reply; otherwise it edits the placeholder to the short notice and
    sends [result_text] in consecutive slices, in order, each of 1 to
    4000 characters, whose concatenation is [result_text]. *)
Theorem process_image_reply_in_slices
    (json_loads : pystr -> option json) (str_of : json -> pystr) (f : file_obj) (e : env)
    (result_text : pystr) (t : state) :
  recognise json_loads f e [ReplyText MSG_PROCESSING None] = (Ok (JStr result_text), t) ->
  let reply := HEADER ++ result_text in
  let pieces :=
    map (fun i => slice result_text i (i + 4000)) (range (length result_text) 4000) in
  (exists token buf,
     t = [ReplyText MSG_PROCESSING None; GetFile (file_id f); DownloadToMemory; Sync;
          Post token (b64encode buf)])
  /\ ((length reply <= 4096)%nat ->
      _process_image json_loads str_of f e [] = (Ok tt, t ++ [EditText reply MARKDOWN]))
  /\ ((4096 < length reply)%nat ->
      _process_image json_loads str_of f e []
      = (Ok tt, t ++ EditText MSG_SPLIT MARKDOWN :: map (fun c => ReplyText c None) pieces))
  /\ concat pieces = result_text
  /\ Forall (fun c => (1 <= length c <= 4000)%nat) pieces.
Proof.
  intros Hrec reply pieces.
  pose proof (process_image_cases json_loads str_of f e []) as Hcases.
  cbn [app] in Hcases. rewrite Hrec, replies_text in Hcases. fold reply in Hcases.
  split; [|split; [|split; [|split]]].
  - destruct (recognise_trace _ _ _ _ Hrec) as (token & buf & Ht).
    exists token, buf. exact Ht.
  - intros Hshort. rewrite Hcases.
    destruct (Nat.leb_spec (length reply) 4096); [reflexivity|lia].
  - intros Hlong. rewrite Hcases.
    destruct (Nat.leb_spec (length reply) 4096); [lia|].
    subst pieces. rewrite map_map. reflexivity.
  - apply (concat_chunks (step := 4000)). lia.
  - apply (chunks_length (step := 4000)). lia.
Qed.

Lemma process_image_reply_in_slices_witness :
  recognise Doc.relay_loads Doc.png (Doc.relay Doc.creds_doc 200 Doc.answer_doc)
    [ReplyText MSG_PROCESSING None]
  = (Ok (JStr (u "Hello")),
     [ReplyText MSG_PROCESSING None; GetFile (u "BQACAgIAAxkBAAIB"); DownloadToMemory; Sync;
      Post (JStr (u "tok")) (u "TWFu")])
  /\ _process_image Doc.relay_loads Doc.str_of Doc.png (Doc.relay Doc.creds_doc 200 Doc.answer_doc) []
     = (Ok tt,
        [ReplyText MSG_PROCESSING None; GetFile (u "BQACAgIAAxkBAAIB"); DownloadToMemory; Sync;
         Post (JStr (u "tok")) (u "TWFu");
         EditText (HEADER ++ u "Hello") MARKDOWN]).
Proof.
  assert (Hrec :
    recognise Doc.relay_loads Doc.png (Doc.relay Doc.creds_doc 200 Doc.answer_doc)
      [ReplyText MSG_PROCESSING None]
    = (Ok (JStr (u "Hello")),
       [ReplyText MSG_PROCESSING None; GetFile (u "BQACAgIAAxkBAAIB"); DownloadToMemory;
        Sync; Post (JStr (u "tok")) (u "TWFu")])) by (vm_compute; reflexivity).
  split; [exact Hrec|].
  destruct (process_image_reply_in_slices _ Doc.str_of _ _ Hrec) as (_ & Hshort & _).
  apply Hshort. vm_compute. lia.
Defined.

(** C5: whenever the vision call raises an HTTP status error, the
    handler edits the placeholder to [error_msg status_code]: the
    authorization message for 401, the rate-limit message for 429, the
    server-unavailable message for every status from 500 up, and for
    every other status the generic message with the status code in it.
    So 401, 429, 500, 503 and 418 give the authorization, rate-limit,
    server-unavailable (twice) and generic messages. *)
Theorem process_image_http_status_message
    (json_loads : pystr -> option json) (str_of : json -> pystr) (f : file_obj) (e : env)
    (status_code : Z) (text : pystr) (t : state) :
  recognise json_loads f e [ReplyText MSG_PROCESSING None]
  = (Raise (HTTPStatusError status_code text), t) ->
  _process_image json_loads str_of f e [] = (Ok tt, t ++ [EditText (error_msg status_code) None])
  /\ (status_code = 401%Z -> error_msg status_code = MSG_401)
  /\ (status_code = 429%Z -> error_msg status_code = MSG_429)
  /\ ((500 <= status_code)%Z -> error_msg status_code = MSG_5XX)
  /\ (status_code <> 401%Z -> status_code <> 429%Z -> (status_code < 500)%Z ->
      error_msg status_code
      = u "❌ Ошибка сервера (код " ++ str_of_int status_code ++ u "). Попробуйте позже.")
  /\ error_msg 401 = u "🔑 Ошибка авторизации. Проверьте токен API."
  /\ error_msg 429 = u "🚦 Превышен лимит запросов. Попробуйте позже."
  /\ error_msg 500 = u "🔧 Сервер временно недоступен. Попробуйте позже."
  /\ error_msg 503 = u "🔧 Сервер временно недоступен. Попробуйте позже."
  /\ error_msg 418 = u "❌ Ошибка сервера (код 418). Попробуйте позже.".
Proof.
  intros Hrec.
  pose proof (process_image_cases json_loads str_of f e []) as Hcases.
  cbn [app] in Hcases. rewrite Hrec in Hcases.
  split; [exact Hcases|].
  unfold error_msg.
  split; [|split; [|split; [|split; [|repeat apply conj; vm_compute; reflexivity]]]].
  - intros ->. reflexivity.
  - intros ->. reflexivity.
  - intros Hge.
    destruct (Z.eqb_spec status_code 401); [lia|].
    destruct (Z.eqb_spec status_code 429); [lia|].
    destruct (Z.geb_spec status_code 500); [reflexivity|lia].
  - intros H401 H429 Hlt.
    destruct (Z.eqb_spec status_code 401); [contradiction|].
    destruct (Z.eqb_spec status_code 429); [contradiction|].
    destruct (Z.geb_spec status_code 500); [lia|reflexivity].
Qed.

Lemma process_image_http_status_message_witness :
  recognise Doc.relay_loads Doc.png (Doc.relay Doc.creds_doc 418 []) [ReplyText MSG_PROCESSING None]
  = (Raise (HTTPStatusError 418 []),
     [ReplyText MSG_PROCESSING None; GetFile (u "BQACAgIAAxkBAAIB"); DownloadToMemory; Sync;
      Post (JStr (u "tok")) (u "TWFu")])
  /\ _process_image Doc.relay_loads Doc.str_of Doc.png (Doc.relay Doc.creds_doc 418 []) []
     = (Ok tt,
        [ReplyText MSG_PROCESSING None; GetFile (u "BQACAgIAAxkBAAIB"); DownloadToMemory; Sync;
         Post (JStr (u "tok")) (u "TWFu");
         EditText (u "❌ Ошибка сервера (код 418). Попробуйте позже.") None]).
Proof.
  assert (Hrec :
    recognise Doc.relay_loads Doc.png (Doc.relay Doc.creds_doc 418 [])
      [ReplyText MSG_PROCESSING None]
    = (Raise (HTTPStatusError 418 []),
       [ReplyText MSG_PROCESSING None; GetFile (u "BQACAgIAAxkBAAIB"); DownloadToMemory;
        Sync; Post (JStr (u "tok")) (u "TWFu")])) by (vm_compute; reflexivity).
  split; [exact Hrec|].
  destruct (process_image_http_status_message _ Doc.str_of _ _ Hrec) as (Hrun & _).
  rewrite Hrun. vm_compute. reflexivity.
Defined.

(** C6: a document whose MIME type is absent or does not begin with
    "image/" gets the warning reply and nothing else (the file is not
    fetched, nothing is posted); a document with an image MIME type is
    handed to [_process_image], which sends the placeholder and starts
    the download. *)
Theorem handle_document_needs_image_mime
    (json_loads : pystr -> option json) (str_of : json -> pystr) (document : file_obj)
    (e : env) (t : state) :
  (match mime_type document with
   | Some m => startswith m (u "image/")
   | None => false
   end = false ->
   handle_document json_loads str_of document e t = (Ok tt, t ++ [ReplyText MSG_NOT_IMAGE None]))
  /\ (forall m, mime_type document = Some m -> startswith m (u "image/") = true ->
      handle_document json_loads str_of document e t = _process_image json_loads str_of document e t
      /\ exists rest,
           snd (handle_document json_loads str_of document e t)
           = t ++ ReplyText MSG_PROCESSING None :: GetFile (file_id document) :: rest).
Proof.
  unfold handle_document. split.
  - destruct (mime_type document) as [m|]; [|reflexivity].
    intros ->. rewrite orb_true_r. reflexivity.
  - intros m -> Himage. rewrite Himage.
    assert (Htruthy : truthy (JStr m) = true) by (destruct m; [discriminate|reflexivity]).
    rewrite Htruthy. cbn [negb orb]. split; [reflexivity|].
    destruct (process_image_trace json_loads str_of document e t)
      as (steps & msgs & Htrace & _ & Hshape).
    rewrite Htrace.
    destruct Hshape as [->|[->|[->|(token & buf & ->)]]]; eexists; reflexivity.
Qed.

Lemma handle_document_needs_image_mime_witness :
  handle_document Doc.relay_loads Doc.str_of Doc.pdf (Doc.relay Doc.creds_doc 200 Doc.answer_doc) []
  = (Ok tt, [ReplyText MSG_NOT_IMAGE None])
  /\ handle_document Doc.relay_loads Doc.str_of Doc.png (Doc.relay Doc.creds_doc 200 Doc.answer_doc) []
     = _process_image Doc.relay_loads Doc.str_of Doc.png (Doc.relay Doc.creds_doc 200 Doc.answer_doc) [].
Proof.
  split.
  - apply (handle_document_needs_image_mime Doc.relay_loads Doc.str_of Doc.pdf
             (Doc.relay Doc.creds_doc 200 Doc.answer_doc) []).
    vm_compute. reflexivity.
  - apply (handle_document_needs_image_mime Doc.relay_loads Doc.str_of Doc.png
             (Doc.relay Doc.creds_doc 200 Doc.answer_doc) []) with (m := u "image/png");
      vm_compute; reflexivity.
Defined.

(** C8, on the code: an error of the credential store reaches the
    [except ValueError] clause of [_process_image].  With a store whose
    [access_token] is empty, and with a store that is not JSON (an empty
    file), nothing is posted and the user is told that the answer of the
    server could not be processed; and an answer of the server of an
    unexpected shape (a list) gets the message of the unexpected errors
    instead. *)
Example credential_error_gets_parse_message :
  _process_image Doc.relay_loads Doc.str_of Doc.png (Doc.relay Doc.no_token_doc 200 Doc.answer_doc) []
  = (Ok tt,
     [ReplyText MSG_PROCESSING None; GetFile (u "BQACAgIAAxkBAAIB"); DownloadToMemory; Sync;
      EditText (u "❌ Не удалось обработать ответ от сервера. Попробуйте ещё раз.") None])
  /\ _process_image Doc.relay_loads Doc.str_of Doc.png (Doc.relay [] 200 Doc.answer_doc) []
     = (Ok tt,
        [ReplyText MSG_PROCESSING None; GetFile (u "BQACAgIAAxkBAAIB"); DownloadToMemory; Sync;
         EditText (u "❌ Не удалось обработать ответ от сервера. Попробуйте ещё раз.") None])
  /\ _process_image Doc.relay_loads Doc.str_of Doc.png (Doc.relay Doc.creds_doc 200 (u "[]")) []
     = (Ok tt,
        [ReplyText MSG_PROCESSING None; GetFile (u "BQACAgIAAxkBAAIB"); DownloadToMemory; Sync;
         Post (JStr (u "tok")) (u "TWFu");
         EditText (u "❌ Произошла непредвиденная ошибка. Попробуйте позже.") None]).
Proof. repeat apply conj; vm_compute; reflexivity. Qed.

(** ** Further properties of the relay *)

Lemma str_eqb_app_false (p rest m : pystr) :
  startswith m p = false -> str_eqb (p ++ rest) m = false.
Proof.
  revert m. induction p as [|x p IH]; intros m H; [destruct m; discriminate H|].
  destruct m as [|y m]; [reflexivity|]. revert H.
  change (startswith (y :: m) (x :: p)) with ((x =? y)%N && startswith m p).
  change (str_eqb ((x :: p) ++ rest) (y :: m))
    with ((x =? y)%N && str_eqb (p ++ rest) m).
  destruct (x =? y)%N; [apply IH|reflexivity].
Qed.

(** X8: the messages of the error clauses of [_process_image] are
    pairwise different texts, whatever the status code in the generic
    one. *)
Theorem error_messages_differ (status_code : Z) :
  forallb (fun m => negb (str_eqb (MSG_STATUS status_code) m))
    [MSG_TIMEOUT; MSG_401; MSG_429; MSG_5XX; MSG_PARSE; MSG_UNEXPECTED] = true
  /\ forallb (fun m => negb (str_eqb MSG_TIMEOUT m))
       [MSG_401; MSG_429; MSG_5XX; MSG_PARSE; MSG_UNEXPECTED] = true
  /\ forallb (fun m => negb (str_eqb MSG_401 m))
       [MSG_429; MSG_5XX; MSG_PARSE; MSG_UNEXPECTED] = true
  /\ forallb (fun m => negb (str_eqb MSG_429 m)) [MSG_5XX; MSG_PARSE; MSG_UNEXPECTED] = true
  /\ forallb (fun m => negb (str_eqb MSG_5XX m)) [MSG_PARSE; MSG_UNEXPECTED] = true
  /\ str_eqb MSG_PARSE MSG_UNEXPECTED = false.
Proof.
  split; [|repeat apply conj; vm_compute; reflexivity].
  assert (Hdiff : forall m, startswith m (u "❌ Ошибка сервера (код ") = false ->
                            negb (str_eqb (MSG_STATUS status_code) m) = true).
  { intros m Hm. unfold MSG_STATUS. now rewrite (@str_eqb_app_false _ _ _ Hm). }
  cbn [forallb].
  rewrite !Hdiff by (vm_compute; reflexivity). reflexivity.
Qed.


(** X1: when none of the outside calls ([get_file], the download, the
    read of the credential file, the POST) raises anything but an
    [Exception], [_process_image] returns normally, whatever fails and
    whatever the content of the answer is (a text or any other JSON
    value): it sends the placeholder, asks for the file, and its last
    action shows a message to the user.  The chat transport is a sink:
    [reply_text] and [edit_text] return. *)
Theorem process_image_always_answers
    (json_loads : pystr -> option json) (str_of : json -> pystr)
    (f : file_obj) (e : env) (t0 : state) :
  ordinary (get_file e) = true ->
  ordinary (download e) = true ->
  ordinary (creds_text e) = true ->
  ordinary (post e) = true ->
  exists before final,
    _process_image json_loads str_of f e t0
    = (Ok tt,
       t0 ++ ReplyText MSG_PROCESSING None :: GetFile (file_id f) :: before ++ [final])
    /\ is_message final = true.
Proof.
  intros Hfile Hbuf Hcreds Hpost.
  pose proof (@recognise_ordinary json_loads f e (t0 ++ [ReplyText MSG_PROCESSING None])
                Hfile Hbuf Hcreds Hpost) as Hord.
  destruct (process_image_messages json_loads str_of f e t0) as (msgs & Htrace & Hmsgs & Hok).
  destruct (Hok Hord) as (Hres & before & final & ->).
  destruct (recognise_steps json_loads f e (t0 ++ [ReplyText MSG_PROCESSING None]))
    as (steps & Hsteps & Hshape).
  rewrite Hsteps in Htrace.
  rewrite forallb_app in Hmsgs. apply andb_true_iff in Hmsgs as [_ Hfinal].
  cbn [forallb] in Hfinal. rewrite andb_true_r in Hfinal.
  assert (Hsteps' : exists rest, steps = GetFile (file_id f) :: rest).
  { destruct Hshape as [->|[->|[->|(token & buf & ->)]]]; eauto. }
  destruct Hsteps' as (rest & ->).
  exists (rest ++ before), final. split; [|exact Hfinal].
  destruct (_process_image json_loads str_of f e t0) as [r t]. cbn [fst snd] in *.
  subst r t. rewrite <- !app_assoc. reflexivity.
Qed.

Lemma process_image_always_answers_witness :
  exists before final,
    _process_image Doc.relay_loads Doc.str_of Doc.png (Doc.relay [] 503 []) []
    = (Ok tt,
       [] ++ ReplyText MSG_PROCESSING None :: GetFile (file_id Doc.png)
          :: before ++ [final])
    /\ is_message final = true.
Proof.
  exact (@process_image_always_answers Doc.relay_loads Doc.str_of Doc.png (Doc.relay [] 503 []) []
           eq_refl eq_refl eq_refl eq_refl).
Defined.

(** X2: in every run, whatever the content of the answer is (a text
    or any other JSON value), [_process_image] sends the placeholder
    first, then asks for the file once, downloads it at most once, reads
    the token only after the download, and posts at most once, only
    after it has the token; every message to the user comes after these
    steps.  The chat transport is a sink: [reply_text] and [edit_text]
    return. *)
Theorem process_image_steps_in_order
    (json_loads : pystr -> option json) (str_of : json -> pystr)
    (f : file_obj) (e : env) (t0 : state) :
  exists steps msgs,
    snd (_process_image json_loads str_of f e t0)
    = t0 ++ ReplyText MSG_PROCESSING None :: steps ++ msgs
    /\ forallb is_message msgs = true
    /\ (steps = [GetFile (file_id f)]
        \/ steps = [GetFile (file_id f); DownloadToMemory]
        \/ steps = [GetFile (file_id f); DownloadToMemory; Sync]
        \/ exists token buf,
             steps = [GetFile (file_id f); DownloadToMemory; Sync;
                      Post token (b64encode buf)]).
Proof. exact (process_image_trace json_loads str_of f e t0). Qed.

(** X3: when [get_file] or the download raises an [Exception], the
    token is not read and nothing is posted: the placeholder is edited
    to the message of the clause that catches the exception. *)
Theorem failed_download_reads_no_token
    (json_loads : pystr -> option json) (str_of : json -> pystr)
    (f : file_obj) (e : env) (x : exn) :
  is_Exception x = true ->
  (get_file e = Raise x ->
   _process_image json_loads str_of f e []
   = (Ok tt,
      [ReplyText MSG_PROCESSING None; GetFile (file_id f);
       EditText (message_for x) None]))
  /\ (get_file e = Ok tt -> download e = Raise x ->
      _process_image json_loads str_of f e []
      = (Ok tt,
         [ReplyText MSG_PROCESSING None; GetFile (file_id f); DownloadToMemory;
          EditText (message_for x) None])).
Proof.
  intros Hx. split.
  - intros Hfile.
    apply (@process_image_handled json_loads str_of f e []
             [ReplyText MSG_PROCESSING None; GetFile (file_id f)] x); [|exact Hx].
    rewrite recognise_eq, Hfile. reflexivity.
  - intros Hfile Hbuf.
    apply (@process_image_handled json_loads str_of f e []
             [ReplyText MSG_PROCESSING None; GetFile (file_id f); DownloadToMemory] x);
      [|exact Hx].
    rewrite recognise_eq, Hfile, Hbuf. reflexivity.
Qed.

Lemma failed_download_reads_no_token_witness :
  _process_image Doc.relay_loads Doc.str_of Doc.png
    {| get_file := Ok tt; download := Raise OtherError;
       creds_text := Ok Doc.creds_doc; post := Ok (200%Z, Doc.answer_doc) |} []
  = (Ok tt,
     [ReplyText MSG_PROCESSING None; GetFile (file_id Doc.png); DownloadToMemory;
      EditText (message_for OtherError) None]).
Proof.
  exact (proj2 (@failed_download_reads_no_token Doc.relay_loads Doc.str_of Doc.png
                  {| get_file := Ok tt; download := Raise OtherError;
                     creds_text := Ok Doc.creds_doc; post := Ok (200%Z, Doc.answer_doc) |}
                  OtherError eq_refl) eq_refl eq_refl).
Defined.

(** X4: when the file is downloaded and [get_qwen_token] raises a
    [ValueError] (an empty or absent [access_token], or a store that is
    not JSON), [_process_image] posts nothing and edits the placeholder
    to the message of the response that could not be processed. *)
Theorem token_value_error_gets_parse_message
    (json_loads : pystr -> option json) (str_of : json -> pystr) (f : file_obj) (e : env)
    (buf : list N) (x : exn) (t : state) :
  get_file e = Ok tt ->
  download e = Ok buf ->
  get_qwen_token json_loads e [] = (Raise x, t) ->
  is_ValueError x = true ->
  _process_image json_loads str_of f e []
  = (Ok tt,
     [ReplyText MSG_PROCESSING None; GetFile (file_id f); DownloadToMemory; Sync;
      EditText MSG_PARSE None]).
Proof.
  intros Hfile Hbuf Htoken Hvalue.
  rewrite get_qwen_token_eq in Htoken. inversion Htoken as [[Hread Ht]].
  assert (Hmsg : message_for x = MSG_PARSE)
    by (destruct x; cbn [is_ValueError] in Hvalue; solve [discriminate Hvalue|reflexivity]).
  rewrite <- Hmsg.
  apply (@process_image_handled json_loads str_of f e []
           [ReplyText MSG_PROCESSING None; GetFile (file_id f); DownloadToMemory; Sync] x).
  - rewrite recognise_eq, Hfile, Hbuf, Hread. reflexivity.
  - destruct x; solve [discriminate Hvalue|reflexivity].
Qed.

Lemma token_value_error_gets_parse_message_witness :
  _process_image Doc.relay_loads Doc.str_of Doc.png (Doc.relay Doc.no_token_doc 200 Doc.answer_doc) []
  = (Ok tt,
     [ReplyText MSG_PROCESSING None; GetFile (file_id Doc.png); DownloadToMemory; Sync;
      EditText MSG_PARSE None]).
Proof.
  refine (@token_value_error_gets_parse_message Doc.relay_loads Doc.str_of Doc.png
            (Doc.relay Doc.no_token_doc 200 Doc.answer_doc) [77; 97; 110]%N ValueError [Sync]
            eq_refl eq_refl _ eq_refl).
  vm_compute. reflexivity.
Defined.

Section MoreSlices.

Variable A : Type.
Variable step : nat.
Hypothesis step_pos : (0 < step)%nat.

Lemma range_from_length (n : nat) :
  forall fuel i, (n - i <= fuel)%nat ->
    length (range_from fuel i n step) = ((n - i + (step - 1)) / step)%nat.
Proof.
  induction fuel as [|fuel IH]; intros i Hfuel; cbn [range_from].
  - replace (n - i)%nat with 0%nat by lia. cbn [length plus].
    symmetry. apply Nat.div_small. lia.
  - destruct (Nat.ltb_spec i n) as [Hlt|Hge].
    + cbn [length]. rewrite IH by lia.
      replace (n - i + (step - 1))%nat with ((n - i - 1) + 1 * step)%nat by lia.
      rewrite Nat.div_add by lia.
      destruct (Nat.le_gt_cases (i + step) n) as [Hle|Hgt].
      * replace (n - (i + step) + (step - 1))%nat with (n - i - 1)%nat by lia. lia.
      * replace (n - (i + step) + (step - 1))%nat with (step - 1)%nat by lia.
        rewrite (Nat.div_small (step - 1)), (Nat.div_small (n - i - 1)) by lia. lia.
    + replace (n - i)%nat with 0%nat by lia. cbn [length plus].
      symmetry. apply Nat.div_small. lia.
Qed.

Lemma range_from_nth (n : nat) :
  forall fuel i k, (k < length (range_from fuel i n step))%nat ->
    nth k (range_from fuel i n step) 0%nat = (i + k * step)%nat.
Proof.
  induction fuel as [|fuel IH]; intros i k; cbn [range_from]; [cbn; lia|].
  destruct (Nat.ltb_spec i n); [|cbn; lia].
  destruct k as [|k]; cbn [nth length]; [lia|].
  intros Hk. rewrite IH by lia. lia.
Qed.

Lemma slices_count (s : list A) :
  length (map (fun i => slice s i (i + step)) (range (length s) step))
  = ((length s + (step - 1)) / step)%nat.
Proof.
  rewrite length_map. unfold range. rewrite range_from_length by lia.
  now rewrite Nat.sub_0_r.
Qed.

Lemma slices_full (s : list A) (k : nat) :
  (S k < length (map (fun i => slice s i (i + step)) (range (length s) step)))%nat ->
  length (nth k (map (fun i => slice s i (i + step)) (range (length s) step)) []) = step.
Proof.
  intros Hk. pose proof Hk as Hk'. rewrite slices_count in Hk'.
  rewrite length_map in Hk.
  rewrite (nth_indep _ [] (slice s 0 (0 + step))) by (rewrite length_map; lia).
  rewrite (map_nth (fun i => slice s i (i + step)) _ 0%nat).
  unfold range in *. rewrite range_from_nth by lia.
  rewrite slice_step by assumption. rewrite length_firstn, length_skipn.
  assert (Hmul : (step * S (S k) <= length s + (step - 1))%nat).
  { etransitivity; [|apply (Nat.Div0.mul_div_le _ step)].
    apply Nat.mul_le_mono_l. lia. }
  nia.
Qed.

Lemma range_starts (n : nat) :
  (step < n)%nat -> exists rest, range n step = 0%nat :: step :: rest.
Proof.
  intros Hn. unfold range. destruct n as [|[|n]]; [lia|lia|].
  cbn [range_from].
  destruct (Nat.ltb_spec 0 (S (S n))); [|lia].
  destruct (Nat.ltb_spec (0 + step) (S (S n))); [|lia].
  eexists. reflexivity.
Qed.

End MoreSlices.

(** X5: the slices of lines 279-281: a text of [n] characters leaves
    in [ceil(n / 4000)] messages, and every message but the last has
    exactly 4000 characters. *)
Theorem slices_are_full_but_last (result_text : pystr) :
  length (map (fun i => slice result_text i (i + 4000))
            (range (length result_text) 4000))
  = ((length result_text + 3999) / 4000)%nat
  /\ forall k,
       (S k < length (map (fun i => slice result_text i (i + 4000))
                        (range (length result_text) 4000)))%nat ->
       length (nth k (map (fun i => slice result_text i (i + 4000))
                        (range (length result_text) 4000)) []) = 4000%nat.
Proof.
  split.
  - apply (@slices_count N 4000). lia.
  - intros k. apply (@slices_full N 4000). lia.
Qed.

(** X6: the header counts in the limit of 4096: a recognised text is
    sent in one message exactly when it has at most 4084 characters;
    a longer one, even one of 4085 to 4096 characters, is announced by
    the notice and sent in at least two messages, the first of which is
    its first 4000 characters. *)
Theorem reply_is_split_above_4084
    (json_loads : pystr -> option json) (str_of : json -> pystr) (f : file_obj) (e : env)
    (result_text : pystr) (t : state) :
  recognise json_loads f e [ReplyText MSG_PROCESSING None] = (Ok (JStr result_text), t) ->
  ((length result_text <= 4084)%nat ->
   _process_image json_loads str_of f e []
   = (Ok tt, t ++ [EditText (HEADER ++ result_text) MARKDOWN]))
  /\ ((4084 < length result_text)%nat ->
      exists second rest,
        _process_image json_loads str_of f e []
        = (Ok tt,
           t ++ EditText MSG_SPLIT MARKDOWN
             :: ReplyText (firstn 4000 result_text) None
             :: ReplyText second None :: rest)).
Proof.
  intros Hrec.
  pose proof (process_image_cases json_loads str_of f e []) as Hcases.
  cbn [app] in Hcases. rewrite Hrec, replies_text in Hcases.
  assert (Hlen : length (HEADER ++ result_text) = (12 + length result_text)%nat)
    by (rewrite length_app; reflexivity).
  rewrite Hlen in Hcases.
  split.
  - intros Hshort. rewrite Hcases.
    destruct (Nat.leb_spec (12 + length result_text) 4096); [reflexivity|lia].
  - intros Hlong. rewrite Hcases.
    destruct (Nat.leb_spec (12 + length result_text) 4096); [lia|].
    destruct (@range_starts 4000 ltac:(lia) (length result_text) ltac:(lia))
      as (rest & ->).
    cbn [map].
    do 2 eexists. unfold slice at 1. rewrite Nat.sub_0_r. cbn [skipn].
    replace (0 + 4000 - 0)%nat with 4000%nat by lia. reflexivity.
Qed.

Lemma reply_is_split_above_4084_witness :
  _process_image Doc.relay_loads Doc.str_of Doc.png (Doc.relay Doc.creds_doc 200 Doc.answer_doc) []
  = (Ok tt,
     [ReplyText MSG_PROCESSING None; GetFile (file_id Doc.png); DownloadToMemory; Sync;
      Post (JStr (u "tok")) (b64encode [77; 97; 110]%N)]
     ++ [EditText (HEADER ++ u "Hello") MARKDOWN]).
Proof.
  refine (proj1 (@reply_is_split_above_4084 Doc.relay_loads Doc.str_of Doc.png
                   (Doc.relay Doc.creds_doc 200 Doc.answer_doc) (u "Hello")
                   [ReplyText MSG_PROCESSING None; GetFile (file_id Doc.png);
                    DownloadToMemory; Sync;
                    Post (JStr (u "tok")) (b64encode [77; 97; 110]%N)] _) _).
  - vm_compute. reflexivity.
  - vm_compute. lia.
Defined.

(** X7: an answer of status 2xx whose body does not have the expected
    shape, once the file is downloaded and the token read.  A body that
    is not JSON, an object without "choices", or with an empty list of
    choices, gets the message of the response that could not be
    processed; a body that is a list, or whose "choices" is null, raises
    a [TypeError] and gets the message of the unexpected errors. *)
Theorem answer_of_unexpected_shape
    (json_loads : pystr -> option json) (str_of : json -> pystr) (f : file_obj) (e : env)
    (buf : list N) (token : json) (status_code : Z) (text : pystr) :
  get_file e = Ok tt ->
  download e = Ok buf ->
  fst (get_qwen_token json_loads e []) = Ok token ->
  post e = Ok (status_code, text) ->
  (200 <= status_code <= 299)%Z ->
  (forall d,
     json_loads text = None
     \/ (json_loads text = Some (JDict d)
         /\ (lookup (u "choices") d = None \/ lookup (u "choices") d = Some (JList []))) ->
     _process_image json_loads str_of f e []
     = (Ok tt,
        [ReplyText MSG_PROCESSING None; GetFile (file_id f); DownloadToMemory; Sync;
         Post token (b64encode buf); EditText MSG_PARSE None]))
  /\ (forall l d,
        json_loads text = Some (JList l)
        \/ (json_loads text = Some (JDict d) /\ lookup (u "choices") d = Some JNull) ->
        _process_image json_loads str_of f e []
        = (Ok tt,
           [ReplyText MSG_PROCESSING None; GetFile (file_id f); DownloadToMemory; Sync;
            Post token (b64encode buf); EditText MSG_UNEXPECTED None])).
Proof.
  intros Hfile Hbuf Htoken Hpost Hstatus.
  rewrite get_qwen_token_eq in Htoken. cbn [fst] in Htoken.
  assert (Hrun : forall x,
            read_content json_loads e = Raise x -> is_Exception x = true ->
            _process_image json_loads str_of f e []
            = (Ok tt,
               [ReplyText MSG_PROCESSING None; GetFile (file_id f); DownloadToMemory; Sync;
                Post token (b64encode buf)] ++ [EditText (message_for x) None])).
  { intros x Hx Hexc. apply process_image_handled; [|exact Hexc].
    rewrite recognise_eq, Hfile, Hbuf, Htoken, Hx. reflexivity. }
  assert (H2xx : (200 <=? status_code)%Z && (status_code <=? 299)%Z = true).
  { apply andb_true_iff. split; apply Z.leb_le; lia. }
  split.
  - intros d [Hbad|[Hd [Hchoices|Hchoices]]].
    + rewrite (Hrun (JSONDecodeError text));
        [cbn [message_for is_ValueError app]; reflexivity| |reflexivity].
      unfold read_content. rewrite Hpost, H2xx, Hbad. reflexivity.
    + rewrite (Hrun ValueError);
        [cbn [message_for is_ValueError app]; reflexivity| |reflexivity].
      unfold read_content. rewrite Hpost, H2xx, Hd.
      unfold content_of; cbn [getitem]; rewrite Hchoices; reflexivity.
    + rewrite (Hrun ValueError);
        [cbn [message_for is_ValueError app]; reflexivity| |reflexivity].
      unfold read_content. rewrite Hpost, H2xx, Hd.
      unfold content_of; cbn [getitem]; rewrite Hchoices; reflexivity.
  - intros l d [Hl|[Hd Hchoices]].
    + rewrite (Hrun TypeError);
        [cbn [message_for is_ValueError app]; reflexivity| |reflexivity].
      unfold read_content. rewrite Hpost, H2xx, Hl. reflexivity.
    + rewrite (Hrun TypeError);
        [cbn [message_for is_ValueError app]; reflexivity| |reflexivity].
      unfold read_content. rewrite Hpost, H2xx, Hd.
      unfold content_of; cbn [getitem]; rewrite Hchoices; reflexivity.
Qed.

Lemma answer_of_unexpected_shape_witness :
  _process_image Doc.relay_loads Doc.str_of Doc.png (Doc.relay Doc.creds_doc 200 (u "[]")) []
  = (Ok tt,
     [ReplyText MSG_PROCESSING None; GetFile (file_id Doc.png); DownloadToMemory; Sync;
      Post (JStr (u "tok")) (b64encode [77; 97; 110]%N); EditText MSG_UNEXPECTED None]).
Proof.
  refine (proj2 (@answer_of_unexpected_shape Doc.relay_loads Doc.str_of Doc.png
                   (Doc.relay Doc.creds_doc 200 (u "[]")) [77; 97; 110]%N (JStr (u "tok"))
                   200 (u "[]") eq_refl eq_refl _ eq_refl _) [] [] _).
  - vm_compute. reflexivity.
  - lia.
  - left. vm_compute. reflexivity.
Defined.

(** [handle_photo] processes the last photo of the message (the
    largest size), and raises [IndexError] on a message without photo. *)
Theorem handle_photo_takes_last
    (json_loads : pystr -> option json) (str_of : json -> pystr)
    (photo : list file_obj) (f : file_obj) (e : env) (t : state) :
  handle_photo json_loads str_of (photo ++ [f]) e t = _process_image json_loads str_of f e t
  /\ handle_photo json_loads str_of [] e t = (Raise IndexError, t).
Proof.
  unfold handle_photo. rewrite rev_unit. split; reflexivity.
Qed.

Section Startup.

Variable json_loads : pystr -> option json.

Lemma read_token_ok (e : env) (token : json) :
  read_token json_loads e = Ok token <->
  exists text d,
    creds_text e = Ok text /\ json_loads text = Some (JDict d)
    /\ lookup (u "access_token") d = Some token /\ truthy token = true.
Proof.
  unfold read_token. split.
  - destruct (creds_text e) as [text|]; [|discriminate].
    destruct (json_loads text) as [creds|] eqn:Hloads; [|discriminate].
    destruct creds; try discriminate. cbn [get].
    destruct (lookup (u "access_token") d) as [v|] eqn:Hv; [|discriminate].
    destruct (truthy v) eqn:Htruthy; [|discriminate].
    intros H. inversion H; subst. exists text, d. repeat split; auto.
  - intros (text & d & -> & -> & Hv & Htruthy). cbn [get]. rewrite Hv, Htruthy. reflexivity.
Qed.

End Startup.

(** X9: the checks of [main] before the bot starts.  It goes on to
    build the application exactly when [TELEGRAM_TOKEN] is not empty, the
    credential file exists, and the file holds a JSON object with a
    non-empty [access_token]; in every other case (the reading of the
    file raising at most an [Exception]) it exits with status 1. *)
Theorem startup_needs_both_tokens
    (json_loads : pystr -> option json) (TELEGRAM_TOKEN : pystr) (creds_exists : bool)
    (e : env) (t : state) :
  ordinary (creds_text e) = true ->
  (fst (Bot.main json_loads TELEGRAM_TOKEN creds_exists e t) = Ok tt
   \/ fst (Bot.main json_loads TELEGRAM_TOKEN creds_exists e t) = Raise (SystemExit 1))
  /\ (fst (Bot.main json_loads TELEGRAM_TOKEN creds_exists e t) = Ok tt <->
      match TELEGRAM_TOKEN with [] => false | _ => true end = true
      /\ creds_exists = true
      /\ exists text d token,
           creds_text e = Ok text /\ json_loads text = Some (JDict d)
           /\ lookup (u "access_token") d = Some token /\ truthy token = true).
Proof.
  intros Hcreds. unfold Bot.main. cbn [truthy].
  destruct TELEGRAM_TOKEN as [|c tok]; cbn [negb].
  { split; [right; reflexivity|]. split; [discriminate|]. intros [H _]. discriminate. }
  destruct creds_exists; cbn [negb].
  2:{ split; [right; reflexivity|]. split; [discriminate|]. intros (_ & H & _). discriminate. }
  unfold try_except, bind. rewrite get_qwen_token_eq.
  pose proof (read_token_ordinary json_loads e Hcreds) as Hord.
  pose proof (read_token_ok json_loads e) as Hok.
  destruct (read_token json_loads e) as [token|x]; cbn [ordinary] in Hord.
  - split; [left; reflexivity|]. split; [intros _|reflexivity].
    split; [reflexivity|]. split; [reflexivity|].
    destruct (proj1 (Hok token) eq_refl) as (text & d & H). eauto.
  - rewrite Hord. split; [right; reflexivity|]. split; [discriminate|].
    intros (_ & _ & text & d & token & H).
    assert (Hno : Raise x = Ok token) by (apply Hok; eauto). discriminate.
Qed.

Lemma startup_needs_both_tokens_witness :
  fst (Bot.main Doc.relay_loads (u "123456:ABC") true
         (Doc.relay Doc.no_token_doc 200 []) []) = Ok tt
  \/ fst (Bot.main Doc.relay_loads (u "123456:ABC") true
            (Doc.relay Doc.no_token_doc 200 []) []) = Raise (SystemExit 1).
Proof.
  exact (proj1 (@startup_needs_both_tokens Doc.relay_loads (u "123456:ABC") true
                  (Doc.relay Doc.no_token_doc 200 []) [] eq_refl)).
Defined.

(** ** The refresher computes [perform] *)

Import RefreshQwenToken.

Section RefresherSteps.

Variable json_loads : pystr -> option json.
Variable json_dump : json -> pystr * option exn.

Lemma token_needs_refresh_eq (creds : json) (e : RefreshQwenToken.env)
    (s : RefreshQwenToken.state) :
  token_needs_refresh creds e s =
  let '(r, logs, read) := needs_refresh creds (clock e (ticks s)) in
  (r, {| creds_file := creds_file s;
         ticks := if read then S (ticks s) else ticks s;
         stdout := stdout s ++ logs;
         trace := trace s |}).
Proof.
  unfold token_needs_refresh, needs_refresh, bind, lift, log, modify, ret, time_ms.
  destruct s as [file n out tr]. simpl_state.
  destruct (get creds (u "expiry_date") JNull) as [expiry_date|x]; [|now simpl_state].
  destruct (truthy expiry_date); cbn [negb]; simpl_state; [|reflexivity].
  destruct (sub_int expiry_date (clock e n)) as [d|x]; simpl_state; [|reflexivity].
  destruct (number_truediv d 1000) as [remaining_sec|x]; simpl_state; [|reflexivity].
  destruct (quotient_le_int remaining_sec REFRESH_THRESHOLD_SEC); now simpl_state.
Qed.

Lemma refresh_token_eq (rt : json) (e : RefreshQwenToken.env) (s : RefreshQwenToken.state) :
  refresh_token json_loads rt e s =
  match urlencode rt with
  | Raise x => (Raise x, s)
  | Ok _ =>
      let '(r, logs, evs) := validate json_loads (endpoint e) in
      (r, adds s logs (Urlopen rt :: evs))
  end.
Proof.
  unfold refresh_token. unfold bind at 1, lift at 1.
  destruct (urlencode rt) as [[]|x]; [|reflexivity].
  unfold validate, try_except, bind, lift, log, RefreshQwenToken.emit,
    modify, ret, raise, sys_exit, ask, adds.
  destruct s as [file n out tr]. simpl_state.
  destruct (endpoint e) as [x|[raw|] content_type].
  - destruct x; try now simpl_state.
    destruct ((code =? 400)%Z || (code =? 401)%Z); now simpl_state.
  - simpl_state.
    destruct (contains (u "text/html") _); simpl_state; [reflexivity|].
    destruct (truthy (JStr (strip raw))); cbn [negb]; simpl_state; [|reflexivity].
    destruct (json_loads raw) as [body|]; simpl_state; [|reflexivity].
    destruct (get body (u "status") JNull) as [status|x]; simpl_state; [|reflexivity].
    destruct (ne_str status (u "success")); now simpl_state.
  - now simpl_state.
Qed.

Lemma save_creds_eq (creds : json) (e : env) (s : state) :
  save_creds json_dump creds e s =
  match snd (json_dump creds) with
  | Some x =>
      (Raise x,
       {| creds_file :=
            Some {| text := fst (json_dump creds);
                    mode := match creds_file s with Some old => mode old | None => 420 end |};
          ticks := ticks s;
          stdout := stdout s;
          trace := trace s ++ [FileWrite (fst (json_dump creds))] |})
  | None =>
      (Ok tt,
       {| creds_file := Some {| text := fst (json_dump creds); mode := 384 |};
          ticks := ticks s;
          stdout := stdout s ++ [LogFileUpdated];
          trace := trace s ++ [FileWrite (fst (json_dump creds)); Chmod 384] |})
  end.
Proof.
  unfold save_creds, write_file, chmod, bind, log, emit, modify, raise, ret.
  destruct s as [file n out tr]. simpl_state.
  destruct (snd (json_dump creds)); now simpl_state.
Qed.

Lemma run_eq (e : env) (f : option file) :
  run json_loads json_dump e f = perform json_loads json_dump e f.
Proof.
  unfold run, perform, gate, main, start.
  unfold bind at 1. unfold log at 1, modify. simpl_state.
  unfold bind at 1. unfold load_creds at 1, bind at 1. simpl_state.
  destruct f as [file|]; [|reflexivity].
  destruct (json_loads (text file)) as [creds|]; [|reflexivity].
  unfold ret at 1. simpl_state.
  unfold bind at 1. rewrite token_needs_refresh_eq. simpl_state.
  destruct (needs_refresh creds (clock e 0)) as [[r logs] read].
  destruct r as [[|]|x]; cbn [negb]; simpl_state; [|reflexivity|reflexivity].
  unfold bind at 1, lift at 1.
  destruct (get creds (u "refresh_token") JNull) as [rt|x]; [|reflexivity].
  destruct (truthy rt); cbn [negb]; [|reflexivity].
  unfold bind at 1, log at 1, modify. simpl_state.
  unfold bind at 1. rewrite refresh_token_eq. unfold adds. simpl_state.
  destruct (urlencode rt) as [[]|x]; [|now simpl_state].
  destruct (validate json_loads (endpoint e)) as [[r logs'] evs].
  destruct r as [result|x]; [|now simpl_state].
  unfold finish, build, hours_of, expiry_of.
  unfold bind at 1, lift at 1.
  destruct (getitem result (u "access_token")) as [access_token|x];
    [|now simpl_state].
  unfold bind at 1, lift at 1.
  destruct (get result (u "token_type") (JStr (u "Bearer"))) as [token_type|x];
    [|now simpl_state].
  unfold bind at 1, lift at 1.
  destruct (getitem result (u "refresh_token")) as [refresh_token'|x];
    [|now simpl_state].
  unfold bind at 1, lift at 1.
  destruct (get result (u "resource_url") (JStr (u "portal.qwen.ai"))) as [resource_url|x];
    [|now simpl_state].
  unfold bind at 1, time_ms at 1. simpl_state.
  unfold bind at 1, lift at 1.
  destruct (getitem result (u "expires_in")) as [expires_in|x];
    [|now simpl_state].
  unfold bind at 1, lift at 1.
  destruct (mul_int expires_in 1000) as [ms|x]; [|now simpl_state].
  unfold bind at 1, lift at 1.
  destruct (int_add (clock e (if read then 1%nat else 0%nat)) ms) as [expiry_date|x];
    [|now simpl_state].
  unfold bind at 1. rewrite save_creds_eq. simpl_state.
  destruct (snd (json_dump _)); [now simpl_state|].
  unfold bind at 1, lift at 1.
  unfold bind at 1, lift at 1.
  destruct (json_truediv expires_in 3600) as [hours|x]; [|now simpl_state].
  unfold log, modify. now simpl_state.
Qed.

End RefresherSteps.

Lemma str_eqb_eq (a b : pystr) : str_eqb a b = true <-> a = b.
Proof.
  revert b. induction a as [|x a IH]; intros [|y b]; cbn; split; try easy.
  - rewrite andb_true_iff, N.eqb_eq, IH. now intros [-> ->].
  - intros H. inversion H; subst. rewrite N.eqb_refl. cbn. now apply IH.
Qed.

Lemma truediv_exact (d : Z) (p : positive) :
  (Z.abs d < Z.pos p * FLOAT_OVERFLOW_Z)%Z ->
  truediv d (Z.pos p) = Ok (d # p).
Proof.
  intros Hd. unfold truediv.
  assert (Hq : (inject_Z d / inject_Z (Z.pos p))%Q = (d * 1 # 1 * p)) by reflexivity.
  rewrite Hq, Z.mul_1_r, Pos.mul_1_l.
  destruct (Qle_bool FLOAT_OVERFLOW (Qabs (d # p))) eqn:Hle; [|reflexivity].
  exfalso. apply Qle_bool_iff in Hle.
  unfold Qle, FLOAT_OVERFLOW, inject_Z, Qabs in Hle. cbn [Qnum Qden] in Hle. lia.
Qed.

Lemma truediv_overflow (d : Z) (p : positive) :
  (Z.pos p * FLOAT_OVERFLOW_Z <= Z.abs d)%Z ->
  truediv d (Z.pos p) = Raise OverflowError.
Proof.
  intros Hd. unfold truediv.
  assert (Hq : (inject_Z d / inject_Z (Z.pos p))%Q = (d * 1 # 1 * p)) by reflexivity.
  rewrite Hq, Z.mul_1_r, Pos.mul_1_l.
  destruct (Qle_bool FLOAT_OVERFLOW (Qabs (d # p))) eqn:Hle; [reflexivity|].
  exfalso. assert (Hno : ~ (FLOAT_OVERFLOW <= Qabs (d # p))%Q).
  { intros H. apply Qle_bool_iff in H. congruence. }
  apply Hno. unfold Qle, FLOAT_OVERFLOW, inject_Z, Qabs. cbn [Qnum Qden]. lia.
Qed.

Lemma remaining_le_threshold (d : Z) :
  quotient_le_int (Exact (d # 1000)) REFRESH_THRESHOLD_SEC = (d <=? 7200000)%Z.
Proof.
  unfold quotient_le_int, Qle_bool, REFRESH_THRESHOLD_SEC, inject_Z. cbn [Qnum Qden].
  destruct (Z.leb_spec (d * 1) (7200 * 1000)), (Z.leb_spec d 7200000); lia || reflexivity.
Qed.

Lemma integer_is_truthy (v : json) (z : Z) :
  as_number v = Some (Int z) -> truthy v = negb (z =? 0)%Z.
Proof.
  destruct v as [|[|]|z'|x|s|l|d]; cbn; intros H; inversion H; reflexivity.
Qed.

Lemma expiry_of_integer (now_ms : Z) (v : json) (z : Z) :
  as_number v = Some (Int z) -> expiry_of now_ms v = Ok (JInt (now_ms + z * 1000)).
Proof.
  destruct v as [|[|]|z'|x|s|l|d]; cbn; intros H; inversion H; reflexivity.
Qed.

Lemma expiry_of_not_a_number (now_ms : Z) (v : json) :
  as_number v = None -> expiry_of now_ms v = Raise TypeError.
Proof. destruct v as [|[|]|z'|x|s|l|d]; cbn; intros H; inversion H; reflexivity. Qed.

Section RefresherFacts.

Variable json_loads : pystr -> option json.

Lemma ne_str_false (v : json) (lit : pystr) : ne_str v lit = false <-> v = JStr lit.
Proof.
  destruct v; cbn; split; try easy.
  - rewrite negb_false_iff, str_eqb_eq. now intros ->.
  - intros H. inversion H. rewrite negb_false_iff. now apply str_eqb_eq.
Qed.

Lemma status_success (d : list (pystr * json)) :
  ne_str (match lookup (u "status") d with Some x => x | None => JNull end) (u "success")
  = false
  <-> lookup (u "status") d = Some (JStr (u "success")).
Proof.
  rewrite ne_str_false. destruct (lookup (u "status") d); split; congruence.
Qed.

Lemma validate_failing (r : urlopen_result) :
  failing_response json_loads r ->
  exists logs evs,
    validate json_loads r = (Raise (SystemExit 1), logs, evs)
    /\ (evs = [] \/ exists raw, evs = [JsonLoads raw]).
Proof.
  assert (Hfin : forall (logs : list log_msg) (evs : list event),
            evs = [] \/ (exists raw, evs = [JsonLoads raw]) ->
            exists logs' evs',
              (Raise (SystemExit 1) : Py.result json, logs, evs)
              = (Raise (SystemExit 1), logs', evs')
              /\ (evs' = [] \/ exists raw, evs' = [JsonLoads raw])) by eauto.
  intros [code error_body|raw ct Hhtml|raw ct Hblank|raw ct Hbad|raw ct d Hd Hstatus];
    unfold validate.
  - apply Hfin; auto.
  - rewrite Hhtml. apply Hfin; auto.
  - rewrite Hblank. destruct (contains _ _); apply Hfin; auto.
  - rewrite Hbad.
    destruct (contains _ _); [apply Hfin; auto|]. destruct (negb _); apply Hfin; eauto.
  - rewrite Hd. cbn [get].
    destruct (ne_str _ _) eqn:Hne; [|apply status_success in Hne; contradiction].
    destruct (contains _ _); [apply Hfin; auto|]. destruct (negb _); apply Hfin; eauto.
Qed.

Lemma validate_ok (r : urlopen_result) (body : json) (logs : list log_msg)
    (evs : list event) :
  validate json_loads r = (Ok body, logs, evs) ->
  exists raw content_type d,
    r = UrlResponse (Some raw) content_type
    /\ contains (u "text/html") (match content_type with Some c => c | None => [] end) = false
    /\ strip raw <> []
    /\ json_loads raw = Some (JDict d)
    /\ lookup (u "status") d = Some (JStr (u "success"))
    /\ body = JDict d /\ logs = [] /\ evs = [JsonLoads raw].
Proof.
  unfold validate.
  destruct r as [x|[raw|] ct]; [destruct x; discriminate| |discriminate].
  destruct (contains _ _) eqn:Hhtml; [discriminate|].
  destruct (strip raw) as [|c rest] eqn:Hstrip; cbn [truthy negb]; [discriminate|].
  destruct (json_loads raw) as [v|] eqn:Hv; [|discriminate].
  destruct v; cbn [get]; try discriminate.
  destruct (ne_str _ _) eqn:Hne; [discriminate|].
  apply status_success in Hne.
  intros H. inversion H; subst. exists raw, ct, d.
  split; [reflexivity|]. split; [assumption|]. split; [rewrite Hstrip; discriminate|].
  split; [assumption|]. split; [assumption|]. auto.
Qed.

Lemma validate_events (r : urlopen_result) (res : Py.result json)
    (logs : list log_msg) (evs : list event) :
  validate json_loads r = (res, logs, evs) ->
  evs = [] \/ exists raw, evs = [JsonLoads raw].
Proof.
  unfold validate. intros H.
  destruct r as [x|[raw|] ct]; [destruct x; inversion H; auto| |inversion H; auto].
  destruct (contains _ _); [inversion H; auto|].
  destruct (negb _); [inversion H; auto|].
  destruct (json_loads raw) as [v|]; [|inversion H; eauto].
  destruct (get v (u "status") JNull); [|inversion H; eauto].
  destruct (ne_str _ _); inversion H; eauto.
Qed.

Lemma validate_success (raw : pystr) (content_type : option pystr)
    (d : list (pystr * json)) :
  contains (u "text/html") (match content_type with Some c => c | None => [] end) = false ->
  strip raw <> [] ->
  json_loads raw = Some (JDict d) ->
  lookup (u "status") d = Some (JStr (u "success")) ->
  validate json_loads (UrlResponse (Some raw) content_type)
  = (Ok (JDict d), [], [JsonLoads raw]).
Proof.
  intros Hhtml Hstrip Hd Hstatus. unfold validate.
  rewrite Hhtml, Hd. cbn [get].
  apply status_success in Hstatus. rewrite Hstatus.
  destruct (strip raw); [contradiction|reflexivity].
Qed.

Lemma validate_accepts (r : urlopen_result) (raw : pystr) (content_type : option pystr)
    (d : list (pystr * json)) (body : json) (logs : list log_msg) (evs : list event) :
  r = UrlResponse (Some raw) content_type ->
  json_loads raw = Some (JDict d) ->
  validate json_loads r = (Ok body, logs, evs) ->
  body = JDict d /\ logs = [] /\ evs = [JsonLoads raw].
Proof.
  intros Hr Hd Hv.
  destruct (validate_ok _ Hv) as (raw' & ct' & d' & Hr' & _ & _ & Hd' & _ & -> & -> & ->).
  rewrite Hr in Hr'. inversion Hr'; subst raw' ct'.
  rewrite Hd in Hd'. inversion Hd'; subst d'. auto.
Qed.

Lemma build_fields (d : list (pystr * json)) (now_ms : Z) :
  build (JDict d) now_ms =
  match lookup (u "access_token") d, lookup (u "refresh_token") d, lookup (u "expires_in") d with
  | Some access_token, Some refresh_token', Some expires_in =>
      match expiry_of now_ms expires_in with
      | Ok expiry_date => Ok (credential d access_token refresh_token' expiry_date)
      | Raise x => Raise x
      end
  | _, _, _ => Raise KeyError
  end.
Proof.
  unfold build. cbn [getitem get].
  destruct (lookup (u "access_token") d); [|reflexivity].
  destruct (lookup (u "refresh_token") d); [|reflexivity].
  destruct (lookup (u "expires_in") d) as [expires_in|]; [|reflexivity].
  destruct (expiry_of now_ms expires_in); reflexivity.
Qed.

Lemma build_keys (result : json) (now_ms : Z) (new_creds : json) :
  build result now_ms = Ok new_creds ->
  exists access_token token_type refresh_token' resource_url expiry_date,
    new_creds = JDict [(u "access_token", access_token);
                       (u "token_type", token_type);
                       (u "refresh_token", refresh_token');
                       (u "resource_url", resource_url);
                       (u "expiry_date", expiry_date)].
Proof.
  unfold build.
  repeat match goal with
         | |- context [match ?x with Ok _ => _ | Raise _ => _ end] =>
             destruct x; [|discriminate]
         end.
  intros H. inversion H. eauto 10.
Qed.

Lemma get_ordinary (v : json) (k : pystr) (default : json) :
  ordinary (get v k default) = true.
Proof. destruct v; reflexivity. Qed.

Lemma float_of_int_ordinary (n : Z) : ordinary (float_of_int n) = true.
Proof. unfold float_of_int. destruct (SpecFloat.binary_normalize _ _ _ _ _); reflexivity. Qed.

Lemma int_add_ordinary (n : Z) (v : json) : ordinary (int_add n v) = true.
Proof.
  unfold int_add. destruct (as_number v) as [[z|x]|]; try reflexivity.
  pose proof (float_of_int_ordinary n) as H. destruct (float_of_int n); [reflexivity|exact H].
Qed.

Lemma expiry_of_ordinary (now_ms : Z) (v : json) : ordinary (expiry_of now_ms v) = true.
Proof.
  unfold expiry_of.
  assert (Hmul : ordinary (mul_int v 1000) = true).
  { destruct v; reflexivity. }
  destruct (mul_int v 1000) as [ms|x]; [apply int_add_ordinary|exact Hmul].
Qed.

Lemma build_ordinary (result : json) (now_ms : Z) : ordinary (build result now_ms) = true.
Proof.
  unfold build.
  pose proof (getitem_ordinary result (u "access_token")) as H1.
  destruct (getitem result (u "access_token")); [|exact H1].
  pose proof (get_ordinary result (u "token_type") (JStr (u "Bearer"))) as H2.
  destruct (get result (u "token_type") (JStr (u "Bearer"))); [|exact H2].
  pose proof (getitem_ordinary result (u "refresh_token")) as H3.
  destruct (getitem result (u "refresh_token")); [|exact H3].
  pose proof (get_ordinary result (u "resource_url") (JStr (u "portal.qwen.ai"))) as H4.
  destruct (get result (u "resource_url") (JStr (u "portal.qwen.ai"))); [|exact H4].
  pose proof (getitem_ordinary result (u "expires_in")) as H5.
  destruct (getitem result (u "expires_in")) as [expires_in|]; [|exact H5].
  pose proof (expiry_of_ordinary now_ms expires_in) as H6.
  destruct (expiry_of now_ms expires_in); [reflexivity|exact H6].
Qed.

End RefresherFacts.

Section RefresherRuns.

Variable json_loads : pystr -> option json.
Variable json_dump : json -> pystr * option exn.

Lemma gate_ticks (f : option file) (now_ms : Z) :
  (snd (gate json_loads f now_ms) = 0 \/ snd (gate json_loads f now_ms) = 1)%nat.
Proof.
  unfold gate. destruct f as [file|]; [|auto].
  destruct (json_loads (text file)) as [creds|]; [|auto].
  destruct (needs_refresh creds now_ms) as [[r logs] read].
  destruct r as [[|]|x]; [|destruct read; auto|destruct read; auto].
  destruct (get creds (u "refresh_token") JNull) as [rt|x]; [|destruct read; auto].
  destruct (negb (truthy rt)); [destruct read; auto|].
  destruct (urlencode rt); destruct read; auto.
Qed.

Lemma run_ran (e : env) (f : option file) :
  ran json_loads json_dump e f (run json_loads json_dump e f).
Proof.
  rewrite run_eq. unfold perform.
  pose proof (gate_ticks f (clock e 0)) as Hn.
  destruct (gate json_loads f (clock e 0)) as [[g logs] n]. cbn [snd] in Hn.
  destruct g as [|rt|x]; [apply RanNoRequest; reflexivity| |apply RanNoRequest; reflexivity].
  destruct (validate json_loads (endpoint e)) as [[r logs'] evs] eqn:Hv.
  destruct r as [result|x];
    [|eapply RanRefused; [exact Hv|reflexivity..|now exists logs]].
  unfold finish.
  destruct (build result (clock e n)) as [new_creds|x] eqn:Hb;
    [|eapply RanUnusable; [exact Hv|exact Hb|reflexivity..]].
  destruct (snd (json_dump new_creds)) as [x|] eqn:Hdump;
    [eapply RanTruncated; [exact Hv|exact Hn|exact Hb|exact Hdump|reflexivity..]|].
  destruct (hours_of result);
    (eapply RanSaved; [exact Hv|exact Hn|exact Hb|exact Hdump|reflexivity..]).
Qed.

End RefresherRuns.
(** ** The token refresher *)

Section RefresherGate.

Variable json_loads : pystr -> option json.
Variable json_dump : json -> pystr * option exn.

Lemma needs_refresh_falsy (d : list (pystr * json)) (now_ms : Z) :
  match lookup (u "expiry_date") d with Some v => truthy v | None => false end = false ->
  needs_refresh (JDict d) now_ms = (Ok true, [LogNoExpiry], false).
Proof.
  intros H. unfold needs_refresh. cbn [get].
  destruct (lookup (u "expiry_date") d) as [v|]; [rewrite H|]; reflexivity.
Qed.

Lemma needs_refresh_int (d : list (pystr * json)) (v : json) (expiry_date now_ms : Z) :
  lookup (u "expiry_date") d = Some v ->
  as_number v = Some (Int expiry_date) ->
  expiry_date <> 0%Z ->
  (Z.abs (expiry_date - now_ms) < 1000 * FLOAT_OVERFLOW_Z)%Z ->
  needs_refresh (JDict d) now_ms =
  if (expiry_date - now_ms <=? 7200000)%Z
  then (Ok true, [LogExpiresSoon (Exact (expiry_date - now_ms # 1000))], true)
  else (Ok false, [LogStillValid (Exact (expiry_date - now_ms # 1000))], true).
Proof.
  intros Hd Hv Hnz Hrange. unfold needs_refresh. cbn [get]. rewrite Hd.
  rewrite (integer_is_truthy _ Hv).
  destruct (Z.eqb_spec expiry_date 0); [contradiction|]. cbn [negb].
  unfold sub_int. rewrite Hv. unfold number_truediv.
  rewrite (truediv_exact (p := 1000) _ Hrange), remaining_le_threshold.
  destruct (_ <=? _)%Z; reflexivity.
Qed.

Lemma needs_refresh_float (d : list (pystr * json)) (x remaining_sec : float) (now_ms : Z) :
  lookup (u "expiry_date") d = Some (JFloat x) ->
  truthy (JFloat x) = true ->
  remaining_sec_of x now_ms = Ok remaining_sec ->
  needs_refresh (JDict d) now_ms =
  if float_le_int remaining_sec 7200
  then (Ok true, [LogExpiresSoon (Binary64 remaining_sec)], true)
  else (Ok false, [LogStillValid (Binary64 remaining_sec)], true).
Proof.
  intros Hd Htruthy. unfold needs_refresh, remaining_sec_of. cbn [get].
  rewrite Hd, Htruthy. cbn [negb].
  unfold sub_int, number_truediv. cbn [as_number].
  destruct (float_of_int now_ms) as [now|]; [|discriminate].
  destruct (float_of_int 1000) as [thousand|]; [|discriminate].
  intros H. inversion H; subst remaining_sec. reflexivity.
Qed.

Lemma perform_stale (e : env) (f : option file) (rt : json) (logs : list log_msg) (n : nat) :
  gate json_loads f (clock e 0) = (Stale rt, logs, n) ->
  (exists evs, events (perform json_loads json_dump e f) = Urlopen rt :: evs)
  /\ (exists rest, printed (perform json_loads json_dump e f) = logs ++ rest).
Proof.
  intros Hg. unfold perform. rewrite Hg.
  destruct (validate json_loads (endpoint e)) as [[r logs'] evs].
  destruct r as [result|x]; [|split; eexists; reflexivity].
  unfold finish. destruct (build result (clock e n)); [|split; eexists; reflexivity].
  destruct (snd (json_dump _));
    [split; eexists; cbn [events printed]; rewrite <- ?app_assoc; reflexivity|].
  destruct (hours_of result); split; eexists; cbn [events printed];
    rewrite <- ?app_assoc; reflexivity.
Qed.

Lemma urlencode_raises (rt : json) (x : exn) :
  urlencode rt = Raise x -> x = UnicodeEncodeError.
Proof.
  destruct rt; try discriminate. cbn [urlencode].
  destruct (encodable s); [discriminate|]. intros H. now inversion H.
Qed.

Lemma gate_refresh_token (file : file) (d : list (pystr * json)) (now_ms : Z)
    (logs : list log_msg) (read : bool) :
  json_loads (text file) = Some (JDict d) ->
  needs_refresh (JDict d) now_ms = (Ok true, logs, read) ->
  gate json_loads (Some file) now_ms =
  match lookup (u "refresh_token") d with
  | Some rt =>
      if truthy rt
      then
        match urlencode rt with
        | Ok _ => (Stale rt, LogCheck :: logs ++ [LogSending], if read then 1%nat else 0%nat)
        | Raise x => (Stop x, LogCheck :: logs ++ [LogSending], if read then 1%nat else 0%nat)
        end
      else (Stop (SystemExit 1), LogCheck :: logs ++ [LogNoRefreshToken],
            if read then 1%nat else 0%nat)
  | None => (Stop (SystemExit 1), LogCheck :: logs ++ [LogNoRefreshToken],
             if read then 1%nat else 0%nat)
  end.
Proof.
  intros Hd Hneeds. unfold gate. rewrite Hd, Hneeds. cbn [get].
  destruct (lookup (u "refresh_token") d) as [rt|]; [|reflexivity].
  destruct (truthy rt); [|reflexivity].
  destruct (urlencode rt); reflexivity.
Qed.

Lemma fresh_run (e : env) (file : file) (d : list (pystr * json)) (logs : list log_msg)
    (read : bool) :
  json_loads (text file) = Some (JDict d) ->
  needs_refresh (JDict d) (clock e 0) = (Ok false, logs, read) ->
  stays_fresh (run json_loads json_dump e (Some file)) file.
Proof.
  intros Hd Hneeds. rewrite run_eq. unfold perform, gate. rewrite Hd, Hneeds.
  repeat split.
Qed.

Lemma stale_run (e : env) (file : file) (d : list (pystr * json)) (logs : list log_msg)
    (read : bool) :
  json_loads (text file) = Some (JDict d) ->
  needs_refresh (JDict d) (clock e 0) = (Ok true, logs, read) ->
  goes_on_to_refresh (run json_loads json_dump e (Some file)) file d
  /\ exists rest,
       printed (run json_loads json_dump e (Some file)) = LogCheck :: logs ++ rest.
Proof.
  intros Hd Hneeds. rewrite run_eq.
  pose proof (gate_refresh_token file _ Hd Hneeds) as Hgate.
  split; [split; [|split]|].
  - intros rt Hrt Htruthy Hencode. rewrite Hrt, Htruthy, Hencode in Hgate.
    apply (perform_stale _ _ Hgate).
  - intros Hno. unfold perform.
    destruct (lookup (u "refresh_token") d) as [rt|];
      [rewrite Hno in Hgate|]; rewrite Hgate; repeat split.
  - intros rt x Hrt Htruthy Hencode. rewrite Hrt, Htruthy, Hencode in Hgate.
    unfold perform. rewrite Hgate. rewrite (urlencode_raises _ Hencode). repeat split.
  - unfold perform.
    destruct (lookup (u "refresh_token") d) as [rt|];
      [destruct (truthy rt); [destruct (urlencode rt) eqn:Hencode|]|];
      try (rewrite Hgate; cbn [printed]; eexists; reflexivity).
    destruct (perform_stale _ _ Hgate) as (_ & rest & Hrest).
    fold (perform json_loads json_dump e (Some file)). rewrite Hrest.
    cbn [app]. rewrite <- app_assoc. eexists. reflexivity.
Qed.

End RefresherGate.

(** C1: whatever the store and the clock, when the endpoint gives a
    failing answer (an HTTP error status, an HTML content type, an empty
    body, a body that is not JSON, a JSON object whose status is not
    "success") the store is left as it was, the process neither writes
    nor changes the permissions of the file, and, once it has sent the
    request, it exits with status 1.  And the store is written only
    after [refresh_token] accepted the answer: a decoded body with no
    HTML content type, not blank, a JSON object with status "success";
    the write is then the last thing the process does to the store but
    for the change of its mode. *)
Theorem failing_refresh_keeps_store
    (json_loads : pystr -> option json) (json_dump : json -> pystr * option exn)
    (e : env) (f : option file) :
  let out := run json_loads json_dump e f in
  (failing_response json_loads (endpoint e) ->
   store out = f
   /\ (forall ev, In ev (events out) ->
       (exists rt, ev = Urlopen rt) \/ (exists raw, ev = JsonLoads raw))
   /\ ((exists rt, In (Urlopen rt) (events out)) -> status out = 1%Z))
  /\ ((exists written, In (FileWrite written) (events out)) ->
      exists rt raw content_type d,
        endpoint e = UrlResponse (Some raw) content_type
        /\ contains (u "text/html")
             (match content_type with Some c => c | None => [] end) = false
        /\ strip raw <> []
        /\ json_loads raw = Some (JDict d)
        /\ lookup (u "status") d = Some (JStr (u "success"))
        /\ exists written,
             events out = [Urlopen rt; JsonLoads raw; FileWrite written; Chmod 384]
             \/ events out = [Urlopen rt; JsonLoads raw; FileWrite written]).
Proof.
  intros out. pose proof (run_ran json_loads json_dump e f) as Hran. fold out in Hran.
  split.
  - intros Hfail.
    destruct (validate_failing Hfail) as (logs0 & evs0 & Hv0 & Hevs0).
    destruct Hran as [Hev Hst|rt x logs evs Hv Hev Hst Hex _
                     |rt result logs evs n x Hv _ _ _ _
                     |rt result logs evs n new_creds x Hv _ _ _ _ _ _
                     |rt result logs evs n new_creds Hv _ _ _ _ _];
      try (rewrite Hv0 in Hv; discriminate).
    + rewrite Hev. split; [assumption|]. split; [intros ev []|intros [rt []]].
    + rewrite Hv0 in Hv. inversion Hv; subst x logs evs. rewrite Hev.
      split; [assumption|]. split; [|intros _; assumption].
      intros ev [<-|Hin]; [eauto|].
      destruct Hevs0 as [->|[raw ->]]; [destruct Hin|].
      destruct Hin as [<-|[]]. eauto.
  - intros [written Hin].
    destruct Hran as [Hev Hst|rt x logs evs Hv Hev Hst Hex _
                     |rt result logs evs n x Hv _ Hev _ _
                     |rt result logs evs n new_creds x Hv _ _ _ Hev _ _
                     |rt result logs evs n new_creds Hv _ _ _ Hev _];
      rewrite Hev in Hin.
    + destruct Hin.
    + destruct (validate_events _ _ Hv) as [->|[raw ->]];
        repeat (destruct Hin as [Hin|Hin]; [discriminate|]); destruct Hin.
    + destruct (validate_events _ _ Hv) as [->|[raw ->]];
        repeat (destruct Hin as [Hin|Hin]; [discriminate|]); destruct Hin.
    + destruct (validate_ok _ _ Hv) as (raw & ct & d & Hr & Hhtml & Hstrip & Hd & Hstatus
                                       & _ & _ & ->).
      exists rt, raw, ct, d. repeat (split; [assumption|]).
      rewrite Hev. eexists. right. reflexivity.
    + destruct (validate_ok _ _ Hv) as (raw & ct & d & Hr & Hhtml & Hstrip & Hd & Hstatus
                                       & _ & _ & ->).
      exists rt, raw, ct, d. repeat (split; [assumption|]).
      rewrite Hev. eexists. left. reflexivity.
Qed.

Lemma failing_refresh_keeps_store_witness :
  store (run Doc.loads Doc.dump (Doc.refresher (UrlRaises (HTTPError 401 (u "Unauthorized"))))
           (Doc.stored Doc.stale_doc)) = Doc.stored Doc.stale_doc
  /\ status (run Doc.loads Doc.dump
               (Doc.refresher (UrlRaises (HTTPError 401 (u "Unauthorized"))))
               (Doc.stored Doc.stale_doc)) = 1%Z.
Proof.
  destruct (failing_refresh_keeps_store Doc.loads Doc.dump
              (Doc.refresher (UrlRaises (HTTPError 401 (u "Unauthorized"))))
              (Doc.stored Doc.stale_doc)) as [Hfail _].
  destruct Hfail as (Hstore & _ & Hstatus); [apply FailStatus|].
  split; [exact Hstore|]. apply Hstatus.
  exists (JStr (u "r1")). vm_compute. left. reflexivity.
Defined.

(** C3, as the code has it, for a clock after the epoch.  Take a
    credential whose [expiry_date] is an integer (zero included; a
    boolean counts as 0 or 1), with [expiry_date - now_ms] within the
    range of a float once divided by 1000.  If
    [expiry_date - now_ms > 7200000] the process sends no request, leaves
    the store as it is and exits with status 0.  If
    [expiry_date - now_ms <= 7200000] it goes on to the refresh: with a
    truthy [refresh_token] that [urlencode] accepts the request is sent;
    with an absent or falsy one the process exits with status 1, having
    sent nothing and written nothing.  For an [expiry_date] that is a
    [float] the same holds of the comparison that Python makes, on the
    binary64 [(expiry_date - float(now_ms)) / 1000.0]. *)
Theorem token_is_refreshed_below_threshold
    (json_loads : pystr -> option json) (json_dump : json -> pystr * option exn)
    (e : env) (file : file) (d : list (pystr * json)) (v : json) :
  json_loads (text file) = Some (JDict d) ->
  lookup (u "expiry_date") d = Some v ->
  (0 <= clock e 0)%Z ->
  let out := run json_loads json_dump e (Some file) in
  (forall expiry_date,
     as_number v = Some (Int expiry_date) ->
     (Z.abs (expiry_date - clock e 0) < 1000 * FLOAT_OVERFLOW_Z)%Z ->
     ((7200000 < expiry_date - clock e 0)%Z -> stays_fresh out file)
     /\ ((expiry_date - clock e 0 <= 7200000)%Z -> goes_on_to_refresh out file d))
  /\ (forall x remaining_sec,
        v = JFloat x ->
        truthy v = true ->
        remaining_sec_of x (clock e 0) = Ok remaining_sec ->
        (float_le_int remaining_sec 7200 = false -> stays_fresh out file)
        /\ (float_le_int remaining_sec 7200 = true -> goes_on_to_refresh out file d)).
Proof.
  intros Hd Hexp Hclock out. subst out. split.
  - intros expiry_date Hv Hrange.
    destruct (Z.eq_dec expiry_date 0) as [->|Hnz].
    + split; [lia|]. intros _.
      refine (proj1 (@stale_run json_loads json_dump e file d [LogNoExpiry] false Hd _)).
      apply needs_refresh_falsy. rewrite Hexp, (integer_is_truthy _ Hv). reflexivity.
    + pose proof (needs_refresh_int _ _ Hexp Hv Hnz Hrange) as Hneeds.
      split.
      * intros Hfresh.
        destruct (Z.leb_spec (expiry_date - clock e 0) 7200000) as [|_]; [lia|].
        exact (@fresh_run json_loads json_dump e file d _ _ Hd Hneeds).
      * intros Hstale.
        destruct (Z.leb_spec (expiry_date - clock e 0) 7200000) as [_|]; [|lia].
        exact (proj1 (@stale_run json_loads json_dump e file d _ _ Hd Hneeds)).
  - intros x remaining_sec -> Htruthy Hrem.
    pose proof (needs_refresh_float _ _ Hexp Htruthy Hrem) as Hneeds.
    split; intros Hle; rewrite Hle in Hneeds.
    + exact (@fresh_run json_loads json_dump e file d _ _ Hd Hneeds).
    + exact (proj1 (@stale_run json_loads json_dump e file d _ _ Hd Hneeds)).
Qed.

Lemma token_is_refreshed_below_threshold_witness :
  stays_fresh
    (run Doc.loads Doc.dump (Doc.refresher (UrlRaises (URLError [])))
       (Some {| text := Doc.fresh_doc; mode := 420 |}))
    {| text := Doc.fresh_doc; mode := 420 |}
  /\ goes_on_to_refresh
       (run Doc.loads Doc.dump (Doc.refresher (UrlRaises (URLError [])))
          (Some {| text := Doc.stale_doc; mode := 420 |}))
       {| text := Doc.stale_doc; mode := 420 |}
       [(u "access_token", JStr (u "old")); (u "refresh_token", JStr (u "r1"));
        (u "expiry_date", JInt 1000); (u "scope", JStr (u "openid"))].
Proof.
  split.
  - refine (proj1 (proj1 (@token_is_refreshed_below_threshold Doc.loads Doc.dump
                      (Doc.refresher (UrlRaises (URLError [])))
                      {| text := Doc.fresh_doc; mode := 420 |}
                      [(u "access_token", JStr (u "old")); (u "refresh_token", JStr (u "r1"));
                       (u "expiry_date", JInt 1700010000000)]
                      (JInt 1700010000000) _ _ _) 1700010000000%Z _ _) _).
    + vm_compute. reflexivity.
    + vm_compute. reflexivity.
    + vm_compute. discriminate.
    + reflexivity.
    + vm_compute. reflexivity.
    + vm_compute. reflexivity.
  - refine (proj2 (proj1 (@token_is_refreshed_below_threshold Doc.loads Doc.dump
                      (Doc.refresher (UrlRaises (URLError [])))
                      {| text := Doc.stale_doc; mode := 420 |}
                      [(u "access_token", JStr (u "old")); (u "refresh_token", JStr (u "r1"));
                       (u "expiry_date", JInt 1000); (u "scope", JStr (u "openid"))]
                      (JInt 1000) _ _ _) 1000%Z _ _) _).
    + vm_compute. reflexivity.
    + vm_compute. reflexivity.
    + vm_compute. discriminate.
    + reflexivity.
    + vm_compute. reflexivity.
    + vm_compute. discriminate.
Defined.

(** C3, counterexamples to the statement as it stands.  A stale token
    (expiry 1000, clock 1700000000000) with no [refresh_token] in the
    store: the process asks for a new authorization and exits with
    status 1 without any request.  A stale token whose [refresh_token]
    is a lone surrogate: [urlencode] raises and no request is made.  A
    token whose expiry date is [10 ** 400]: the division by 1000
    overflows, and the process ends with status 1 instead of exiting
    successfully.  And an expiry date that is the [float] [2.0 ** 60]
    when the clock reads [2 ** 60 - 7200001]: 7200001 ms remain, but the
    clock is rounded to [2.0 ** 60 - 7200000] and the request is sent. *)
Lemma stale_token_without_refresh_token_sends_nothing :
  (1000 - 1700000000000 <= 7200000)%Z
  /\ run Doc.loads Doc.dump (Doc.refresher (UrlResponse (Some Doc.success_doc) None))
       (Doc.stored Doc.no_refresh_token_doc)
     = {| status := 1;
          store := Doc.stored Doc.no_refresh_token_doc;
          printed := [LogCheck; LogExpiresSoon (Exact (-1699999999000 # 1000));
                      LogNoRefreshToken];
          events := [] |}
  /\ run Doc.loads Doc.dump (Doc.refresher (UrlResponse (Some Doc.success_doc) None))
       (Doc.stored Doc.surrogate_token_doc)
     = {| status := 1;
          store := Doc.stored Doc.surrogate_token_doc;
          printed := [LogCheck; LogExpiresSoon (Exact (-1699999999000 # 1000)); LogSending];
          events := [] |}
  /\ (7200000 < 10 ^ 400 - 1700000000000)%Z
  /\ run Doc.loads Doc.dump (Doc.refresher (UrlResponse (Some Doc.success_doc) None))
       (Doc.stored Doc.far_doc)
     = {| status := 1;
          store := Doc.stored Doc.far_doc;
          printed := [LogCheck];
          events := [] |}
  /\ (4503599627370496 * 2 ^ 8 = 2 ^ 60)%Z
  /\ (7200000 < 2 ^ 60 - 1152921504599646975)%Z
  /\ run Doc.loads Doc.dump (Doc.refresher_at 1152921504599646975 (UrlRaises (URLError [])))
       (Doc.stored Doc.float_expiry_doc)
     = {| status := 1;
          store := Doc.stored Doc.float_expiry_doc;
          printed := [LogCheck;
                      LogExpiresSoon
                        (Binary64 (SpecFloat.S754_finite false 7916483719987200 (-40)));
                      LogSending; LogNetwork []];
          events := [Urlopen (JStr (u "r1"))] |}.
Proof.
  split; [lia|]. split; [vm_compute; reflexivity|]. split; [vm_compute; reflexivity|].
  split; [vm_compute; reflexivity|]. split; [vm_compute; reflexivity|].
  split; [reflexivity|]. split; vm_compute; reflexivity.
Qed.

(** C9, as the code has it: when [expiry_date] is absent from the
    credential, or holds a falsy value (null, 0, 0.0, false, an empty
    string, list or object), [token_needs_refresh] prints its notice and
    returns true without reading the clock, and the refresher treats the
    token as stale: it goes on to the refresh, where the request is sent
    with a truthy [refresh_token] that [urlencode] accepts, and the
    process exits with status 1, without any request, when the
    [refresh_token] is absent or falsy. *)
Theorem absent_expiry_date_needs_refresh
    (e : env) (s : state) (d : list (pystr * json)) :
  match lookup (u "expiry_date") d with Some v => truthy v | None => false end = false ->
  token_needs_refresh (JDict d) e s
  = (Ok true,
     {| creds_file := creds_file s; ticks := ticks s;
        stdout := stdout s ++ [LogNoExpiry]; trace := trace s |})
  /\ forall (json_loads : pystr -> option json) (json_dump : json -> pystr * option exn)
            (file : file),
       json_loads (text file) = Some (JDict d) ->
       (exists rest,
          printed (run json_loads json_dump e (Some file)) = LogCheck :: LogNoExpiry :: rest)
       /\ goes_on_to_refresh (run json_loads json_dump e (Some file)) file d.
Proof.
  intros Hfalsy. split.
  - rewrite token_needs_refresh_eq, (needs_refresh_falsy _ _ Hfalsy). reflexivity.
  - intros json_loads json_dump file Hd.
    destruct (@stale_run json_loads json_dump e file d [LogNoExpiry] false Hd
                (needs_refresh_falsy _ _ Hfalsy)) as (Hgoes & rest & Hrest).
    split; [|exact Hgoes]. exists rest. exact Hrest.
Qed.

Lemma absent_expiry_date_needs_refresh_witness :
  token_needs_refresh
    (JDict [(u "access_token", JStr (u "old")); (u "refresh_token", JStr (u "r1"))])
    (Doc.refresher (UrlRaises (URLError [])))
    (start (Doc.stored Doc.no_expiry_doc))
  = (Ok true,
     {| creds_file := Doc.stored Doc.no_expiry_doc; ticks := 0;
        stdout := [] ++ [LogNoExpiry]; trace := [] |})
  /\ exists evs,
       events (run Doc.loads Doc.dump (Doc.refresher (UrlRaises (URLError [])))
                 (Some {| text := Doc.no_expiry_doc; mode := 420 |}))
       = Urlopen (JStr (u "r1")) :: evs.
Proof.
  destruct (@absent_expiry_date_needs_refresh
              (Doc.refresher (UrlRaises (URLError [])))
              (start (Doc.stored Doc.no_expiry_doc))
              [(u "access_token", JStr (u "old")); (u "refresh_token", JStr (u "r1"))])
    as (Hneeds & Hrun).
  - vm_compute. reflexivity.
  - split; [exact Hneeds|].
    destruct (Hrun Doc.loads Doc.dump {| text := Doc.no_expiry_doc; mode := 420 |})
      as (_ & Hsends & _).
    + vm_compute. reflexivity.
    + apply Hsends; vm_compute; reflexivity.
Defined.

(** C9, counterexample to the statement for every credential: a store
    that holds neither [expiry_date] nor [refresh_token].  The token is
    taken as stale, but no refresh is attempted: the process asks for a
    new authorization and exits with status 1 without any request. *)
Lemma absent_expiry_date_without_refresh_token_fails :
  lookup (u "expiry_date") [(u "access_token", JStr (u "old"))] = None
  /\ run Doc.loads Doc.dump (Doc.refresher (UrlResponse (Some Doc.success_doc) None))
       (Doc.stored Doc.bare_doc)
     = {| status := 1;
          store := Doc.stored Doc.bare_doc;
          printed := [LogCheck; LogNoExpiry; LogNoRefreshToken];
          events := [] |}.
Proof. split; vm_compute; reflexivity. Qed.

Section RefresherOutcomes.

Variable json_loads : pystr -> option json.
Variable json_dump : json -> pystr * option exn.

Lemma stale_events (e : env) (f : option file) (rt : json) (logs : list log_msg) (n : nat) :
  gate json_loads f (clock e 0) = (Stale rt, logs, n) ->
  exists tail,
    events (perform json_loads json_dump e f) = Urlopen rt :: tail
    /\ forall rt', ~ In (Urlopen rt') tail.
Proof.
  intros Hgate. unfold perform. rewrite Hgate.
  destruct (validate json_loads (endpoint e)) as [[r logs'] evs] eqn:Hv.
  assert (Hevs : forall rt' tail,
            (forall ev, In ev tail -> ev = Chmod 384 \/ exists t, ev = FileWrite t) ->
            ~ In (Urlopen rt') (evs ++ tail)).
  { intros rt' tail Htail Hin. apply in_app_or in Hin as [Hin|Hin].
    - destruct (validate_events _ _ Hv) as [->|[raw ->]];
        repeat (destruct Hin as [Hin|Hin]; [discriminate|]); destruct Hin.
    - destruct (Htail _ Hin) as [H|[t H]]; discriminate. }
  destruct r as [result|x]; cbn [events].
  - unfold finish. destruct (build result (clock e n)) as [new_creds|x].
    + destruct (snd (json_dump new_creds)).
      * cbn [events]. eexists. split; [reflexivity|]. intros rt'. apply Hevs.
        intros ev [<-|[]]; eauto.
      * destruct (hours_of result); cbn [events]; eexists; (split; [reflexivity|]);
          intros rt'; apply Hevs; intros ev [<-|[<-|[]]]; eauto.
    + cbn [events]. eexists. split; [reflexivity|]. intros rt'.
      rewrite <- (app_nil_r evs). apply Hevs. intros ev [].
  - eexists. split; [reflexivity|]. intros rt'.
    rewrite <- (app_nil_r evs). apply Hevs. intros ev [].
Qed.

Lemma sent_request (e : env) (f : option file) (rt : json) :
  In (Urlopen rt) (events (run json_loads json_dump e f)) ->
  exists logs n, gate json_loads f (clock e 0) = (Stale rt, logs, n).
Proof.
  rewrite run_eq. intros Hin.
  destruct (gate json_loads f (clock e 0)) as [[g logs] n] eqn:Hgate.
  destruct g as [|rt0|x].
  - unfold perform in Hin. rewrite Hgate in Hin. destruct Hin.
  - destruct (stale_events e f Hgate) as (tail & Hev & Hno).
    rewrite Hev in Hin. destruct Hin as [Hin|Hin]; [|destruct (Hno _ Hin)].
    inversion Hin; subst. eauto.
  - unfold perform in Hin. rewrite Hgate in Hin. destruct Hin.
Qed.

Lemma refused_run (e : env) (f : option file) (rt : json) (x : exn)
    (logs : list log_msg) (evs : list event) :
  In (Urlopen rt) (events (run json_loads json_dump e f)) ->
  validate json_loads (endpoint e) = (Raise x, logs, evs) ->
  status (run json_loads json_dump e f) = exit_status (Raise x)
  /\ store (run json_loads json_dump e f) = f
  /\ events (run json_loads json_dump e f) = Urlopen rt :: evs
  /\ exists before, printed (run json_loads json_dump e f) = before ++ logs.
Proof.
  intros Hin Hv. destruct (@sent_request e f rt Hin) as (logs0 & n & Hgate).
  rewrite run_eq. unfold perform. rewrite Hgate, Hv. cbn [status store events printed].
  repeat split. now exists logs0.
Qed.

Lemma accepted_run (e : env) (f : option file) (rt result : json)
    (logs : list log_msg) (evs : list event) :
  In (Urlopen rt) (events (run json_loads json_dump e f)) ->
  validate json_loads (endpoint e) = (Ok result, logs, evs) ->
  exists logs0 n,
    (n = 0 \/ n = 1)%nat
    /\ run json_loads json_dump e f
       = finish json_dump f (logs0 ++ logs) (Urlopen rt :: evs) result (clock e n).
Proof.
  intros Hin Hv. destruct (@sent_request e f rt Hin) as (logs0 & n & Hgate).
  pose proof (gate_ticks json_loads f (clock e 0)) as Hn. rewrite Hgate in Hn.
  exists logs0, n. split; [exact Hn|].
  rewrite run_eq. unfold perform. rewrite Hgate, Hv. reflexivity.
Qed.

Lemma written_event (ev : event) (rt : json) (raw written : pystr) (rest : list event) :
  In ev (Urlopen rt :: [JsonLoads raw] ++ FileWrite written :: rest) ->
  (forall other, ~ In (FileWrite other) rest) ->
  forall w, ev = FileWrite w -> w = written.
Proof.
  intros Hin Hrest w ->.
  destruct Hin as [Hin|[Hin|[Hin|Hin]]]; try discriminate; [now inversion Hin|].
  destruct (Hrest _ Hin).
Qed.

End RefresherOutcomes.

(** C4, as the code has it.  Take a run that sent the request and got
    an accepted answer (a JSON object with status "success") that
    carries [access_token], [refresh_token] and [expires_in].  The new
    credential holds exactly: the [access_token] and [refresh_token] of
    the answer, its [token_type] or "Bearer", its [resource_url] or
    "portal.qwen.ai", and [expiry_date = now_ms + expires_in * 1000] as
    Python computes it ([now_ms] is the clock read at that moment, its
    first or second reading; for an integer [expires_in] the sum is the
    exact integer).  When [json.dump] writes it without raising, the
    store is that text, and then its mode is set to 0o600.  When
    [json.dump] raises on the way, the store is left with what was
    written, the mode is not changed, and the process ends there. *)
Theorem refreshed_credential_is_saved
    (json_loads : pystr -> option json) (json_dump : json -> pystr * option exn)
    (e : env) (f : option file) (raw : pystr) (content_type : option pystr)
    (d : list (pystr * json)) (access_token refresh_token' expires_in rt : json) :
  endpoint e = UrlResponse (Some raw) content_type ->
  contains (u "text/html") (match content_type with Some c => c | None => [] end) = false ->
  strip raw <> [] ->
  json_loads raw = Some (JDict d) ->
  lookup (u "status") d = Some (JStr (u "success")) ->
  lookup (u "access_token") d = Some access_token ->
  lookup (u "refresh_token") d = Some refresh_token' ->
  lookup (u "expires_in") d = Some expires_in ->
  In (Urlopen rt) (events (run json_loads json_dump e f)) ->
  let out := run json_loads json_dump e f in
  exists n,
    (n = 0 \/ n = 1)%nat
    /\ (forall seconds,
          as_number expires_in = Some (Int seconds) ->
          expiry_of (clock e n) expires_in = Ok (JInt (clock e n + seconds * 1000)))
    /\ forall expiry_date,
         expiry_of (clock e n) expires_in = Ok expiry_date ->
         let new_creds :=
           JDict [
             (u "access_token", access_token);
             (u "token_type",
              match lookup (u "token_type") d with Some x => x | None => JStr (u "Bearer") end);
             (u "refresh_token", refresh_token');
             (u "resource_url",
              match lookup (u "resource_url") d with
              | Some x => x
              | None => JStr (u "portal.qwen.ai")
              end);
             (u "expiry_date", expiry_date)] in
         (snd (json_dump new_creds) = None ->
          store out = Some {| text := fst (json_dump new_creds); mode := 384 |}
          /\ events out
             = [Urlopen rt; JsonLoads raw; FileWrite (fst (json_dump new_creds)); Chmod 384])
         /\ (forall x,
               snd (json_dump new_creds) = Some x ->
               store out
               = Some {| text := fst (json_dump new_creds);
                         mode := match f with Some old => mode old | None => 420 end |}
               /\ events out
                  = [Urlopen rt; JsonLoads raw; FileWrite (fst (json_dump new_creds))]
               /\ status out = exit_status (Raise x)).
Proof.
  intros He Hhtml Hstrip Hd Hstatus Haccess Hrefresh Hexpires Hin out.
  pose proof (@validate_success json_loads raw content_type d Hhtml Hstrip Hd Hstatus) as Hok.
  rewrite <- He in Hok.
  destruct (@accepted_run json_loads json_dump e f rt _ _ _ Hin Hok)
    as (logs0 & n & Hn & Hrun).
  exists n. split; [exact Hn|]. split; [intros seconds; apply expiry_of_integer|].
  intros expiry_date Hexpiry new_creds. subst out. rewrite Hrun.
  unfold finish. rewrite build_fields, Haccess, Hrefresh, Hexpires, Hexpiry.
  change (credential d access_token refresh_token' expiry_date) with new_creds.
  split.
  - intros ->. destruct (hours_of (JDict d)); split; reflexivity.
  - intros x ->. repeat split.
Qed.

Lemma refreshed_credential_is_saved_witness :
  store (run Doc.loads Doc.dump
           (Doc.refresher (UrlResponse (Some Doc.success_doc) (Some (u "application/json"))))
           (Doc.stored Doc.stale_doc))
  = Some {| text := Doc.dumps (JDict [
              (u "access_token", JStr (u "new"));
              (u "token_type", JStr (u "Bearer"));
              (u "refresh_token", JStr (u "r2"));
              (u "resource_url", JStr (u "portal.qwen.ai"));
              (u "expiry_date", JInt (1700000000001 + 21600 * 1000))]);
            mode := 384 |}.
Proof.
  destruct (@refreshed_credential_is_saved Doc.loads Doc.dump
              (Doc.refresher (UrlResponse (Some Doc.success_doc) (Some (u "application/json"))))
              (Doc.stored Doc.stale_doc) Doc.success_doc (Some (u "application/json"))
              [(u "status", JStr (u "success")); (u "access_token", JStr (u "new"));
               (u "refresh_token", JStr (u "r2")); (u "expires_in", JInt 21600);
               (u "scope", JStr (u "openid"))]
              (JStr (u "new")) (JStr (u "r2")) (JInt 21600) (JStr (u "r1")))
    as (n & Hn & Hint & Hsave).
  - reflexivity.
  - vm_compute. reflexivity.
  - vm_compute. discriminate.
  - vm_compute. reflexivity.
  - vm_compute. reflexivity.
  - vm_compute. reflexivity.
  - vm_compute. reflexivity.
  - vm_compute. reflexivity.
  - vm_compute. left. reflexivity.
  - destruct (Hsave _ (Hint 21600%Z eq_refl)) as [Hdone _].
    destruct Hn as [->| ->].
    + destruct Hdone as [Hstore _]; [vm_compute; reflexivity|].
      vm_compute in Hstore. discriminate Hstore.
    + destruct Hdone as [Hstore _]; [vm_compute; reflexivity|].
      rewrite Hstore. vm_compute. reflexivity.
Defined.

(** C4, counterexamples to the statement for every accepted answer.
    An answer with status "success" and an [access_token] but no
    [refresh_token]: nothing is written, and the process ends with
    status 1.  And an answer whose [access_token] holds a lone
    surrogate: [json.dump] raises at this string, the store is left with
    the 20 characters written before it, its mode stays 0o644, and the
    process ends with status 1. *)
Lemma accepted_answer_is_not_always_saved :
  run Doc.loads Doc.dump (Doc.refresher (UrlResponse (Some Doc.incomplete_doc) None))
    (Doc.stored Doc.stale_doc)
  = {| status := 1;
       store := Doc.stored Doc.stale_doc;
       printed := [LogCheck; LogExpiresSoon (Exact (-1699999999000 # 1000)); LogSending];
       events := [Urlopen (JStr (u "r1")); JsonLoads Doc.incomplete_doc] |}
  /\ run Doc.loads Doc.dump (Doc.refresher (UrlResponse (Some Doc.surrogate_answer_doc) None))
       (Doc.stored Doc.stale_doc)
     = {| status := 1;
          store := Some {| text := Doc.json_text "{" ++ [10%N]
                                   ++ Doc.json_text "  'access_token': ";
                           mode := 420 |};
          printed := [LogCheck; LogExpiresSoon (Exact (-1699999999000 # 1000)); LogSending];
          events := [Urlopen (JStr (u "r1")); JsonLoads Doc.surrogate_answer_doc;
                     FileWrite (Doc.json_text "{" ++ [10%N]
                                ++ Doc.json_text "  'access_token': ")] |}.
Proof. split; vm_compute; reflexivity. Qed.

(** C10: whenever the refresher writes the store, what it writes is
    the dump of an object with exactly the keys [access_token],
    [token_type], [refresh_token], [resource_url] and [expiry_date], in
    this order: nothing of the former store and no other key of the
    answer is kept.  When the dump is complete this text is the store
    the run leaves, with mode 0o600; and after a successful refresh (a
    run that wrote the store and ends with status 0) the dump is
    complete. *)
Theorem rewritten_store_has_five_keys
    (json_loads : pystr -> option json) (json_dump : json -> pystr * option exn)
    (e : env) (f : option file) (written : pystr) :
  In (FileWrite written) (events (run json_loads json_dump e f)) ->
  exists new_creds,
    map fst new_creds
    = [u "access_token"; u "token_type"; u "refresh_token"; u "resource_url";
       u "expiry_date"]
    /\ written = fst (json_dump (JDict new_creds))
    /\ (snd (json_dump (JDict new_creds)) = None ->
        store (run json_loads json_dump e f) = Some {| text := written; mode := 384 |})
    /\ (dump_raises_exceptions json_dump ->
        status (run json_loads json_dump e f) = 0%Z ->
        snd (json_dump (JDict new_creds)) = None).
Proof.
  intros Hin.
  assert (Hwritten : forall rt evs w rest,
            (evs = [] \/ exists raw, evs = [JsonLoads raw]) ->
            In (FileWrite written) (Urlopen rt :: evs ++ FileWrite w :: rest) ->
            (forall ev, In ev rest -> ev = Chmod 384) ->
            written = w).
  { intros rt evs w rest Hevs Hw Hrest.
    destruct Hw as [Hw|Hw]; [discriminate|]. apply in_app_or in Hw as [Hw|Hw].
    - destruct Hevs as [->|[raw ->]]; [destruct Hw|].
      destruct Hw as [Hw|[]]. discriminate.
    - destruct Hw as [Hw|Hw]; [now inversion Hw|].
      apply Hrest in Hw. discriminate. }
  destruct (run_ran json_loads json_dump e f)
    as [Hev Hst|rt x logs evs Hv Hev Hst Hex _
       |rt result logs evs n x Hv Hb Hev _ _
       |rt result logs evs n new_creds x Hv Hn Hb Hdump Hev Hst Hex
       |rt result logs evs n new_creds Hv Hn Hb Hdump Hev Hst];
    rewrite Hev in Hin.
  - destruct Hin.
  - destruct (validate_events _ _ Hv) as [->|[raw ->]];
      repeat (destruct Hin as [Hin|Hin]; [discriminate|]); destruct Hin.
  - destruct (validate_events _ _ Hv) as [->|[raw ->]];
      repeat (destruct Hin as [Hin|Hin]; [discriminate|]); destruct Hin.
  - destruct (build_keys _ _ Hb) as (a & t & r & ru & y & ->).
    exists [(u "access_token", a); (u "token_type", t); (u "refresh_token", r);
            (u "resource_url", ru); (u "expiry_date", y)].
    split; [reflexivity|]. split; [|split].
    + apply (Hwritten rt evs _ [] (validate_events _ _ Hv) Hin). intros ev [].
    + intros Hnone. rewrite Hnone in Hdump. discriminate.
    + intros Hraises Hzero. exfalso. rewrite Hex in Hzero.
      pose proof (Hraises _ _ Hdump) as Hx.
      destruct x; try discriminate Hx; discriminate Hzero.
  - destruct (build_keys _ _ Hb) as (a & t & r & ru & y & ->).
    exists [(u "access_token", a); (u "token_type", t); (u "refresh_token", r);
            (u "resource_url", ru); (u "expiry_date", y)].
    split; [reflexivity|].
    assert (Hw : written = fst (json_dump (JDict [(u "access_token", a); (u "token_type", t);
                     (u "refresh_token", r); (u "resource_url", ru); (u "expiry_date", y)]))).
    { apply (Hwritten rt evs _ [Chmod 384] (validate_events _ _ Hv) Hin).
      intros ev [<-|[]]. reflexivity. }
    split; [exact Hw|]. split; [intros _; rewrite Hw; exact Hst|]. intros _ _. exact Hdump.
Qed.

Lemma rewritten_store_has_five_keys_witness :
  exists new_creds,
    map fst new_creds
    = [u "access_token"; u "token_type"; u "refresh_token"; u "resource_url";
       u "expiry_date"]
    /\ Doc.dumps (JDict [(u "access_token", JStr (u "new"));
                         (u "token_type", JStr (u "Bearer"));
                         (u "refresh_token", JStr (u "r2"));
                         (u "resource_url", JStr (u "portal.qwen.ai"));
                         (u "expiry_date", JInt 1700021600001)])
       = fst (Doc.dump (JDict new_creds))
    /\ (snd (Doc.dump (JDict new_creds)) = None ->
        store (run Doc.loads Doc.dump
                 (Doc.refresher (UrlResponse (Some Doc.success_doc) None))
                 (Doc.stored Doc.stale_doc))
        = Some {| text := Doc.dumps (JDict [(u "access_token", JStr (u "new"));
                                            (u "token_type", JStr (u "Bearer"));
                                            (u "refresh_token", JStr (u "r2"));
                                            (u "resource_url", JStr (u "portal.qwen.ai"));
                                            (u "expiry_date", JInt 1700021600001)]);
                  mode := 384 |})
    /\ (dump_raises_exceptions Doc.dump ->
        status (run Doc.loads Doc.dump
                  (Doc.refresher (UrlResponse (Some Doc.success_doc) None))
                  (Doc.stored Doc.stale_doc)) = 0%Z ->
        snd (Doc.dump (JDict new_creds)) = None).
Proof.
  apply (@rewritten_store_has_five_keys Doc.loads Doc.dump
           (Doc.refresher (UrlResponse (Some Doc.success_doc) None))
           (Doc.stored Doc.stale_doc)).
  vm_compute. do 2 right. left. reflexivity.
Defined.

(** C7, as the code has it: when the request has been sent and the
    answer (of a success status, with a body that decodes) has a
    Content-Type that contains "text/html", the refresher prints the hint
    of a WAF blockage with the content type and the length of the body,
    and exits with status 1; the body is not given to [json.loads] and
    the store is left as it was. *)
Theorem html_answer_is_refused
    (json_loads : pystr -> option json) (json_dump : json -> pystr * option exn)
    (e : env) (f : option file) (raw content_type : pystr) (rt : json) :
  endpoint e = UrlResponse (Some raw) (Some content_type) ->
  contains (u "text/html") content_type = true ->
  In (Urlopen rt) (events (run json_loads json_dump e f)) ->
  status (run json_loads json_dump e f) = 1%Z
  /\ store (run json_loads json_dump e f) = f
  /\ events (run json_loads json_dump e f) = [Urlopen rt]
  /\ exists before,
       printed (run json_loads json_dump e f)
       = before ++ [LogHtml; LogHtmlDetail content_type (length raw)].
Proof.
  intros He Hhtml Hin.
  apply (@refused_run json_loads json_dump e f rt (SystemExit 1)
           [LogHtml; LogHtmlDetail content_type (length raw)] [] Hin).
  rewrite He. unfold validate. rewrite Hhtml. reflexivity.
Qed.

Lemma html_answer_is_refused_witness :
  status (run Doc.loads Doc.dump
            (Doc.refresher (UrlResponse (Some (u "<html><body>Access denied</body></html>"))
                              (Some (u "text/html; charset=utf-8"))))
            (Doc.stored Doc.stale_doc)) = 1%Z
  /\ events (run Doc.loads Doc.dump
               (Doc.refresher (UrlResponse (Some (u "<html><body>Access denied</body></html>"))
                                 (Some (u "text/html; charset=utf-8"))))
               (Doc.stored Doc.stale_doc)) = [Urlopen (JStr (u "r1"))].
Proof.
  destruct (@html_answer_is_refused Doc.loads Doc.dump
              (Doc.refresher (UrlResponse (Some (u "<html><body>Access denied</body></html>"))
                                (Some (u "text/html; charset=utf-8"))))
              (Doc.stored Doc.stale_doc)
              (u "<html><body>Access denied</body></html>") (u "text/html; charset=utf-8")
              (JStr (u "r1")))
    as (Hstatus & _ & Hevents & _).
  - reflexivity.
  - vm_compute. reflexivity.
  - vm_compute. left. reflexivity.
  - split; assumption.
Defined.

(** C7, counterexample to the statement for every content type that is
    not JSON: three answers whose content type is "text/plain".  A blank
    body is refused with the hint for an empty answer, not with the WAF
    hint; a body that is a page of HTML is given to [json.loads] and
    refused as malformed JSON; and a body that is the JSON of a success
    is accepted: the store is rewritten and the process exits with
    status 0. *)
Lemma plain_text_answer_is_parsed :
  contains (u "json") (u "text/plain") = false
  /\ run Doc.loads Doc.dump
       (Doc.refresher (UrlResponse (Some (u "  ")) (Some (u "text/plain"))))
       (Doc.stored Doc.stale_doc)
     = {| status := 1;
          store := Doc.stored Doc.stale_doc;
          printed := [LogCheck; LogExpiresSoon (Exact (-1699999999000 # 1000)); LogSending;
                      LogEmpty; LogEmptyHint];
          events := [Urlopen (JStr (u "r1"))] |}
  /\ run Doc.loads Doc.dump
       (Doc.refresher (UrlResponse (Some (u "<html></html>")) (Some (u "text/plain"))))
       (Doc.stored Doc.stale_doc)
     = {| status := 1;
          store := Doc.stored Doc.stale_doc;
          printed := [LogCheck; LogExpiresSoon (Exact (-1699999999000 # 1000)); LogSending;
                      LogJSON; LogJSONExcerpt (u "<html></html>")];
          events := [Urlopen (JStr (u "r1")); JsonLoads (u "<html></html>")] |}
  /\ run Doc.loads Doc.dump
       (Doc.refresher (UrlResponse (Some Doc.success_doc) (Some (u "text/plain"))))
       (Doc.stored Doc.stale_doc)
     = {| status := 0;
          store := Some {| text := Doc.dumps (JDict [
                             (u "access_token", JStr (u "new"));
                             (u "token_type", JStr (u "Bearer"));
                             (u "refresh_token", JStr (u "r2"));
                             (u "resource_url", JStr (u "portal.qwen.ai"));
                             (u "expiry_date", JInt 1700021600001)]);
                           mode := 384 |};
          printed := [LogCheck; LogExpiresSoon (Exact (-1699999999000 # 1000)); LogSending;
                      LogFileUpdated; LogRefreshed (Exact (21600 # 3600))];
          events := [Urlopen (JStr (u "r1")); JsonLoads Doc.success_doc;
                     FileWrite (Doc.dumps (JDict [
                             (u "access_token", JStr (u "new"));
                             (u "token_type", JStr (u "Bearer"));
                             (u "refresh_token", JStr (u "r2"));
                             (u "resource_url", JStr (u "portal.qwen.ai"));
                             (u "expiry_date", JInt 1700021600001)]));
                     Chmod 384] |}.
Proof. repeat apply conj; vm_compute; reflexivity. Qed.

(** ** Further properties of the refresher *)

(** X10: a store that is absent, that is not JSON, or whose JSON is
    not an object stops the refresher at once: it exits with status 1,
    sends no request and leaves the store as it is (it never creates
    the file). *)
Theorem unreadable_store_stops_refresher
    (json_loads : pystr -> option json) (json_dump : json -> pystr * option exn)
    (e : env) (f : option file) :
  match f with
  | None => True
  | Some file =>
      match json_loads (text file) with
      | None => True
      | Some (JDict _) => False
      | Some _ => True
      end
  end ->
  status (run json_loads json_dump e f) = 1%Z
  /\ store (run json_loads json_dump e f) = f
  /\ events (run json_loads json_dump e f) = []
  /\ printed (run json_loads json_dump e f)
     = match f with
       | None => [LogCheck; LogFileNotFound]
       | Some _ => [LogCheck]
       end.
Proof.
  intros Hstore. rewrite run_eq. unfold perform, gate.
  destruct f as [file|]; [|repeat split].
  destruct (json_loads (text file)) as [creds|]; [|repeat split].
  destruct creds; try contradiction; repeat split.
Qed.

Lemma unreadable_store_stops_refresher_witness :
  status (run Doc.loads Doc.dump (Doc.refresher (UrlRaises (URLError []))) None) = 1%Z
  /\ store (run Doc.loads Doc.dump (Doc.refresher (UrlRaises (URLError []))) None) = None
  /\ events (run Doc.loads Doc.dump (Doc.refresher (UrlRaises (URLError []))) None) = []
  /\ printed (run Doc.loads Doc.dump (Doc.refresher (UrlRaises (URLError []))) None)
     = [LogCheck; LogFileNotFound].
Proof.
  exact (@unreadable_store_stops_refresher Doc.loads Doc.dump
           (Doc.refresher (UrlRaises (URLError []))) None I).
Defined.

(** X11: a credential whose [expiry_date] is neither absent, falsy
    nor a number (a non-empty string, list or object) makes
    [expiry_date - now_ms] raise a [TypeError]: the process ends with
    status 1 after reading the clock, without any request or write. *)
Theorem non_numeric_expiry_date_stops_refresher
    (json_loads : pystr -> option json) (json_dump : json -> pystr * option exn)
    (e : env) (file : file) (d : list (pystr * json)) (expiry_date : json) :
  json_loads (text file) = Some (JDict d) ->
  lookup (u "expiry_date") d = Some expiry_date ->
  truthy expiry_date = true ->
  as_number expiry_date = None ->
  run json_loads json_dump e (Some file)
  = {| status := 1; store := Some file; printed := [LogCheck]; events := [] |}.
Proof.
  intros Hd Hexp Htruthy Hnum. rewrite run_eq. unfold perform, gate, needs_refresh.
  rewrite Hd. cbn [get]. rewrite Hexp, Htruthy. cbn [negb].
  unfold sub_int. rewrite Hnum. reflexivity.
Qed.

Lemma non_numeric_expiry_date_stops_refresher_witness :
  run (Doc.loads_table
         [(Doc.json_text "{'refresh_token': 'r1', 'expiry_date': '2026-01-01'}",
           JDict [(u "refresh_token", JStr (u "r1"));
                  (u "expiry_date", JStr (u "2026-01-01"))])])
    Doc.dump (Doc.refresher (UrlRaises (URLError [])))
    (Some {| text := Doc.json_text "{'refresh_token': 'r1', 'expiry_date': '2026-01-01'}";
             mode := 384 |})
  = {| status := 1;
       store := Some {| text := Doc.json_text
                                  "{'refresh_token': 'r1', 'expiry_date': '2026-01-01'}";
                        mode := 384 |};
       printed := [LogCheck];
       events := [] |}.
Proof.
  refine (@non_numeric_expiry_date_stops_refresher _ Doc.dump
            (Doc.refresher (UrlRaises (URLError [])))
            {| text := Doc.json_text "{'refresh_token': 'r1', 'expiry_date': '2026-01-01'}";
               mode := 384 |}
            [(u "refresh_token", JStr (u "r1")); (u "expiry_date", JStr (u "2026-01-01"))]
            (JStr (u "2026-01-01")) _ _ _ _).
  - vm_compute. reflexivity.
  - vm_compute. reflexivity.
  - vm_compute. reflexivity.
  - reflexivity.
Defined.

(** X12: what a run does, in order: nothing; or one request; or one
    request and the parsing of its body; or one request, the parsing and
    a write of the store that [json.dump] left unfinished; or one
    request, the parsing, one complete write of the store and the change
    of its mode to 0o600.  The store is what it was in the first three
    cases; in the fourth it holds what was written before the exception,
    with the mode the file had; in the last it holds the written text
    with mode 0o600. *)
Theorem refresher_does_one_thing_at_a_time
    (json_loads : pystr -> option json) (json_dump : json -> pystr * option exn)
    (e : env) (f : option file) :
  (events (run json_loads json_dump e f) = []
   /\ store (run json_loads json_dump e f) = f)
  \/ (exists rt,
        events (run json_loads json_dump e f) = [Urlopen rt]
        /\ store (run json_loads json_dump e f) = f)
  \/ (exists rt raw,
        events (run json_loads json_dump e f) = [Urlopen rt; JsonLoads raw]
        /\ store (run json_loads json_dump e f) = f)
  \/ (exists rt raw fragment old,
        events (run json_loads json_dump e f)
        = [Urlopen rt; JsonLoads raw; FileWrite fragment]
        /\ f = Some old
        /\ store (run json_loads json_dump e f)
           = Some {| text := fragment; mode := mode old |})
  \/ (exists rt raw new_text,
        events (run json_loads json_dump e f)
        = [Urlopen rt; JsonLoads raw; FileWrite new_text; Chmod 384]
        /\ store (run json_loads json_dump e f)
           = Some {| text := new_text; mode := 384 |}).
Proof.
  destruct (run_ran json_loads json_dump e f)
    as [Hev Hst|rt x logs evs Hv Hev Hst Hex _
       |rt result logs evs n x Hv Hb Hev Hst _
       |rt result logs evs n new_creds x Hv Hn Hb Hdump Hev Hst Hex
       |rt result logs evs n new_creds Hv Hn Hb Hdump Hev Hst].
  - left. split; assumption.
  - destruct (validate_events _ _ Hv) as [->|[raw ->]].
    + right; left. exists rt. split; assumption.
    + right; right; left. exists rt, raw. split; assumption.
  - destruct (validate_events _ _ Hv) as [->|[raw ->]].
    + right; left. exists rt. split; assumption.
    + right; right; left. exists rt, raw. split; assumption.
  - destruct (validate_ok _ _ Hv) as (raw & ct & d & _ & _ & _ & _ & _ & _ & _ & ->).
    do 3 right; left.
    assert (Hsent : In (Urlopen rt) (events (run json_loads json_dump e f)))
      by (rewrite Hev; left; reflexivity).
    destruct (sent_request json_loads json_dump e f rt Hsent) as (logs0 & n0 & Hgate).
    destruct f as [old|]; [|discriminate Hgate].
    exists rt, raw, (fst (json_dump new_creds)), old.
    split; [exact Hev|]. split; [reflexivity|exact Hst].
  - destruct (validate_ok _ _ Hv) as (raw & ct & d & _ & _ & _ & _ & _ & _ & _ & ->).
    do 4 right. exists rt, raw, (fst (json_dump new_creds)). split; assumption.
Qed.

(** X13: an HTTP error status or a network error of the token
    endpoint: the refresher prints the status and the body, with the
    advice to authorize again exactly for the statuses 400 and 401 (or
    prints the reason of the network error), exits with status 1, and
    neither parses anything nor touches the store. *)
Theorem http_error_is_reported
    (json_loads : pystr -> option json) (json_dump : json -> pystr * option exn)
    (e : env) (f : option file) (rt : json) :
  In (Urlopen rt) (events (run json_loads json_dump e f)) ->
  (forall code error_body,
     endpoint e = UrlRaises (HTTPError code error_body) ->
     status (run json_loads json_dump e f) = 1%Z
     /\ store (run json_loads json_dump e f) = f
     /\ events (run json_loads json_dump e f) = [Urlopen rt]
     /\ exists before,
          printed (run json_loads json_dump e f)
          = before ++ LogHTTP code error_body
              :: (if (code =? 400)%Z || (code =? 401)%Z then [LogReauthorize] else []))
  /\ (forall reason,
        endpoint e = UrlRaises (URLError reason) ->
        status (run json_loads json_dump e f) = 1%Z
        /\ store (run json_loads json_dump e f) = f
        /\ events (run json_loads json_dump e f) = [Urlopen rt]
        /\ exists before,
             printed (run json_loads json_dump e f) = before ++ [LogNetwork reason]).
Proof.
  intros Hin. split.
  - intros code error_body He.
    apply (@refused_run json_loads json_dump e f rt (SystemExit 1)); [exact Hin|].
    rewrite He. reflexivity.
  - intros reason He.
    apply (@refused_run json_loads json_dump e f rt (SystemExit 1)); [exact Hin|].
    rewrite He. reflexivity.
Qed.

Lemma http_error_is_reported_witness :
  status (run Doc.loads Doc.dump (Doc.refresher (UrlRaises (HTTPError 500 [])))
            (Doc.stored Doc.stale_doc)) = 1%Z
  /\ store (run Doc.loads Doc.dump (Doc.refresher (UrlRaises (HTTPError 500 [])))
              (Doc.stored Doc.stale_doc)) = Doc.stored Doc.stale_doc
  /\ events (run Doc.loads Doc.dump (Doc.refresher (UrlRaises (HTTPError 500 [])))
               (Doc.stored Doc.stale_doc)) = [Urlopen (JStr (u "r1"))]
  /\ exists before,
       printed (run Doc.loads Doc.dump (Doc.refresher (UrlRaises (HTTPError 500 [])))
                  (Doc.stored Doc.stale_doc))
       = before ++ LogHTTP 500 []
           :: (if (500 =? 400)%Z || (500 =? 401)%Z then [LogReauthorize] else []).
Proof.
  refine (proj1 (@http_error_is_reported Doc.loads Doc.dump
                   (Doc.refresher (UrlRaises (HTTPError 500 [])))
                   (Doc.stored Doc.stale_doc) (JStr (u "r1")) _) 500%Z [] eq_refl).
  vm_compute. left. reflexivity.
Defined.

(** X14: an accepted answer (status "success") that lacks
    [access_token], [refresh_token] or [expires_in], or whose
    [expires_in] is not a number (null, a string, a list or an object),
    is not saved: the process ends with status 1 on the [KeyError] or
    [TypeError], nothing is written, and the store keeps the old
    credential.  (An [expires_in] that is a [float] is a number: such an
    answer is saved, see [float_expires_in_is_saved].) *)
Theorem incomplete_answer_keeps_store
    (json_loads : pystr -> option json) (json_dump : json -> pystr * option exn)
    (e : env) (f : option file) (raw : pystr) (content_type : option pystr)
    (d : list (pystr * json)) (rt : json) :
  endpoint e = UrlResponse (Some raw) content_type ->
  contains (u "text/html") (match content_type with Some c => c | None => [] end) = false ->
  strip raw <> [] ->
  json_loads raw = Some (JDict d) ->
  lookup (u "status") d = Some (JStr (u "success")) ->
  In (Urlopen rt) (events (run json_loads json_dump e f)) ->
  match lookup (u "access_token") d, lookup (u "refresh_token") d,
        lookup (u "expires_in") d with
  | Some _, Some _, Some expires_in => as_number expires_in
  | _, _, _ => None
  end = None ->
  status (run json_loads json_dump e f) = 1%Z
  /\ store (run json_loads json_dump e f) = f
  /\ events (run json_loads json_dump e f) = [Urlopen rt; JsonLoads raw].
Proof.
  intros He Hhtml Hstrip Hd Hstatus Hin Hfields.
  pose proof (@validate_success json_loads raw content_type d Hhtml Hstrip Hd Hstatus) as Hok.
  rewrite <- He in Hok.
  destruct (@accepted_run json_loads json_dump e f rt _ _ _ Hin Hok)
    as (logs0 & n & _ & ->).
  unfold finish. rewrite build_fields.
  destruct (lookup (u "access_token") d); [|repeat split].
  destruct (lookup (u "refresh_token") d); [|repeat split].
  destruct (lookup (u "expires_in") d) as [expires_in|]; [|repeat split].
  rewrite (expiry_of_not_a_number _ _ Hfields). repeat split.
Qed.

Lemma incomplete_answer_keeps_store_witness :
  status (run Doc.loads Doc.dump
            (Doc.refresher (UrlResponse (Some Doc.incomplete_doc) None))
            (Doc.stored Doc.stale_doc)) = 1%Z
  /\ store (run Doc.loads Doc.dump
              (Doc.refresher (UrlResponse (Some Doc.incomplete_doc) None))
              (Doc.stored Doc.stale_doc)) = Doc.stored Doc.stale_doc.
Proof.
  destruct (@incomplete_answer_keeps_store Doc.loads Doc.dump
              (Doc.refresher (UrlResponse (Some Doc.incomplete_doc) None))
              (Doc.stored Doc.stale_doc) Doc.incomplete_doc None
              [(u "status", JStr (u "success")); (u "access_token", JStr (u "new"))]
              (JStr (u "r1")))
    as (Hstatus & Hstore & _).
  - reflexivity.
  - vm_compute. reflexivity.
  - vm_compute. discriminate.
  - vm_compute. reflexivity.
  - vm_compute. reflexivity.
  - vm_compute. left. reflexivity.
  - vm_compute. reflexivity.
  - split; assumption.
Defined.

(** An answer whose [expires_in] is the [float] 21600.5: the sum of
    line 163 is the [float] nearest to 1700021600501, the credential is
    saved with it, and the process exits with status 0. *)
Example float_expires_in_is_saved :
  run Doc.loads Doc.dump (Doc.refresher (UrlResponse (Some Doc.float_answer_doc) None))
    (Doc.stored Doc.stale_doc)
  = {| status := 0;
       store :=
         Some {| text := Doc.dumps (JDict [
                   (u "access_token", JStr (u "new"));
                   (u "token_type", JStr (u "Bearer"));
                   (u "refresh_token", JStr (u "r2"));
                   (u "resource_url", JStr (u "portal.qwen.ai"));
                   (u "expiry_date",
                    JFloat (SpecFloat.S754_finite false 6963288475652096 (-12)))]);
                 mode := 384 |};
       printed := [LogCheck; LogExpiresSoon (Exact (-1699999999000 # 1000)); LogSending;
                   LogFileUpdated;
                   LogRefreshed
                     (Binary64 (SpecFloat.S754_finite false 6755555816042805 (-50)))];
       events := [Urlopen (JStr (u "r1")); JsonLoads Doc.float_answer_doc;
                  FileWrite (Doc.dumps (JDict [
                    (u "access_token", JStr (u "new"));
                    (u "token_type", JStr (u "Bearer"));
                    (u "refresh_token", JStr (u "r2"));
                    (u "resource_url", JStr (u "portal.qwen.ai"));
                    (u "expiry_date",
                     JFloat (SpecFloat.S754_finite false 6963288475652096 (-12)))]));
                  Chmod 384] |}.
Proof. vm_compute. reflexivity. Qed.

Lemma doc_dump_raises_exceptions : dump_raises_exceptions Doc.dump.
Proof.
  intros v x. unfold Doc.dump. cbn [snd].
  destruct (snd (Doc.dump_at 0 v ([], None))) as [[|]|]; cbn [option_map Doc.exn_of];
    intros H; inversion H; reflexivity.
Qed.

(** X15: as long as [urlopen] and [json.dump] raise nothing but
    [Exception]s, the exit status 0 means one of two things: the token
    was still fresh (nothing was sent, the store is as it was), or the
    store has been rewritten, completely, and its mode set to 0o600.  No
    run that sent the request and did not save ends with status 0. *)
Theorem exit_zero_means_fresh_or_saved
    (json_loads : pystr -> option json) (json_dump : json -> pystr * option exn)
    (e : env) (f : option file) :
  match endpoint e with UrlRaises x => is_Exception x | UrlResponse _ _ => true end = true ->
  dump_raises_exceptions json_dump ->
  status (run json_loads json_dump e f) = 0%Z ->
  (events (run json_loads json_dump e f) = []
   /\ store (run json_loads json_dump e f) = f)
  \/ exists rt raw new_text,
       events (run json_loads json_dump e f)
       = [Urlopen rt; JsonLoads raw; FileWrite new_text; Chmod 384]
       /\ store (run json_loads json_dump e f) = Some {| text := new_text; mode := 384 |}.
Proof.
  intros Hord Hdumps Hzero.
  destruct (run_ran json_loads json_dump e f)
    as [Hev Hst|rt x logs evs Hv Hev Hst Hex _
       |rt result logs evs n x Hv Hb Hev Hst Hex
       |rt result logs evs n new_creds x Hv Hn Hb Hdump Hev Hst Hex
       |rt result logs evs n new_creds Hv Hn Hb Hdump Hev Hst].
  - left. split; assumption.
  - exfalso. rewrite Hex in Hzero. revert Hv Hord Hzero. unfold validate.
    destruct (endpoint e) as [y|[raw|] ct].
    + destruct y; intros Hv; inversion Hv; subst; cbn; try discriminate.
    + destruct (contains _ _); [intros Hv; inversion Hv; discriminate|].
      destruct (negb _); [intros Hv; inversion Hv; discriminate|].
      destruct (json_loads raw) as [v|]; [|intros Hv; inversion Hv; discriminate].
      destruct v; cbn [get]; try (intros Hv; inversion Hv; discriminate).
      destruct (ne_str _ _); intros Hv; inversion Hv; discriminate.
    + intros Hv; inversion Hv; discriminate.
  - exfalso. rewrite Hex in Hzero.
    pose proof (build_ordinary result (clock e n)) as Hx. rewrite Hb in Hx.
    destruct x; try discriminate Hx; discriminate Hzero.
  - exfalso. rewrite Hex in Hzero.
    pose proof (Hdumps _ _ Hdump) as Hx.
    destruct x; try discriminate Hx; discriminate Hzero.
  - right. destruct (validate_ok _ _ Hv) as (raw & ct & d & _ & _ & _ & _ & _ & _ & _ & ->).
    exists rt, raw, (fst (json_dump new_creds)). split; assumption.
Qed.

Lemma exit_zero_means_fresh_or_saved_witness :
  (events (run Doc.loads Doc.dump (Doc.refresher (UrlRaises (URLError [])))
             (Doc.stored Doc.fresh_doc)) = []
   /\ store (run Doc.loads Doc.dump (Doc.refresher (UrlRaises (URLError [])))
               (Doc.stored Doc.fresh_doc)) = Doc.stored Doc.fresh_doc)
  \/ exists rt raw new_text,
       events (run Doc.loads Doc.dump (Doc.refresher (UrlRaises (URLError [])))
                 (Doc.stored Doc.fresh_doc))
       = [Urlopen rt; JsonLoads raw; FileWrite new_text; Chmod 384]
       /\ store (run Doc.loads Doc.dump (Doc.refresher (UrlRaises (URLError [])))
                   (Doc.stored Doc.fresh_doc))
          = Some {| text := new_text; mode := 384 |}.
Proof.
  refine (@exit_zero_means_fresh_or_saved Doc.loads Doc.dump
            (Doc.refresher (UrlRaises (URLError []))) (Doc.stored Doc.fresh_doc) eq_refl
            doc_dump_raises_exceptions _).
  vm_compute. reflexivity.
Defined.

Section RefreshedStore.

Variable json_loads : pystr -> option json.
Variable json_dump : json -> pystr * option exn.

(** What a run that changed the mode of the store has saved. *)
Lemma saved_store (e : env) (f : option file) (raw : pystr) (content_type : option pystr)
    (d : list (pystr * json)) (access_token refresh_token' expires_in : json) :
  In (Chmod 384) (events (run json_loads json_dump e f)) ->
  endpoint e = UrlResponse (Some raw) content_type ->
  json_loads raw = Some (JDict d) ->
  lookup (u "access_token") d = Some access_token ->
  lookup (u "refresh_token") d = Some refresh_token' ->
  lookup (u "expires_in") d = Some expires_in ->
  exists n expiry_date,
    (n = 0 \/ n = 1)%nat
    /\ expiry_of (clock e n) expires_in = Ok expiry_date
    /\ store (run json_loads json_dump e f)
       = Some {| text := fst (json_dump
                                (credential d access_token refresh_token' expiry_date));
                 mode := 384 |}.
Proof.
  intros Hin He Hd Haccess Hrefresh Hexpires.
  assert (Hno : forall rt evs tail,
            (evs = [] \/ exists raw', evs = [JsonLoads raw']) ->
            (tail = [] \/ exists written, tail = [FileWrite written]) ->
            ~ In (Chmod 384) (Urlopen rt :: evs ++ tail)).
  { intros rt evs tail Hevs Htail H.
    destruct H as [H|H]; [discriminate|]. apply in_app_or in H as [H|H].
    - destruct Hevs as [->|[raw' ->]]; [destruct H|]. destruct H as [H|[]]. discriminate.
    - destruct Htail as [->|[written ->]]; [destruct H|]. destruct H as [H|[]]. discriminate. }
  destruct (run_ran json_loads json_dump e f)
    as [Hev Hst|rt x logs evs Hv Hev Hst Hex _
       |rt result logs evs n x Hv Hb Hev Hst _
       |rt result logs evs n new_creds x Hv Hn Hb Hdump Hev Hst Hex
       |rt result logs evs n new_creds Hv Hn Hb Hdump Hev Hst].
  - rewrite Hev in Hin. destruct Hin.
  - rewrite Hev, <- (app_nil_r evs) in Hin.
    destruct (Hno _ _ _ (validate_events _ _ Hv) (or_introl eq_refl) Hin).
  - rewrite Hev, <- (app_nil_r evs) in Hin.
    destruct (Hno _ _ _ (validate_events _ _ Hv) (or_introl eq_refl) Hin).
  - rewrite Hev in Hin.
    destruct (Hno _ _ _ (validate_events _ _ Hv) (or_intror (ex_intro _ _ eq_refl)) Hin).
  - destruct (validate_accepts _ He Hd Hv) as (-> & _ & _).
    rewrite build_fields, Haccess, Hrefresh, Hexpires in Hb.
    destruct (expiry_of (clock e n) expires_in) as [expiry_date|x] eqn:Hexpiry;
      [|discriminate Hb].
    inversion Hb; subst new_creds. exists n, expiry_date. auto.
Qed.

Lemma credential_fields (d : list (pystr * json))
    (access_token refresh_token' expiry_date : json) :
  exists c,
    credential d access_token refresh_token' expiry_date = JDict c
    /\ lookup (u "expiry_date") c = Some expiry_date
    /\ get (JDict c) (u "access_token") (JStr []) = Ok access_token.
Proof. eexists. split; [reflexivity|]. split; reflexivity. Qed.

End RefreshedStore.

(** X16: the refresher is idempotent while the new token lasts.  Take
    a run that saved (it changed the mode of the store to 0o600) the
    credential of an answer with [access_token], [refresh_token] and an
    integer [expires_in] of [seconds].  If [json.loads] reads back the
    credential that [json.dump] wrote, then a second run on the store the
    first one left, whose clock (after the epoch) reads a time more than
    7200000 ms before the new expiry date (and less than the range of a
    float before it), sends nothing, writes nothing and exits with
    status 0.  The new expiry date counts from the clock as the first run
    read it, at its first or second reading. *)
Theorem second_run_finds_token_fresh
    (json_loads : pystr -> option json) (json_dump : json -> pystr * option exn)
    (e : env) (f : option file) (raw : pystr) (content_type : option pystr)
    (d : list (pystr * json)) (access_token refresh_token' expires_in : json)
    (seconds : Z) (e' : env) :
  In (Chmod 384) (events (run json_loads json_dump e f)) ->
  endpoint e = UrlResponse (Some raw) content_type ->
  json_loads raw = Some (JDict d) ->
  lookup (u "access_token") d = Some access_token ->
  lookup (u "refresh_token") d = Some refresh_token' ->
  lookup (u "expires_in") d = Some expires_in ->
  as_number expires_in = Some (Int seconds) ->
  (forall n, (n = 0 \/ n = 1)%nat ->
     json_loads (fst (json_dump (credential d access_token refresh_token'
                                   (JInt (clock e n + seconds * 1000)))))
     = Some (credential d access_token refresh_token' (JInt (clock e n + seconds * 1000)))) ->
  (0 <= clock e' 0)%Z ->
  (forall n, (n = 0 \/ n = 1)%nat ->
     (7200000 < clock e n + seconds * 1000 - clock e' 0 < 1000 * FLOAT_OVERFLOW_Z)%Z) ->
  status (run json_loads json_dump e' (store (run json_loads json_dump e f))) = 0%Z
  /\ store (run json_loads json_dump e' (store (run json_loads json_dump e f)))
     = store (run json_loads json_dump e f)
  /\ events (run json_loads json_dump e' (store (run json_loads json_dump e f))) = [].
Proof.
  intros Hsaved He Hd Haccess Hrefresh Hexpires Hseconds Hround Hepoch Hfresh.
  destruct (saved_store json_loads json_dump e f Hsaved He Hd Haccess Hrefresh Hexpires)
    as (n & expiry_date & Hn & Hexpiry & ->).
  rewrite (expiry_of_integer _ _ Hseconds) in Hexpiry.
  inversion Hexpiry; subst expiry_date.
  specialize (Hround n Hn). specialize (Hfresh n Hn).
  destruct (credential_fields d access_token refresh_token'
              (JInt (clock e n + seconds * 1000))) as (c & Hc & Hdate & _).
  rewrite Hc in *.
  refine (@fresh_run json_loads json_dump e'
            {| text := fst (json_dump (JDict c)); mode := 384 |} c _ _ Hround _).
  rewrite (@needs_refresh_int c (JInt (clock e n + seconds * 1000))
             (clock e n + seconds * 1000) (clock e' 0) Hdate eq_refl) by lia.
  destruct (Z.leb_spec (clock e n + seconds * 1000 - clock e' 0) 7200000) as [Hle|_];
    [lia|reflexivity].
Qed.

Lemma second_run_finds_token_fresh_witness :
  status (run Doc.loads_back Doc.dump Doc.an_hour_later
            (store (run Doc.loads_back Doc.dump
                      (Doc.refresher (UrlResponse (Some Doc.success_doc) None))
                      (Doc.stored Doc.stale_doc)))) = 0%Z
  /\ store (run Doc.loads_back Doc.dump Doc.an_hour_later
              (store (run Doc.loads_back Doc.dump
                        (Doc.refresher (UrlResponse (Some Doc.success_doc) None))
                        (Doc.stored Doc.stale_doc))))
     = store (run Doc.loads_back Doc.dump
                (Doc.refresher (UrlResponse (Some Doc.success_doc) None))
                (Doc.stored Doc.stale_doc))
  /\ events (run Doc.loads_back Doc.dump Doc.an_hour_later
               (store (run Doc.loads_back Doc.dump
                         (Doc.refresher (UrlResponse (Some Doc.success_doc) None))
                         (Doc.stored Doc.stale_doc)))) = [].
Proof.
  apply (@second_run_finds_token_fresh Doc.loads_back Doc.dump
           (Doc.refresher (UrlResponse (Some Doc.success_doc) None))
           (Doc.stored Doc.stale_doc) Doc.success_doc None Doc.success_fields
           (JStr (u "new")) (JStr (u "r2")) (JInt 21600) 21600 Doc.an_hour_later).
  - vm_compute. do 3 right. left. reflexivity.
  - reflexivity.
  - vm_compute. reflexivity.
  - vm_compute. reflexivity.
  - vm_compute. reflexivity.
  - vm_compute. reflexivity.
  - reflexivity.
  - intros n [->| ->]; vm_compute; reflexivity.
  - vm_compute. discriminate.
  - intros n [->| ->]; vm_compute; split; reflexivity.
Defined.

(** X17: the relay reads what the refresher saved.  Take a run that
    saved (it changed the mode of the store to 0o600) the credential of
    an answer with a truthy [access_token], a [refresh_token] and an
    [expires_in].  If [json.loads] reads back the credential that
    [json.dump] wrote, then [get_qwen_token], reading the text of the
    store the run left, returns that [access_token]. *)
Theorem relay_reads_refreshed_token
    (json_loads : pystr -> option json) (json_dump : json -> pystr * option exn)
    (e : env) (f : option file) (raw : pystr) (content_type : option pystr)
    (d : list (pystr * json)) (access_token refresh_token' expires_in : json)
    (refreshed : file) (relay : Bot.env) (t : Bot.state) :
  In (Chmod 384) (events (run json_loads json_dump e f)) ->
  endpoint e = UrlResponse (Some raw) content_type ->
  json_loads raw = Some (JDict d) ->
  lookup (u "access_token") d = Some access_token ->
  lookup (u "refresh_token") d = Some refresh_token' ->
  lookup (u "expires_in") d = Some expires_in ->
  (forall n expiry_date, (n = 0 \/ n = 1)%nat ->
     expiry_of (clock e n) expires_in = Ok expiry_date ->
     json_loads (fst (json_dump (credential d access_token refresh_token' expiry_date)))
     = Some (credential d access_token refresh_token' expiry_date)) ->
  truthy access_token = true ->
  store (run json_loads json_dump e f) = Some refreshed ->
  Bot.creds_text relay = Ok (text refreshed) ->
  Bot.get_qwen_token json_loads relay t = (Ok access_token, t ++ [Bot.Sync]).
Proof.
  intros Hsaved He Hd Haccess Hrefresh Hexpires Hround Htruthy Hstore Hrelay.
  destruct (saved_store json_loads json_dump e f Hsaved He Hd Haccess Hrefresh Hexpires)
    as (n & expiry_date & Hn & Hexpiry & Hleft).
  rewrite Hleft in Hstore. inversion Hstore; subst refreshed. cbn [text] in Hrelay.
  rewrite get_qwen_token_eq. unfold read_token.
  rewrite Hrelay, (Hround n expiry_date Hn Hexpiry).
  destruct (credential_fields d access_token refresh_token' expiry_date)
    as (c & -> & _ & ->).
  rewrite Htruthy. reflexivity.
Qed.

Lemma relay_reads_refreshed_token_witness :
  Bot.get_qwen_token Doc.loads_back
    (Doc.relay (Doc.dumps (Doc.refreshed_val 1700000000001)) 200 Doc.answer_doc) []
  = (Ok (JStr (u "new")), [] ++ [Bot.Sync]).
Proof.
  apply (@relay_reads_refreshed_token Doc.loads_back Doc.dump
           (Doc.refresher (UrlResponse (Some Doc.success_doc) None))
           (Doc.stored Doc.stale_doc) Doc.success_doc None Doc.success_fields
           (JStr (u "new")) (JStr (u "r2")) (JInt 21600)
           {| text := Doc.dumps (Doc.refreshed_val 1700000000001); mode := 384 |}
           (Doc.relay (Doc.dumps (Doc.refreshed_val 1700000000001)) 200 Doc.answer_doc) []).
  - vm_compute. do 3 right. left. reflexivity.
  - reflexivity.
  - vm_compute. reflexivity.
  - vm_compute. reflexivity.
  - vm_compute. reflexivity.
  - vm_compute. reflexivity.
  - intros n expiry_date [->| ->] H; vm_compute in H; inversion H; vm_compute; reflexivity.
  - reflexivity.
  - vm_compute. reflexivity.
  - reflexivity.
Defined.
